(** * uzudt: the resumable annotation pipeline

    A shallow embedding of
      - [uzudt/annotator.py]       (the Record Converter, [tokens_to_conllu]),
      - [scripts/annotate_batch.py] (the Checkpoint Resolver
        [get_last_processed_index] and the Pipeline Orchestrator [main]),
    with the two adapters of [uzudt/openai_client.py] and
    [uzudt/validator.py] as oracles of the orchestrator.

    Conventions.  Python [int] is [Z]; Python [str] is [string], read at
    the ASCII level: a byte above 127 is carried through unchanged and is
    neither a digit nor white space for [int()], [strip()] and
    [splitlines()].  [lower()] is modelled on the letters A to Z:
    Python lowercases letters outside the ASCII range too, so a
    statement about a lowercased text is made for ASCII text.  The
    interpreter's limit on the number of digits [int()] and [str()]
    convert is not modelled.
    Files are text files on a POSIX system: a newline is written as it
    is.  An exception is an instance of [Exception], which is what the
    [except] clause of [main] catches.  Console messages are left out. *)

From Stdlib Require Import ZArith Lia Ascii String.
From stdpp Require Import base tactics option list strings pretty gmap.

Open Scope Z_scope.

(** ** Python's string primitives *)

Module Py.

Definition LF : ascii := "010"%char.
Definition CR : ascii := "013"%char.
Definition TAB : ascii := "009"%char.

Definition nl : string := String LF "".
Definition tab : string := String TAB "".

Definition code (c : ascii) : N := N_of_ascii c.

(** [Py_ISSPACE]: the white space [int()] skips around a literal. *)
Definition isspace_c (c : ascii) : bool :=
  ((9 <=? code c) && (code c <=? 13) || (code c =? 32))%N.

(** [str.isspace] on one ASCII character: what [strip()] removes. *)
Definition isspace (c : ascii) : bool :=
  ((9 <=? code c) && (code c <=? 13)
   || (28 <=? code c) && (code c <=? 32))%N.

Definition isdigit (c : ascii) : bool :=
  ((48 <=? code c) && (code c <=? 57))%N.

Definition digit_val (c : ascii) : Z := Z.of_N (code c) - 48.

(** [s.lower()] on ASCII text: the letters A to Z become a to z.  On
    letters outside the ASCII range Python's [lower()] does more. *)
Definition lower_c (c : ascii) : ascii :=
  if ((65 <=? code c) && (code c <=? 90))%N
  then ascii_of_N (code c + 32) else c.

Fixpoint lower (s : string) : string :=
  match s with
  | EmptyString => EmptyString
  | String c s' => String (lower_c c) (lower s')
  end.

(** [sep.join(parts)] *)
Fixpoint join (sep : string) (parts : list string) : string :=
  match parts with
  | [] => ""
  | [p] => p
  | p :: rest => p +:+ sep +:+ join sep rest
  end.

(** [s.lstrip()], [s.rstrip()] and [s.strip()] *)
Fixpoint lstrip (s : string) : string :=
  match s with
  | String c s' => if isspace c then lstrip s' else s
  | EmptyString => EmptyString
  end.

Definition rstrip (s : string) : string :=
  String.rev (lstrip (String.rev s)).

Definition strip (s : string) : string := rstrip (lstrip s).

(** [s.startswith(p)] *)
Fixpoint startswith (s p : string) {struct p} : bool :=
  match p, s with
  | EmptyString, _ => true
  | String a p', String b s' => if Ascii.eqb a b then startswith s' p' else false
  | String _ _, EmptyString => false
  end.

(** [s.split(sep)] for a non-empty [sep]: cut at each occurrence of
    [sep], found from the left, occurrences not overlapping.  [skip]
    counts the characters of a found separator still to pass over and
    [cur] holds the segment read so far, reversed. *)
Fixpoint split_go (sep : string) (skip : nat) (cur : string) (s : string)
  : list string :=
  match s with
  | EmptyString => [String.rev cur]
  | String c s' =>
      match skip with
      | S k => split_go sep k cur s'
      | O =>
          if startswith s sep
          then String.rev cur :: split_go sep (String.length sep - 1) "" s'
          else split_go sep O (String c cur) s'
      end
  end.

Definition split (s sep : string) : list string := split_go sep O "" s.

(** *** [int(s)] on a string, base 10

    Follows [PyLong_FromString]: white space, an optional sign, then
    digits in which single underscores may separate digits, then white
    space up to the end.  [None] stands for [ValueError]. *)

Fixpoint skip_space_c (s : string) : string :=
  match s with
  | String c s' => if isspace_c c then skip_space_c s' else s
  | EmptyString => EmptyString
  end.

(** The digit scan.  [prev_us] tells whether the previous character was
    an underscore, [seen] whether a digit was read.  Returns the value
    read and the rest of the string, or [None] for a doubled or trailing
    underscore or an empty run. *)
Fixpoint scan_digits (s : string) (prev_us seen : bool) (acc : Z)
  : option (Z * string) :=
  match s with
  | String c s' =>
      if isdigit c then scan_digits s' false true (10 * acc + digit_val c)
      else if Ascii.eqb c "_" then
        (if prev_us then None else scan_digits s' true seen acc)
      else if prev_us || negb seen then None else Some (acc, s)
  | EmptyString =>
      if prev_us || negb seen then None else Some (acc, EmptyString)
  end.

Definition int_of_str (s : string) : option Z :=
  let s1 := skip_space_c s in
  let '(sign, s2) :=
    match s1 with
    | String c r =>
        if Ascii.eqb c "+" then (1, r)
        else if Ascii.eqb c "-" then (-1, r)
        else (1, s1)
    | EmptyString => (1, s1)
    end in
  if startswith s2 "_" then None
  else
    match scan_digits s2 false false 0 with
    | Some (n, rest) =>
        match skip_space_c rest with
        | EmptyString => Some (sign * n)
        | String _ _ => None
        end
    | None => None
    end.

(** [str(n)] on an integer *)
Definition str_of_int (n : Z) : string := pretty n.

End Py.

(** ** Values, tokens and exceptions *)

(** A value held by a token under one of its keys, as [json.loads]
    builds it.  [VOpaque] stands for a float, a list or a nested object,
    known here through what [int()] and [str()] make of it only
    ([None]: [int()] raises). *)
Inductive value : Type :=
| VNone
| VBool (b : bool)
| VInt (n : Z)
| VStr (s : string)
| VOpaque (as_int : option Z) (as_str : string).

(** One element of the annotation service's reply: a [dict], which is
    what a TokenDescription is.  (On an element that is no [dict] the
    converter raises as well; such replies are not told apart here from
    the other replies on which it raises.) *)
Abbreviation token := (gmap string value).

(** The exceptions of the pipeline. *)
Inductive exn : Type :=
| TokenMissingField (t : token)
    (* [raise ValueError(f"Token missing ID or FORM: {t}")] *)
| IntConversion (v : value)
    (* what [int(v)] raises: [ValueError] on a string that is no
       literal, [TypeError] on [None], ... *)
| KeyError (key : string)
    (* [t[key]] on a key that is absent *)
| FileNotFoundError (path : string)
| AdapterError (detail : string).
    (* an exception leaving the annotation adapter or the validator adapter *)

(** Results of code that may raise, with the usual bind. *)
Inductive result (A : Type) : Type :=
| Ok (a : A)
| Raise (e : exn).
Arguments Ok {A} a.
Arguments Raise {A} e.

#[global] Instance result_ret : MRet result := fun A a => Ok a.
#[global] Instance result_fmap : FMap result := fun A B f r =>
  match r with
  | Ok a => Ok (f a)
  | Raise e => Raise e
  end.
#[global] Instance result_bind : MBind result := fun A B k r =>
  match r with
  | Ok a => k a
  | Raise e => Raise e
  end.

Definition raises {A} (r : result A) : Prop := exists e, r = Raise e.

(** [int(v)] *)
Definition py_int (v : value) : result Z :=
  match v with
  | VInt n => Ok n
  | VBool b => Ok (if b then 1 else 0)
  | VStr s =>
      match Py.int_of_str s with
      | Some n => Ok n
      | None => Raise (IntConversion v)
      end
  | VNone => Raise (IntConversion v)
  | VOpaque (Some n) _ => Ok n
  | VOpaque None _ => Raise (IntConversion v)
  end.

(** [str(v)] *)
Definition py_str (v : value) : string :=
  match v with
  | VNone => "None"
  | VBool b => if b then "True" else "False"
  | VInt n => Py.str_of_int n
  | VStr s => s
  | VOpaque _ s => s
  end.

(** [key in t], [t[key]] and [t.get(key, default)] *)
Definition has_key (t : token) (key : string) : bool :=
  bool_decide (is_Some (t !! key)).

Definition getitem (t : token) (key : string) : result value :=
  match t !! key with
  | Some v => Ok v
  | None => Raise (KeyError key)
  end.

Definition get (t : token) (key : string) (default : value) : value :=
  from_option id default (t !! key).

(** ** The Record Converter ([uzudt/annotator.py]) *)

(** The body of the loop of [tokens_to_conllu]: the line of one token. *)
Definition token_line (t : token) : result string :=
  if negb (has_key t "ID") || negb (has_key t "FORM")
  then Raise (TokenMissingField t)
  else
    tid ← getitem t "ID" ≫= py_int;
    form ← py_str <$> getitem t "FORM";
    let lemma := py_str (get t "LEMMA" (VStr (Py.lower form))) in
    let upos := py_str (get t "UPOS" (VStr "X")) in
    let xpos := "_" in
    let feats := "_" in
    head_id ← py_int (get t "HEAD ID" (VInt 0));
    let deprel := py_str (get t "DEPREL" (VStr "dep")) in
    let deps := "_" in
    let misc := "_" in
    Ok (Py.join Py.tab
          [Py.str_of_int tid; form; lemma; upos; xpos; feats;
           Py.str_of_int head_id; deprel; deps; misc]).

(** The [for] loop, with the list [lines] it appends to. *)
Fixpoint convert_loop (tokens : list token) (lines : list string)
  : result (list string) :=
  match tokens with
  | [] => Ok lines
  | t :: rest =>
      line ← token_line t;
      convert_loop rest (lines ++ [line])
  end.

Definition tokens_to_conllu (tokens : list token) : result string :=
  lines ← convert_loop tokens [];
  Ok (Py.join Py.nl lines +:+ Py.nl).


(** ** The Checkpoint Resolver ([scripts/annotate_batch.py]) *)

(** Reading a text file: Python's universal newlines turn "\r\n" and a
    lone "\r" into "\n". *)
Fixpoint translate_newlines (after_cr : bool) (s : string) : string :=
  match s with
  | EmptyString => EmptyString
  | String c s' =>
      if Ascii.eqb c Py.CR then String Py.LF (translate_newlines true s')
      else if Ascii.eqb c Py.LF && after_cr then translate_newlines false s'
      else String c (translate_newlines false s')
  end.

Definition read_text (content : string) : string :=
  translate_newlines false content.

(** [for line in f]: the lines of the text, each with its "\n". *)
Fixpoint readlines_go (cur : string) (s : string) : list string :=
  match s with
  | EmptyString => if decide (cur = "") then [] else [String.rev cur]
  | String c s' =>
      if Ascii.eqb c Py.LF
      then String.rev (String c cur) :: readlines_go "" s'
      else readlines_go (String c cur) s'
  end.

Definition readlines (text : string) : list string := readlines_go "" text.

Definition header_prefix : string := "# sent_id = auto-".

(** The body of [for line in f]: [last] after one more line.  [split]
    returns at least one segment, so [[-1]] is always there. *)
Definition scan_line (line : string) (last : Z) : Z :=
  let line := Py.strip line in
  if Py.startswith line header_prefix then
    let n_str := List.last (Py.split line "auto-") "" in
    match Py.int_of_str n_str with
    | Some n => if n >? last then n else last
    | None => last   (* [except ValueError: continue] *)
    end
  else last.

Fixpoint scan_lines (lines : list string) (last : Z) : Z :=
  match lines with
  | [] => last
  | line :: rest => scan_lines rest (scan_line line last)
  end.

(** [gold] is the content of [data/gold/uzudt_auto.conllu], [None] when
    the file does not exist. *)
Definition get_last_processed_index (gold : option string) : Z :=
  match gold with
  | None => 0
  | Some content => scan_lines (readlines (read_text content)) 0
  end.


(** ** The Pipeline Orchestrator ([scripts/annotate_batch.py]) *)

(** [text.splitlines()]: cut at "\n", "\r", "\r\n", "\v", "\f" and the
    separators 28 to 30; no empty last line. *)
Definition is_linebreak (c : ascii) : bool :=
  ((10 <=? Py.code c) && (Py.code c <=? 13)
   || (28 <=? Py.code c) && (Py.code c <=? 30))%N.

Fixpoint splitlines_go (after_cr : bool) (cur : string) (s : string)
  : list string :=
  match s with
  | EmptyString => if decide (cur = "") then [] else [String.rev cur]
  | String c s' =>
      if Ascii.eqb c Py.LF && after_cr then splitlines_go false cur s'
      else if is_linebreak c
      then String.rev cur :: splitlines_go (Ascii.eqb c Py.CR) "" s'
      else splitlines_go false (String c cur) s'
  end.

Definition splitlines (text : string) : list string :=
  splitlines_go false "" text.

(** [[line.strip() for line in text.splitlines() if line.strip()]] *)
Definition read_sentences (content : string) : list string :=
  omap (fun line =>
          if decide (Py.strip line = "") then None else Some (Py.strip line))
       (splitlines (read_text content)).

(** [enumerate(sentences, start=i)] *)
Fixpoint enumerate (i : Z) (sentences : list string) : list (Z * string) :=
  match sentences with
  | [] => []
  | sent :: rest => (i, sent) :: enumerate (i + 1) rest
  end.

(** [f"{i:04d}"]: at least four characters, zeros after the sign. *)
Fixpoint zeros (n : nat) : string :=
  match n with
  | O => ""
  | S n' => String "0" (zeros n')
  end.

Definition zfill (width : nat) (digits : string) : string :=
  zeros (width - String.length digits) +:+ digits.

Definition format_04d (i : Z) : string :=
  if i <? 0 then "-" +:+ zfill 3 (Py.str_of_int (- i))
  else zfill 4 (Py.str_of_int i).

(** The names of the diagnostic files, inside [data/logs].  The stem
    holds no dot, so [with_suffix] appends. *)
Definition exception_name (i : Z) : string :=
  "sentence_" +:+ format_04d i +:+ "_exception.txt".
Definition base_name (i : Z) : string := "sentence_" +:+ format_04d i.
Definition json_name (i : Z) : string := base_name i +:+ ".json".
Definition conllu_name (i : Z) : string := base_name i +:+ ".conllu".
Definition val_name (i : Z) : string := base_name i +:+ ".val.log".

(** What a run does to the outside, in the order it does it. *)
Inductive call : Type :=
| CallAnnotate (idx : Z) (sentence model : string)
    (* [annotate_sentence_with_llm(sentence, model=...)], made for sentence [idx] *)
| CallValidate (idx : Z) (conllu_str : string).
    (* [validate_conllu(conllu_str, lang="uz", level=2)], made for sentence [idx] *)

(** The files the orchestrator owns and the calls it has made.
    [gold] is the Corpus file ([None]: no such file), [log_writes] the
    [write_text] calls into [data/logs], oldest first. *)
Record world : Type := World {
  gold : option string;
  log_writes : list (string * string);
  calls : list call
}.

Definition record_call (c : call) (w : world) : world :=
  World (gold w) (log_writes w) (calls w ++ [c]).

Definition write_text (name content : string) (w : world) : world :=
  World (gold w) (log_writes w ++ [(name, content)]) (calls w).

(** [GOLD_PATH.open("a")] creates the file when it is missing;
    [gold_out.write(s)] appends. *)
Definition open_append (w : world) : world :=
  World (Some (default "" (gold w))) (log_writes w) (calls w).

Definition gold_write (s : string) (w : world) : world :=
  World (Some (default "" (gold w) +:+ s)) (log_writes w) (calls w).

(** How a loop body ends: falling through (or [continue]), or [break]. *)
Inductive ctl : Type := Next | Break.

Section Orchestrator.

(** The two adapters, as the run meets them: the reply of the
    annotation service to the call made for sentence [idx], and the
    verdict of the external validator on the call made for sentence
    [idx].  Both may raise.  [json_dumps] is
    [json.dumps(tokens, ensure_ascii=False, indent=2)] and [str_exc] is
    [str(e)] on an exception. *)
Variable annotate_sentence_with_llm : Z -> string -> string -> result (list token).
Variable validate_conllu : Z -> string -> result (bool * string).
Variable json_dumps : list token -> string.
Variable str_exc : exn -> string.

(** [model or "gpt-5-mini"] *)
Definition model_or_default (model : string) : string :=
  if decide (model = "") then "gpt-5-mini" else model.

Definition annotate_one_sentence (sentence : string) (idx : Z) (model : string)
    (w : world) : result (bool * string * list token * string) * world :=
  let model := model_or_default model in
  let w := record_call (CallAnnotate idx sentence model) w in
  match annotate_sentence_with_llm idx sentence model with
  | Raise e => (Raise e, w)
  | Ok tokens =>
      match tokens_to_conllu tokens with
      | Raise e => (Raise e, w)
      | Ok conllu_str =>
          let w := record_call (CallValidate idx conllu_str) w in
          match validate_conllu idx conllu_str with
          | Raise e => (Raise e, w)
          | Ok (ok, log) => (Ok (ok, conllu_str, tokens, log), w)
          end
      end
  end.

(** The block appended for a valid sentence: four [write] calls. *)
Definition append_block (i : Z) (sent conllu_str : string) (w : world) : world :=
  let w := gold_write ("# sent_id = auto-" +:+ Py.str_of_int i +:+ Py.nl) w in
  let w := gold_write ("# text = " +:+ sent +:+ Py.nl) w in
  let w := gold_write conllu_str w in
  gold_write Py.nl w.

Definition exception_report (i : Z) (sent : string) (e : exn) : string :=
  "Sentence index: " +:+ Py.str_of_int i +:+ Py.nl +:+
  "Sentence: " +:+ sent +:+ Py.nl +:+ Py.nl +:+
  "Error: " +:+ str_exc e +:+ Py.nl.

(** The body of the [for] loop of [main]. *)
Definition loop_body (start_from : Z) (model : string) (item : Z * string)
    (w : world) : ctl * world :=
  let '(i, sent) := item in
  if i <? start_from then (Next, w)
  else
    match annotate_one_sentence sent i model w with
    | (Raise e, w) =>
        (Break, write_text (exception_name i) (exception_report i sent e) w)
    | (Ok (ok, conllu_str, tokens, v_log), w) =>
        if ok : bool then (Next, append_block i sent conllu_str w)
        else
          let w := write_text (json_name i) (json_dumps tokens) w in
          let w := write_text (conllu_name i) conllu_str w in
          let w := write_text (val_name i) v_log w in
          (Break, w)
    end.

Fixpoint for_loop (start_from : Z) (model : string) (items : list (Z * string))
    (w : world) : ctl * world :=
  match items with
  | [] => (Next, w)
  | item :: rest =>
      match loop_body start_from model item w with
      | (Break, w) => (Break, w)
      | (Next, w) => for_loop start_from model rest w
      end
  end.

(** The start index: [--start-from] when given, else one past the
    checkpoint; never below 1. *)
Definition resolve_start (override : option Z) (gold : option string) : Z :=
  let inferred_start := get_last_processed_index gold + 1 in
  let start_from := default inferred_start override in
  if start_from <? 1 then 1 else start_from.

(** [main]: [override] and [model] are the two command-line options,
    [raw] the content of [data/raw/uz_sentences.txt] ([None]: missing). *)
Definition main (override : option Z) (model : string) (raw : option string)
    (w : world) : result world :=
  match raw with
  | None => Raise (FileNotFoundError "data/raw/uz_sentences.txt")
  | Some content =>
      let sentences := read_sentences content in
      let total := Z.of_nat (length sentences) in
      let start_from := resolve_start override (gold w) in
      if start_from >? total then Ok w
      else
        let w := open_append w in
        Ok (for_loop start_from model (enumerate 1 sentences) w).2
  end.

End Orchestrator.


(** * Vocabulary of the properties *)

(** ** The Record Converter *)

Definition carries_both (t : token) : Prop :=
  is_Some (t !! "ID") /\ is_Some (t !! "FORM").

Definition lacks_field (t : token) : Prop :=
  t !! "ID" = None \/ t !! "FORM" = None.

Definition converts (t : token) : Prop := exists line, token_line t = Ok line.

Definition finish_int (sign : Z) (s : string) : option Z :=
  match Py.scan_digits s false false 0 with
  | Some (n, rest) =>
      match Py.skip_space_c rest with
      | EmptyString => Some (sign * n)
      | String _ _ => None
      end
  | None => None
  end.

(** *** Concrete sequences *)

Definition kitob : token := {[ "ID" := VInt 1; "FORM" := VStr "kitob" ]}.

Definition kitob_line : string :=
  "1" +:+ Py.tab +:+ "kitob" +:+ Py.tab +:+ "kitob" +:+ Py.tab +:+ "X" +:+
  Py.tab +:+ "_" +:+ Py.tab +:+ "_" +:+ Py.tab +:+ "0" +:+ Py.tab +:+ "dep" +:+
  Py.tab +:+ "_" +:+ Py.tab +:+ "_".

(** A first token whose position is [None] and a second one without a
    surface form. *)
Definition none_then_formless : list token :=
  [ {[ "ID" := VNone; "FORM" := VStr "a" ]}; {[ "ID" := VInt 2 ]} ].

(** The missing-field claim the way it is worded: a sequence with an
    element lacking a field fails with the missing-field error. *)
Definition fails_with_missing_field (tokens : list token) : Prop :=
  (exists t, t ∈ tokens /\ lacks_field t) ->
  exists t, tokens_to_conllu tokens = Raise (TokenMissingField t).

(** The number the resolver reads on one line of the Corpus: the line,
    stripped, starts with the header prefix and the text after its last
    "auto-" is an integer literal. *)
Definition header_value (line : string) : option Z :=
  let line := Py.strip line in
  if Py.startswith line header_prefix
  then Py.int_of_str (List.last (Py.split line "auto-") "")
  else None.

Definition corpus_lines (content : string) : list string :=
  readlines (read_text content).

Definition header_values (gold : option string) : list Z :=
  match gold with
  | None => []
  | Some content => omap header_value (corpus_lines content)
  end.

(** The checkpoint the way it is worded: a header is a line
    [# sent_id = auto-N], its value is the integer [N] that follows the
    prefix, a header whose [N] is no integer is skipped, and the
    checkpoint is the greatest value, 0 when there is none. *)
Fixpoint string_drop (n : nat) (s : string) : string :=
  match n, s with
  | S n', String _ s' => string_drop n' s'
  | _, _ => s
  end.

Definition header_N (line : string) : option Z :=
  let line := Py.strip line in
  if Py.startswith line header_prefix
  then Py.int_of_str (string_drop (String.length header_prefix) line)
  else None.

Definition greatest_header_N (gold : option string) : Z :=
  match gold with
  | None => 0
  | Some content =>
      match omap header_N (corpus_lines content) with
      | [] => 0
      | n :: ns => foldr Z.max n ns
      end
  end.

(** Every character of [s] satisfies [P]. *)
Fixpoint str_all (P : ascii -> bool) (s : string) : bool :=
  match s with
  | EmptyString => true
  | String c s' => P c && str_all P s'
  end.

(** The characters of the strings [int()] accepts: white space, signs,
    digits and underscores. *)
Definition literal_char (c : ascii) : bool :=
  Py.isspace_c c || Py.isdigit c || Ascii.eqb c "+" || Ascii.eqb c "-"
  || Ascii.eqb c "_".

(** A Corpus with the headers auto-3, auto-1 and auto-7, in that order,
    and one header whose number is no integer. *)
Definition corpus_3_1_7 : string :=
  "# sent_id = auto-3" +:+ Py.nl +:+ "# text = Kitob" +:+ Py.nl +:+
  kitob_line +:+ Py.nl +:+ Py.nl +:+
  "# sent_id = auto-1" +:+ Py.nl +:+ "# text = Kitob" +:+ Py.nl +:+
  kitob_line +:+ Py.nl +:+ Py.nl +:+
  "# sent_id = auto-seven" +:+ Py.nl +:+
  "# sent_id = auto-7" +:+ Py.nl +:+ "# text = Kitob" +:+ Py.nl +:+
  kitob_line +:+ Py.nl +:+ Py.nl.

(** ** Texts made of whole lines *)

(** A text that is empty or ends with a newline: what is appended to it
    starts a new line. *)
Definition closed_text (s : string) : Prop :=
  s = "" \/ exists s', s = s' +:+ Py.nl.

Definition no_break_char (c : ascii) : bool :=
  negb (Ascii.eqb c Py.CR) && negb (Ascii.eqb c Py.LF).

Definition nonspace_char (c : ascii) : bool := negb (Py.isspace c).

Definition sign_or_digit (c : ascii) : bool := Py.isdigit c || Ascii.eqb c "-".

Definition not_linebreak (c : ascii) : bool := negb (is_linebreak c).

(** A commit whose sentence holds no line break and whose Record is made
    of whole lines, none of them a header the resolver reads. *)
Definition plain_commit (commit : Z * string * string) : Prop :=
  str_all no_break_char commit.1.2 = true
  /\ closed_text commit.2
  /\ header_values (Some commit.2) = [].

(** ** The Pipeline Orchestrator *)

(** The world a run starts from: the Corpus as it is, nothing logged,
    nothing called. *)
Definition initial_world (gold0 : option string) : world := World gold0 [] [].

(** The text of the Corpus, a missing file reading as empty. *)
Definition gold_text (w : world) : string := default "" (gold w).

(** The names of the diagnostic files of sentence [i]. *)
Definition diagnostic_names (i : Z) : list string :=
  [exception_name i; json_name i; conllu_name i; val_name i].


(** The sentence a call was made for. *)
Definition call_idx (c : call) : Z :=
  match c with
  | CallAnnotate idx _ _ => idx
  | CallValidate idx _ => idx
  end.

(** The text one commit appends: header, sentence text, Record and the
    blank line. *)
Definition block (commit : Z * string * string) : string :=
  let '(i, sent, conllu_str) := commit in
  "# sent_id = auto-" +:+ Py.str_of_int i +:+ Py.nl +:+
  "# text = " +:+ sent +:+ Py.nl +:+ conllu_str +:+ Py.nl.

Fixpoint blocks (commits : list (Z * string * string)) : string :=
  match commits with
  | [] => ""
  | commit :: rest => block commit +:+ blocks rest
  end.

Definition commit_idx (commit : Z * string * string) : Z := commit.1.1.

Section Vocabulary.

Variable annotate_sentence_with_llm : Z -> string -> string -> result (list token).
Variable validate_conllu : Z -> string -> result (bool * string).
Variable json_dumps : list token -> string.
Variable str_exc : exn -> string.

(** What [annotate_one_sentence] returns or raises, whatever the world. *)
Definition annotation_result (sentence : string) (idx : Z) (model : string)
  : result (bool * string * list token * string) :=
  tokens ← annotate_sentence_with_llm idx sentence (model_or_default model);
  conllu_str ← tokens_to_conllu tokens;
  '(ok, log) ← validate_conllu idx conllu_str;
  Ok (ok, conllu_str, tokens, log).

(** The calls [annotate_one_sentence] makes: the service, then the
    validator once the reply has been converted. *)
Definition calls_made (sentence : string) (idx : Z) (model : string)
  : list call :=
  CallAnnotate idx sentence (model_or_default model) ::
  match annotate_sentence_with_llm idx sentence (model_or_default model) with
  | Ok tokens =>
      match tokens_to_conllu tokens with
      | Ok conllu_str => [CallValidate idx conllu_str]
      | Raise _ => []
      end
  | Raise _ => []
  end.

(** Over a stretch of the input the loop has passed without [break]:
    the commits it made and the calls it made. *)
Definition commits_of (start_from : Z) (model : string)
    (items : list (Z * string)) : list (Z * string * string) :=
  omap (fun '(i, sent) =>
          if i <? start_from then None
          else match annotation_result sent i model with
               | Ok (true, conllu_str, _, _) => Some (i, sent, conllu_str)
               | _ => None
               end) items.

Definition calls_of (start_from : Z) (model : string)
    (items : list (Z * string)) : list call :=
  flat_map (fun '(i, sent) =>
              if i <? start_from then [] else calls_made sent i model) items.

(** The Record of a commit is the conversion of the service's reply for
    that sentence, and the validator passed it. *)
Definition passed_validation (model : string) (commit : Z * string * string)
  : Prop :=
  let '(i, sent, conllu_str) := commit in
  exists tokens log,
    annotate_sentence_with_llm i sent (model_or_default model) = Ok tokens
    /\ tokens_to_conllu tokens = Ok conllu_str
    /\ validate_conllu i conllu_str = Ok (true, log).

(** The loop of [main] cut after [n] sentences of the input: the world
    at that point of the run, and whether the loop has left by [break]. *)
Definition run_upto (n : nat) (override : option Z) (model : string)
    (content : string) (w : world) : ctl * world :=
  for_loop annotate_sentence_with_llm validate_conllu json_dumps str_exc
    (resolve_start override (gold w)) model
    (take n (enumerate 1 (read_sentences content))) (open_append w).

(** The run commits sentence [i] in the world [w]: the loop reaches
    that sentence without [break], with the world [w], and the
    sentence is annotated, converted and passed by the validator. *)
Definition commits_at (override : option Z) (model : string) (content : string)
    (gold0 : option string) (i : Z) (w : world) : Prop :=
  exists n sent conllu_str tokens log,
    run_upto n override model content (initial_world gold0) = (Next, w)
    /\ enumerate 1 (read_sentences content) !! n = Some (i, sent)
    /\ resolve_start override gold0 <= i
    /\ annotation_result sent i model = Ok (true, conllu_str, tokens, log).

(** The commit-identifier claim the way it is worded: whenever the run
    commits sentence [i] in a world [w], [i] is one more than the
    greatest header number of the Corpus of [w]. *)
Definition commit_ids_follow_corpus (override : option Z) (model : string)
    (content : string) (gold0 : option string) : Prop :=
  forall i w,
    commits_at override model content gold0 i w ->
    i = get_last_processed_index (gold w) + 1.

End Vocabulary.

(** ** A small run

    Four sentences; the service answers every sentence with the single
    token [kitob], except the fourth, for which it raises; the
    validator passes every Record except that of the third sentence. *)
Definition four_sentences : string :=
  "Kitob" +:+ Py.nl +:+ "  Ikki kitob " +:+ Py.nl +:+ Py.nl +:+
  "Uch kitob" +:+ Py.nl +:+ "To'rt kitob".

Definition demo_service (idx : Z) (sentence model : string)
  : result (list token) :=
  if idx =? 4 then Raise (AdapterError "timeout") else Ok [kitob].

Definition demo_validator (idx : Z) (conllu_str : string)
  : result (bool * string) :=
  Ok (negb (idx =? 3), "validator log").

(** A service whose token carries a header line inside its surface
    form. *)
Definition smuggling_service (idx : Z) (sentence model : string)
  : result (list token) :=
  Ok [ {[ "ID" := VInt 1;
          "FORM" := VStr ("x" +:+ Py.nl +:+ "# sent_id = auto-9" +:+ Py.nl) ]} ].

(** The same validator, which also fails every Record holding a line
    the resolver reads as a header. *)
Definition strict_validator (idx : Z) (conllu_str : string)
  : result (bool * string) :=
  Ok (bool_decide (header_values (Some conllu_str) = []) && negb (idx =? 3),
      "validator log").

Definition demo_json (tokens : list token) : string := "[...]".

Definition demo_str_exc (e : exn) : string :=
  match e with
  | AdapterError detail => detail
  | _ => "error"
  end.

Definition demo_main (override : option Z) (gold0 : option string) : world :=
  match main demo_service demo_validator demo_json demo_str_exc
             override "" (Some four_sentences) (initial_world gold0) with
  | Ok w => w
  | Raise _ => initial_world gold0
  end.

(** * Vocabulary of the further properties *)

(** ** The Record Converter *)

(** The keys [tokens_to_conllu] reads. *)
Definition converter_keys : list string :=
  ["ID"; "FORM"; "LEMMA"; "UPOS"; "HEAD ID"; "DEPREL"].

Definition same_fields (t t' : token) : Prop :=
  forall key, key ∈ converter_keys -> t !! key = t' !! key.

Definition no_tab_char (c : ascii) : bool := negb (Ascii.eqb c Py.TAB).

(** The four texts a token brings into its line. *)
Definition token_texts (t : token) : list string :=
  let form := py_str (get t "FORM" VNone) in
  [form; py_str (get t "LEMMA" (VStr (Py.lower form)));
   py_str (get t "UPOS" (VStr "X")); py_str (get t "DEPREL" (VStr "dep"))].

(** A token none of whose texts holds a line break. *)
Definition plain_token (t : token) : Prop :=
  Forall (fun s => str_all no_break_char s = true) (token_texts t).

(** The text of some lines, each followed by its newline. *)
Fixpoint lines_text (lines : list string) : string :=
  match lines with
  | [] => ""
  | line :: rest => (line +:+ Py.nl) +:+ lines_text rest
  end.

(** The ten columns of the line of a token whose position and head
    were read as [tid] and [head_id]. *)
Definition columns (t : token) (tid head_id : Z) : list string :=
  [Py.str_of_int tid; py_str (get t "FORM" VNone);
   py_str (get t "LEMMA" (VStr (Py.lower (py_str (get t "FORM" VNone)))));
   py_str (get t "UPOS" (VStr "X")); "_"; "_";
   Py.str_of_int head_id; py_str (get t "DEPREL" (VStr "dep")); "_"; "_"].


(** ** The Checkpoint Resolver and the sentence file *)

(** A sentence as [read_sentences] returns them: not empty, without
    white space at either end, without a line break of [splitlines]. *)
Definition clean_sentence (s : string) : Prop :=
  s <> "" /\ Py.strip s = s /\ str_all not_linebreak s = true.

(** The content of [data/raw/uz_sentences.txt] as the sampling script
    writes it ([scripts/sample_wiki_sentences.py], the last loop of
    [sample_sentences]): [f.write(s + "\n")] for each sentence. *)
Fixpoint write_sentences (all_sentences : list string) : string :=
  match all_sentences with
  | [] => ""
  | s :: rest => (s +:+ Py.nl) +:+ write_sentences rest
  end.

(** ** The Pipeline Orchestrator *)

(** The [n] sentences from index [start_from] on, with their indices. *)
Definition window (start_from : Z) (n : nat) (sentences : list string)
  : list (Z * string) :=
  enumerate start_from (take n (drop (Z.to_nat (start_from - 1)) sentences)).

(** ** The validator adapter ([uzudt/validator.py]) *)

Module Validator.

(** What [subprocess.run(cmd, capture_output=True, text=True)] returns:
    the exit status and the two captured texts. *)
Record completed_process : Type := CompletedProcess {
  returncode : Z;
  stdout : string;
  stderr : string
}.

Section Adapter.

(** The outside of one call: the path of [tools/ud-tools/validate.py]
    as a string and whether that file exists, the name of the temporary
    file, and what running the command gives when the temporary file
    holds [content] (it may raise, for instance when there is no
    [python] to run). *)
Variable validate_py : string.
Variable validate_py_exists : bool.
Variable tmp_path : string.
Variable subprocess_run : list string -> string -> result completed_process.

Definition get_validate_script_path : result string :=
  if negb validate_py_exists then Raise (FileNotFoundError validate_py)
  else Ok validate_py.

(** [validate_conllu(conllu_str, lang, level)]; [stdout or ""] is
    [stdout] on a string. *)
Definition validate_conllu (conllu_str lang : string) (level : Z)
  : result (bool * string) :=
  validate_py ← get_validate_script_path;
  let cmd :=
    ["python"; validate_py; "--lang=" +:+ lang;
     "--level=" +:+ Py.str_of_int level; tmp_path] in
  result ← subprocess_run cmd conllu_str;
  let ok := returncode result =? 0 in
  let log := (stdout result +:+ Py.nl) +:+ stderr result in
  Ok (ok, log).

End Adapter.

(** The command line of a call made by the orchestrator. *)
Definition command (validate_py tmp_path : string) : list string :=
  ["python"; validate_py; "--lang=uz"; "--level=2"; tmp_path].

End Validator.

(** The adapter as [annotate_one_sentence] calls it,
    [validate_conllu(conllu_str, lang="uz", level=2)], the outside of
    each call being that of the sentence the call is made for. *)
Definition validator_of (validate_py : string) (validate_py_exists : Z -> bool)
    (tmp_path : Z -> string)
    (subprocess_run : Z -> list string -> string
                      -> result Validator.completed_process)
  : Z -> string -> result (bool * string) :=
  fun idx conllu_str =>
    Validator.validate_conllu validate_py (validate_py_exists idx)
      (tmp_path idx) (subprocess_run idx) conllu_str "uz" 2.

(** ** Small runs *)

(** The small run with the validator that fails a Record holding a
    header line; it stops at the third sentence. *)
Definition strict_run : world :=
  match main demo_service strict_validator demo_json demo_str_exc
             None "" (Some four_sentences) (initial_world None) with
  | Ok w => w
  | Raise _ => initial_world None
  end.

(** An outside where [validate.py] is present and the validator
    process prints a warning and exits with status 0, except for the
    third sentence, where it exits with status 1. *)
Definition demo_process (idx : Z) (cmd : list string) (content : string)
  : result Validator.completed_process :=
  Ok (Validator.CompletedProcess (if idx =? 3 then 1 else 0)
        "*** PASSED ***" "warning").

Definition demo_tmp (idx : Z) : string := "/tmp/tmp" +:+ Py.str_of_int idx +:+ ".conllu".

(** ** The sampling script ([scripts/sample_wiki_sentences.py]) *)

Module Sampling.

Definition MIN_TOKENS : Z := 5.
Definition MAX_TOKENS : Z := 35.

(** [sent.split()]: the maximal runs of characters that are no white
    space.  [cur] holds the run read so far, reversed. *)
Fixpoint split_ws_go (cur : string) (s : string) : list string :=
  match s with
  | EmptyString => if decide (cur = "") then [] else [String.rev cur]
  | String c s' =>
      if Py.isspace c
      then (if decide (cur = "") then split_ws_go "" s'
            else String.rev cur :: split_ws_go "" s')
      else split_ws_go (String c cur) s'
  end.

Definition split_ws (s : string) : list string := split_ws_go "" s.

(** The character class of the pattern of [sentence_ok]:
    full stop, comma, exclamation mark, question mark, colon,
    semicolon, hyphen and the two parentheses. *)
Definition punctuation (c : ascii) : bool :=
  bool_decide (c ∈ ["."; ","; "!"; "?"; ":"; ";"; "-"; "("; ")"]%char).

(** What may follow the first character of a match of the pattern:
    more characters of the class, then the end of the string or one
    newline and the end of the string (Python's dollar sign). *)
Fixpoint class_run_to_end (s : string) : bool :=
  match s with
  | EmptyString => true
  | String c s' =>
      if punctuation c then class_run_to_end s'
      else Ascii.eqb c Py.LF && bool_decide (s' = "")
  end.

(** [re.match] of the pattern of [sentence_ok] on [sent] finds a match. *)
Definition only_punctuation (sent : string) : bool :=
  match sent with
  | EmptyString => false
  | String c s' => punctuation c && class_run_to_end s'
  end.

Definition sentence_ok (sent : string) : bool :=
  let tokens := split_ws sent in
  let n := Z.of_nat (length tokens) in
  if (n <? MIN_TOKENS) || (n >? MAX_TOKENS) then false
  else if only_punctuation sent then false
  else true.

(** [build_title_to_categories]: [title_to_cats] is a [defaultdict(set)],
    [cat_to_articles.get(cat, [])] an empty list for a missing key. *)
Definition add_category (cat : string) (title_to_cats : gmap string (gset string))
    (title : string) : gmap string (gset string) :=
  <[title := default ∅ (title_to_cats !! title) ∪ {[cat]}]> title_to_cats.

Definition build_title_to_categories
    (cat_to_articles : gmap string (list string))
    (target_categories : list string) : gmap string (gset string) :=
  foldl (fun title_to_cats cat =>
           let articles := default [] (cat_to_articles !! cat) in
           foldl (add_category cat) title_to_cats articles)
        ∅ target_categories.

(** The deduplication loop of [sample_sentences]: [seen] is the set of
    the sentences met, [deduped] the list built. *)
Fixpoint dedupe_loop (sentences : list string) (seen : gset string)
    (deduped : list string) : list string :=
  match sentences with
  | [] => deduped
  | s :: rest =>
      if decide (s ∈ seen) then dedupe_loop rest seen deduped
      else dedupe_loop rest (seen ∪ {[s]}) (deduped ++ [s])
  end.

Definition dedupe (sentences : list string) : list string :=
  dedupe_loop sentences ∅ [].

(** [cat_sentences[cat]] *)
Definition getitem_list (d : gmap string (list string)) (key : string)
  : result (list string) :=
  match d !! key with
  | Some v => Ok v
  | None => Raise (KeyError key)
  end.

(** The loop over the target categories that writes the file of each
    category and gathers [all_sentences]; [cat_sentences[cat]] raises
    [KeyError] for a category that is no key.  Returns the lines of the
    files written, by category in the order written, and
    [all_sentences]. *)
Fixpoint write_categories (target_categories : list string)
    (cat_sentences : gmap string (list string))
    (files : list (string * list string)) (all_sentences : list string)
  : result (list (string * list string) * list string) :=
  match target_categories with
  | [] => Ok (files, all_sentences)
  | cat :: rest =>
      sentences ← getitem_list cat_sentences cat;
      let sentences := dedupe sentences in
      write_categories rest cat_sentences
        (files ++ [(cat, sentences)]) (all_sentences ++ sentences)
  end.

End Sampling.

(** ** The metadata script ([scripts/build_wiki_metadata.py]) *)

Module Metadata.

(** [category_to_articles[cat].append(title)] on a [defaultdict(list)]. *)
Definition append_title (title : string)
    (category_to_articles : gmap string (list string)) (cat : string)
  : gmap string (list string) :=
  <[cat := default [] (category_to_articles !! cat) ++ [title]]>
    category_to_articles.

(** [build_category_to_articles]: [cat_links] is given by its items, in
    the order the loop meets them; [not title] holds for a missing page
    and for an empty title. *)
Definition build_category_to_articles (page_map : gmap Z string)
    (cat_links : list (Z * list string)) : gmap string (list string) :=
  foldl (fun category_to_articles '(page_id, cats) =>
           match page_map !! page_id with
           | None => category_to_articles
           | Some title =>
               if decide (title = "") then category_to_articles
               else foldl (append_title title) category_to_articles cats
           end)
        ∅ cat_links.

End Metadata.

(** * The converter on texts with tabs and line breaks *)



Definition line_feed_form : token :=
  {[ "ID" := VInt 1; "FORM" := VStr ("a" +:+ Py.nl +:+ "b") ]}.


(** The output-shape claim the way it is worded: a sequence that
    converts gives one line per token. *)
Definition one_line_per_token : Prop :=
  forall tokens out,
    tokens <> [] -> tokens_to_conllu tokens = Ok out ->
    length (corpus_lines out) = length tokens.

(** * The run, write by write *)

(** [p] is a beginning of [s]. *)
Definition string_prefix (p s : string) : Prop := exists rest, s = p +:+ rest.

(** What stands of the block of a commit between the four writes of the
    commit: the header, the header and the text line, or these and the
    Record. *)
Definition block_beginning (commit : Z * string * string) (part : string)
  : Prop :=
  let '(i, sent, conllu_str) := commit in
  let header := "# sent_id = auto-" +:+ Py.str_of_int i +:+ Py.nl in
  let text := "# text = " +:+ sent +:+ Py.nl in
  part = header \/ part = header +:+ text
  \/ part = header +:+ text +:+ conllu_str.

Section Steps.

Variable annotate_sentence_with_llm : Z -> string -> string -> result (list token).
Variable validate_conllu : Z -> string -> result (bool * string).
Variable json_dumps : list token -> string.
Variable str_exc : exn -> string.

(** The worlds a commit passes through, one after each of its four
    [gold_out.write] calls.  [gold] is here the text written to the
    Corpus so far; writes are buffered, so the file holds a beginning
    of it until the file is closed. *)
Definition append_block_steps (i : Z) (sent conllu_str : string) (w : world)
  : list world :=
  let w1 := gold_write ("# sent_id = auto-" +:+ Py.str_of_int i +:+ Py.nl) w in
  let w2 := gold_write ("# text = " +:+ sent +:+ Py.nl) w1 in
  let w3 := gold_write conllu_str w2 in
  let w4 := gold_write Py.nl w3 in
  [w1; w2; w3; w4].

(** The worlds the body of the loop passes through, in order: after
    [annotate_one_sentence], then after each write.  A skipped sentence
    passes through none. *)
Definition loop_body_steps (start_from : Z) (model : string) (item : Z * string)
    (w : world) : ctl * list world :=
  let '(i, sent) := item in
  if i <? start_from then (Next, [])
  else
    match annotate_one_sentence annotate_sentence_with_llm validate_conllu
            sent i model w with
    | (Raise e, w) =>
        (Break,
         [w; write_text (exception_name i) (exception_report str_exc i sent e) w])
    | (Ok (ok, conllu_str, tokens, v_log), w) =>
        if ok : bool then (Next, w :: append_block_steps i sent conllu_str w)
        else
          let w1 := write_text (json_name i) (json_dumps tokens) w in
          let w2 := write_text (conllu_name i) conllu_str w1 in
          let w3 := write_text (val_name i) v_log w2 in
          (Break, [w; w1; w2; w3])
    end.

Fixpoint for_loop_steps (start_from : Z) (model : string)
    (items : list (Z * string)) (w : world) : list world :=
  match items with
  | [] => []
  | item :: rest =>
      match loop_body_steps start_from model item w with
      | (Break, ws) => ws
      | (Next, ws) => ws ++ for_loop_steps start_from model rest (List.last ws w)
      end
  end.

(** The worlds [main] passes through, the first being the world it
    starts from. *)
Definition main_steps (override : option Z) (model : string)
    (raw : option string) (w : world) : result (list world) :=
  match raw with
  | None => Raise (FileNotFoundError "data/raw/uz_sentences.txt")
  | Some content =>
      let sentences := read_sentences content in
      let total := Z.of_nat (length sentences) in
      let start_from := resolve_start override (gold w) in
      if start_from >? total then Ok [w]
      else
        let w0 := open_append w in
        Ok (w :: w0 :: for_loop_steps start_from model (enumerate 1 sentences) w0)
  end.

(** The text written to the Corpus is the text [g] followed by whole
    blocks, each of a Record the validator passed. *)
Definition whole_blocks (model : string) (g : string) (w : world) : Prop :=
  exists cs,
    gold_text w = g +:+ blocks cs
    /\ Forall (passed_validation annotate_sentence_with_llm validate_conllu model)
              cs.

(** The same, followed by what stands of the block of one more commit
    between its writes, the Record of that commit being passed too. *)
Definition blocks_and_beginning (model : string) (g : string) (w : world)
  : Prop :=
  exists cs c part,
    gold_text w = g +:+ blocks cs +:+ part
    /\ Forall (passed_validation annotate_sentence_with_llm validate_conllu model)
              (cs ++ [c])
    /\ block_beginning c part.

(** The validation invariant the way it is worded: at every point of a
    run the Corpus holds whole blocks of passed Records only. *)
Definition validated_at_every_point (override : option Z) (model : string)
    (content : string) (gold0 : option string) : Prop :=
  forall ws,
    main_steps override model (Some content) (initial_world gold0) = Ok ws ->
    Forall (whole_blocks model (default "" gold0)) ws.

End Steps.
(** * Properties *)

(** ** The Record Converter *)


Lemma has_key_true (t : token) key : has_key t key = true <-> is_Some (t !! key).
Proof. unfold has_key. apply bool_decide_eq_true. Qed.

Lemma has_key_false (t : token) key : has_key t key = false <-> t !! key = None.
Proof.
  unfold has_key. rewrite bool_decide_eq_false, eq_None_not_Some. done.
Qed.

Lemma lacks_not_both (t : token) : lacks_field t <-> ~ carries_both t.
Proof.
  unfold lacks_field, carries_both. rewrite <- !not_eq_None_Some.
  destruct (t !! "ID"), (t !! "FORM"); intuition congruence.
Qed.

Lemma py_int_raise v e : py_int v = Raise e -> e = IntConversion v.
Proof.
  destruct v as [| b | n | s | [n|] s]; simpl; try case_match; congruence.
Qed.

Lemma token_line_lacks (t : token) :
  lacks_field t -> token_line t = Raise (TokenMissingField t).
Proof.
  intros [H | H]; apply has_key_false in H; unfold token_line; rewrite H;
    [done | by rewrite orb_true_r].
Qed.

Lemma token_line_both (t : token) vid vform :
  t !! "ID" = Some vid -> t !! "FORM" = Some vform ->
  token_line t =
    tid ← py_int vid;
    head_id ← py_int (get t "HEAD ID" (VInt 0));
    Ok (Py.join Py.tab
          [Py.str_of_int tid; py_str vform;
           py_str (get t "LEMMA" (VStr (Py.lower (py_str vform))));
           py_str (get t "UPOS" (VStr "X")); "_"; "_";
           Py.str_of_int head_id; py_str (get t "DEPREL" (VStr "dep"));
           "_"; "_"]).
Proof.
  intros Hid Hform. unfold token_line.
  assert (has_key t "ID" = true) as -> by (apply has_key_true; eauto).
  assert (has_key t "FORM" = true) as -> by (apply has_key_true; eauto).
  unfold getitem. rewrite Hid, Hform. simpl.
  destruct (py_int vid); simpl; [|done].
  destruct (py_int _); done.
Qed.

Lemma token_line_missing_inv (t u : token) :
  token_line t = Raise (TokenMissingField u) -> lacks_field t.
Proof.
  intros H. apply lacks_not_both. intros [[vid Hid] [vform Hform]].
  rewrite (token_line_both _ _ _ Hid Hform) in H.
  destruct (py_int vid) eqn:E1; simpl in H;
    [|apply py_int_raise in E1; congruence].
  destruct (py_int (get t "HEAD ID" (VInt 0))) eqn:E2; simpl in H;
    [discriminate|apply py_int_raise in E2; congruence].
Qed.

Lemma converts_carries_both (t : token) : converts t -> carries_both t.
Proof.
  intros [line H]. destruct (decide (carries_both t)) as [|Hn]; [done|].
  apply lacks_not_both in Hn. rewrite (token_line_lacks _ Hn) in H. done.
Qed.

(** The loop appends one line per token, in order, and stops at the
    first token whose line raises. *)
Lemma convert_loop_ok tokens lines out :
  convert_loop tokens lines = Ok out <->
  exists ls, Forall2 (fun t l => token_line t = Ok l) tokens ls /\ out = lines ++ ls.
Proof.
  revert lines out. induction tokens as [|t tokens IH]; intros lines out; simpl.
  - split.
    + intros [= <-]. exists []. by rewrite app_nil_r.
    + intros (ls & Hls & ->). inversion Hls. by rewrite app_nil_r.
  - destruct (token_line t) as [l|e] eqn:Ht; simpl.
    + rewrite IH. split.
      * intros (ls & Hls & ->). exists (l :: ls). split; [by constructor|].
        by rewrite <- app_assoc.
      * intros (ls & Hls & ->). inversion Hls as [|? l' ? ls' Hl ?]; subst.
        exists ls'. split; [done|]. rewrite Ht in Hl. injection Hl as <-.
        by rewrite <- app_assoc.
    + split; [done|]. intros (ls & Hls & _).
      inversion Hls as [|? ? ? ? Hl]; subst. by rewrite Ht in Hl.
Qed.

Lemma convert_loop_raise tokens lines e :
  convert_loop tokens lines = Raise e <->
  exists pre t post, tokens = pre ++ t :: post /\ Forall converts pre /\
                     token_line t = Raise e.
Proof.
  revert lines. induction tokens as [|t tokens IH]; intros lines; simpl.
  - split; [done|]. intros (pre & ? & ? & H & _). by destruct pre.
  - destruct (token_line t) as [l|e'] eqn:Ht; simpl.
    + rewrite IH. split.
      * intros (pre & u & post & -> & Hpre & Hu).
        exists (t :: pre), u, post. repeat split; [|done].
        constructor; [by exists l|done].
      * intros (pre & u & post & Heq & Hpre & Hu).
        destruct pre as [|t' pre']; simplify_eq/=; [congruence|].
        apply Forall_cons in Hpre as [_ Hpre]. by exists pre', u, post.
    + split.
      * intros [= ->]. by exists [], t, tokens.
      * intros (pre & u & post & Heq & Hpre & Hu).
        destruct pre as [|t' pre']; simplify_eq/=; [congruence|].
        apply Forall_cons in Hpre as [[? Hc] _]. by rewrite Ht in Hc.
Qed.

Lemma token_lines_unique tokens ls1 ls2 :
  Forall2 (fun t l => token_line t = Ok l) tokens ls1 ->
  Forall2 (fun t l => token_line t = Ok l) tokens ls2 -> ls1 = ls2.
Proof.
  intros H1. revert ls2.
  induction H1 as [|t l1 ts ls1 Hl1 _ IH]; intros ls2 H2.
  - by apply Forall2_nil_inv_l in H2.
  - apply Forall2_cons_inv_l in H2 as (l2 & ls2' & Hl2 & H2 & ->).
    f_equal; [congruence|by apply IH].
Qed.

Lemma tokens_to_conllu_ok tokens out :
  tokens_to_conllu tokens = Ok out <->
  exists ls, Forall2 (fun t l => token_line t = Ok l) tokens ls /\
             out = Py.join Py.nl ls +:+ Py.nl.
Proof.
  unfold tokens_to_conllu.
  destruct (convert_loop tokens []) as [ls|e] eqn:H; simpl.
  - apply convert_loop_ok in H as (ls' & Hls & ->). simpl. split.
    + intros [= <-]. eauto.
    + intros (ls2 & Hls2 & ->). do 3 f_equal.
      eapply token_lines_unique; eauto.
  - split; [done|]. intros (ls & Hls & _).
    assert (convert_loop tokens [] = Ok ([] ++ ls)) as Hok
      by (apply convert_loop_ok; eauto).
    congruence.
Qed.

Lemma tokens_to_conllu_raise tokens e :
  tokens_to_conllu tokens = Raise e <->
  exists pre t post, tokens = pre ++ t :: post /\ Forall converts pre /\
                     token_line t = Raise e.
Proof.
  rewrite <- (convert_loop_raise tokens []). unfold tokens_to_conllu.
  destruct (convert_loop tokens []); simpl; split; congruence.
Qed.

(** A token whose line raises makes the whole conversion raise: at that
    token, or at an earlier one. *)
Lemma tokens_to_conllu_raises_at tokens t :
  t ∈ tokens -> raises (token_line t) -> raises (tokens_to_conllu tokens).
Proof.
  intros Hin Ht. destruct (tokens_to_conllu tokens) as [out|e] eqn:H;
    [|by exists e].
  apply tokens_to_conllu_ok in H as (ls & Hls & _).
  apply list_elem_of_lookup in Hin as [i Hi].
  destruct (Forall2_lookup_l _ _ _ _ _ Hls Hi) as (l & _ & Hl).
  destruct Ht as [e He]. congruence.
Qed.

(** [int()] reads back what [str()] prints. *)
Lemma pretty_char_digit d :
  (d < 10)%N ->
  Py.isdigit (pretty_N_char d) = true /\ Py.digit_val (pretty_N_char d) = Z.of_N d.
Proof.
  intros Hd.
  assert (d = 0 \/ d = 1 \/ d = 2 \/ d = 3 \/ d = 4 \/ d = 5 \/ d = 6 \/ d = 7
          \/ d = 8 \/ d = 9)%N as Hcases by lia.
  repeat (destruct Hcases as [-> | Hcases]; [by vm_compute|]).
  subst. by vm_compute.
Qed.

Lemma pretty_go_head x s :
  (0 < x)%N -> exists c r, pretty_N_go x s = String c r /\ Py.isdigit c = true.
Proof.
  revert s. induction (N.lt_wf_0 x) as [x _ IH]; intros s Hx.
  rewrite pretty_N_go_step by done.
  destruct (decide (x `div` 10 = 0)%N) as [Hz | Hnz].
  - rewrite Hz, pretty_N_go_0. eexists _, _. split; [done|].
    apply pretty_char_digit. by apply N.mod_lt.
  - apply IH; [apply N.div_lt; lia | by apply N.neq_0_lt_0].
Qed.

Lemma scan_digits_pretty_go x s seen :
  (0 < x)%N ->
  Py.scan_digits (pretty_N_go x s) false seen 0
  = Py.scan_digits s false true (Z.of_N x).
Proof.
  revert s seen. induction (N.lt_wf_0 x) as [x _ IH]; intros s seen Hx.
  rewrite pretty_N_go_step by done.
  destruct (pretty_char_digit (x `mod` 10)) as [Hdig Hval];
    [by apply N.mod_lt|].
  assert (Z.of_N x = 10 * Z.of_N (x `div` 10) + Z.of_N (x `mod` 10)) as Hx10.
  { rewrite (N.div_mod x 10) at 1 by done. lia. }
  destruct (decide (x `div` 10 = 0)%N) as [Hz | Hnz].
  - rewrite Hz in *. rewrite pretty_N_go_0. simpl.
    rewrite Hdig, Hval, Hx10. done.
  - assert (x `div` 10 < x)%N by (apply N.div_lt; lia).
    rewrite IH by (done || by apply N.neq_0_lt_0). simpl.
    rewrite Hdig, Hval, Hx10. done.
Qed.

Lemma isdigit_not_special c :
  Py.isdigit c = true ->
  Py.isspace_c c = false /\ Ascii.eqb c "+" = false /\
  Ascii.eqb c "-" = false /\ Ascii.eqb c "_" = false.
Proof.
  unfold Py.isdigit, Py.isspace_c, Py.code. intros H.
  apply andb_true_iff in H as [H1%N.leb_le H2%N.leb_le].
  repeat split.
  - apply orb_false_iff. split.
    + apply andb_false_iff. right. apply N.leb_gt. lia.
    + apply N.eqb_neq. lia.
  - apply Ascii.eqb_neq. intros ->. by destruct H1.
  - apply Ascii.eqb_neq. intros ->. by destruct H1.
  - apply Ascii.eqb_neq. intros ->. by destruct H2.
Qed.


Lemma int_of_str_digit_head c r :
  Py.isdigit c = true ->
  Py.int_of_str (String c r) = finish_int 1 (String c r)
  /\ Py.int_of_str (String "-" (String c r)) = finish_int (-1) (String c r).
Proof.
  intros Hc. destruct (isdigit_not_special c Hc) as (Hsp & Hplus & Hminus & Hus).
  rewrite Ascii.eqb_sym in Hus.
  unfold Py.int_of_str, finish_int. split.
  - cbn -[Ascii.eqb Py.scan_digits Z.mul]. rewrite Hsp, Hplus, Hminus.
    cbn -[Ascii.eqb Py.scan_digits Z.mul]. by rewrite Hus.
  - cbn -[Ascii.eqb Py.scan_digits Z.mul Py.isspace_c].
    change (Py.isspace_c "-") with false.
    cbn -[Ascii.eqb Py.scan_digits Z.mul].
    change ("-" =? "+")%char with false. change ("-" =? "-")%char with true.
    cbn -[Ascii.eqb Py.scan_digits Z.mul]. by rewrite Hus.
Qed.

Lemma int_of_pretty_pos p :
  Py.int_of_str (pretty (N.pos p)) = Some (Z.pos p)
  /\ Py.int_of_str ("-" +:+ pretty (N.pos p)) = Some (Z.neg p).
Proof.
  assert (pretty (N.pos p) = pretty_N_go (N.pos p) "") as -> by done.
  destruct (pretty_go_head (N.pos p) "") as (c & r & Hcr & Hc); [lia|].
  pose proof (scan_digits_pretty_go (N.pos p) "" false) as Hscan.
  rewrite Hcr in *.
  destruct (int_of_str_digit_head c r Hc) as [-> Hneg].
  change ("-" +:+ String c r) with (String "-" (String c r)). rewrite Hneg.
  unfold finish_int. rewrite Hscan by lia. simpl. done.
Qed.

Lemma int_of_str_of_int n : Py.int_of_str (Py.str_of_int n) = Some n.
Proof.
  destruct n as [|p|p]; [done|apply int_of_pretty_pos..].
Qed.


(** C7, the claim as worded fails: on [none_then_formless] the second
    element lacks its surface form, yet the conversion stops at the
    first element, whose position [int()] refuses, and the error raised
    is that of [int(None)], not the missing-field error. *)
Lemma missing_field_error_not_always :
  tokens_to_conllu none_then_formless = Raise (IntConversion VNone)
  /\ ~ fails_with_missing_field none_then_formless.
Proof.
  split; [by vm_compute|].
  intros H. destruct H as [t Ht].
  - exists {[ "ID" := VInt 2 ]}. split.
    + apply list_elem_of_further, list_elem_of_here.
    + right. by vm_compute.
  - vm_compute in Ht. discriminate.
Qed.

(** Where the error of a sequence with an element lacking a field comes
    from. *)
Lemma raise_origin (tokens : list token) e :
  (exists t, t ∈ tokens /\ lacks_field t) ->
  tokens_to_conllu tokens = Raise e ->
  exists pre t post,
    tokens = pre ++ t :: post /\ Forall converts pre
    /\ ((lacks_field t /\ e = TokenMissingField t)
        \/ (carries_both t
            /\ Forall carries_both pre
            /\ (exists u, u ∈ post /\ lacks_field u)
            /\ exists v,
                 e = IntConversion v
                 /\ (t !! "ID" = Some v \/ v = get t "HEAD ID" (VInt 0)))).
Proof.
  intros (u & Hu & Hlack) Hr.
  apply tokens_to_conllu_raise in Hr as (pre & t & post & -> & Hpre & Ht).
  exists pre, t, post. split; [done|]. split; [done|].
  destruct (decide (carries_both t)) as [Hboth|Hn].
  - right. split; [done|].
    assert (Forall carries_both pre) as Hpre_both
      by (eapply Forall_impl; [exact Hpre|apply converts_carries_both]).
    split; [done|]. split.
    + exists u. split; [|done].
      apply elem_of_app in Hu as [Hu|Hu].
      * rewrite Forall_forall in Hpre_both.
        by destruct (proj1 (lacks_not_both u) Hlack (Hpre_both u Hu)).
      * apply elem_of_cons in Hu as [->|Hu]; [|done].
        by destruct (proj1 (lacks_not_both t) Hlack).
    + destruct Hboth as [[vid Hid] [vform Hform]].
      rewrite (token_line_both _ _ _ Hid Hform) in Ht.
      destruct (py_int vid) as [tid|e1] eqn:Hvid; simpl in Ht.
      * destruct (py_int (get t "HEAD ID" (VInt 0))) as [h|e2] eqn:Hhead;
          simpl in Ht; [done|].
        injection Ht as <-. apply py_int_raise in Hhead as ->.
        eexists. split; [done|]. by right.
      * injection Ht as <-. apply py_int_raise in Hvid as ->.
        eexists. split; [done|]. by left.
  - left. apply lacks_not_both in Hn. split; [done|].
    rewrite (token_line_lacks _ Hn) in Ht. by injection Ht as <-.
Qed.

(** C7 (amended): whenever some element lacks the position or the
    surface form the conversion raises and returns no text at all; the
    exception is the missing-field error of the first such element
    provided every element before it converts; otherwise it is the
    [int()] error of an element that comes before every element lacking
    a field and carries both fields, raised on its position or on its
    head; and a sequence whose elements all carry both fields never
    raises the missing-field error. *)
Theorem missing_field_failure (tokens : list token) :
  ((exists t, t ∈ tokens /\ lacks_field t) ->
     raises (tokens_to_conllu tokens)
     /\ forall out, tokens_to_conllu tokens <> Ok out)
  /\ (forall pre t post,
        tokens = pre ++ t :: post -> Forall converts pre -> lacks_field t ->
        tokens_to_conllu tokens = Raise (TokenMissingField t))
  /\ (forall e,
        (exists t, t ∈ tokens /\ lacks_field t) ->
        tokens_to_conllu tokens = Raise e ->
        exists pre t post,
          tokens = pre ++ t :: post /\ Forall converts pre
          /\ ((lacks_field t /\ e = TokenMissingField t)
              \/ (carries_both t
                  /\ Forall carries_both pre
                  /\ (exists u, u ∈ post /\ lacks_field u)
                  /\ exists v,
                       e = IntConversion v
                       /\ (t !! "ID" = Some v
                           \/ v = get t "HEAD ID" (VInt 0)))))
  /\ (Forall carries_both tokens ->
        forall t, tokens_to_conllu tokens <> Raise (TokenMissingField t)).
Proof.
  split; [|split; [|split]].
  - intros (t & Hin & Hlack).
    assert (raises (tokens_to_conllu tokens)) as Hr.
    { eapply tokens_to_conllu_raises_at; [done|].
      eexists. by apply token_line_lacks. }
    split; [done|]. destruct Hr as [e ->]. done.
  - intros pre t post -> Hpre Hlack. apply tokens_to_conllu_raise.
    exists pre, t, post. eauto using token_line_lacks.
  - intros e. apply raise_origin.
  - intros Hall t Hr.
    apply tokens_to_conllu_raise in Hr as (pre & u & post & -> & _ & Hu).
    apply token_line_missing_inv in Hu. apply lacks_not_both in Hu.
    apply Hu. rewrite Forall_app, Forall_cons in Hall. tauto.
Qed.

Lemma missing_field_failure_witness :
  let tokens := [kitob; {[ "ID" := VInt 2 ]}] in
  tokens_to_conllu tokens = Raise (TokenMissingField {[ "ID" := VInt 2 ]})
  /\ raises (tokens_to_conllu tokens)
  /\ (forall t, tokens_to_conllu [kitob] <> Raise (TokenMissingField t))
  /\ exists pre t post,
       none_then_formless = pre ++ t :: post /\ Forall converts pre
       /\ ((lacks_field t /\ IntConversion VNone = TokenMissingField t)
           \/ (carries_both t
               /\ Forall carries_both pre
               /\ (exists u, u ∈ post /\ lacks_field u)
               /\ exists v,
                    IntConversion VNone = IntConversion v
                    /\ (t !! "ID" = Some v \/ v = get t "HEAD ID" (VInt 0)))).
Proof.
  intros tokens.
  destruct (missing_field_failure tokens) as (Hraise & Hfirst & _).
  destruct (missing_field_failure [kitob]) as (_ & _ & _ & Hnever).
  destruct (missing_field_failure none_then_formless) as (_ & _ & Hwhich & _).
  split; [|split; [|split]].
  - apply (Hfirst [kitob] {[ "ID" := VInt 2 ]} []); [reflexivity| |].
    + constructor; [|constructor]. exists kitob_line. vm_compute. reflexivity.
    + right. vm_compute. reflexivity.
  - refine (proj1 (Hraise _)). exists {[ "ID" := VInt 2 ]}. split.
    + apply list_elem_of_further, list_elem_of_here.
    + right. vm_compute. reflexivity.
  - apply Hnever. constructor; [|constructor].
    split; eexists; vm_compute; reflexivity.
  - apply (Hwhich (IntConversion VNone)).
    + exists {[ "ID" := VInt 2 ]}. split.
      * apply list_elem_of_further, list_elem_of_here.
      * right. vm_compute. reflexivity.
    + vm_compute. reflexivity.
Defined.



(** ** The Checkpoint Resolver *)


Lemma scan_line_value line last :
  scan_line line last =
    match header_value line with
    | Some n => Z.max n last
    | None => last
    end.
Proof.
  unfold scan_line, header_value.
  destruct (Py.startswith _ _); [|done].
  destruct (Py.int_of_str _) as [n|]; [|done].
  destruct (Z.gtb_spec n last); lia.
Qed.

Lemma foldr_max_init n last (ns : list Z) :
  foldr Z.max (Z.max n last) ns = Z.max n (foldr Z.max last ns).
Proof. induction ns as [|m ns IH]; [done|]. cbn [foldr]. rewrite IH. lia. Qed.

Lemma scan_lines_max lines last :
  scan_lines lines last = foldr Z.max last (omap header_value lines).
Proof.
  revert last. induction lines as [|line lines IH]; intros last; [done|].
  cbn [scan_lines omap list_omap]. rewrite IH, scan_line_value.
  destruct (header_value line) as [n|]; [|done].
  cbn [foldr]. apply foldr_max_init.
Qed.

Lemma foldr_max_bounds (ns : list Z) (z : Z) :
  z <= foldr Z.max z ns
  /\ (forall n, n ∈ ns -> n <= foldr Z.max z ns)
  /\ (foldr Z.max z ns = z \/ foldr Z.max z ns ∈ ns).
Proof.
  induction ns as [|m ns (IH1 & IH2 & IH3)]; cbn [foldr].
  - split; [lia|]. split; [|by left]. intros n Hn. by apply elem_of_nil in Hn.
  - split; [lia|]. split.
    + intros n [-> | Hn]%elem_of_cons; [lia|]. specialize (IH2 n Hn). lia.
    + destruct (Z.max_spec m (foldr Z.max z ns)) as [[_ ->] | [_ ->]].
      * destruct IH3 as [-> | IH3]; [by left|]. right. by apply list_elem_of_further.
      * right. apply list_elem_of_here.
Qed.


Lemma skip_space_c_all s :
  str_all literal_char (Py.skip_space_c s) = true -> str_all literal_char s = true.
Proof.
  induction s as [|c s IH]; [done|]. simpl.
  destruct (Py.isspace_c c) eqn:Hc; [|done].
  intros H. rewrite IH by done. unfold literal_char. by rewrite Hc.
Qed.

Lemma skip_space_c_nil s :
  Py.skip_space_c s = "" -> str_all literal_char s = true.
Proof.
  intros H. apply skip_space_c_all. by rewrite H.
Qed.

Lemma scan_digits_all s prev_us seen acc n rest :
  Py.scan_digits s prev_us seen acc = Some (n, rest) ->
  str_all literal_char rest = true -> str_all literal_char s = true.
Proof.
  revert prev_us seen acc.
  induction s as [|c s IH]; intros prev_us seen acc; simpl.
  - destruct (prev_us || negb seen); [done|]. by intros [= _ <-].
  - destruct (Py.isdigit c) eqn:Hd.
    { intros H Hrest. rewrite (IH _ _ _ H Hrest).
      unfold literal_char. rewrite Hd. by rewrite orb_true_r. }
    destruct (Ascii.eqb c "_") eqn:Hu.
    { destruct prev_us; [done|]. intros H Hrest. rewrite (IH _ _ _ H Hrest).
      unfold literal_char. rewrite Hu. by rewrite !orb_true_r. }
    destruct (prev_us || negb seen); [done|].
    intros [= _ <-]. done.
Qed.

Lemma int_of_str_chars s n :
  Py.int_of_str s = Some n -> str_all literal_char s = true.
Proof.
  unfold Py.int_of_str. intros H. apply skip_space_c_all.
  destruct (Py.skip_space_c s) as [|c r]; [done|].
  assert (forall sign s2,
             (if Py.startswith s2 "_" then None
              else match Py.scan_digits s2 false false 0 with
                   | Some (n, rest) =>
                       match Py.skip_space_c rest with
                       | EmptyString => Some (sign * n)
                       | String _ _ => None
                       end
                   | None => None
                   end) = Some n -> str_all literal_char s2 = true) as Hbody.
  { intros sign s2. destruct (Py.startswith s2 "_"); [done|].
    destruct (Py.scan_digits s2 false false 0) as [[m rest]|] eqn:Hs; [|done].
    destruct (Py.skip_space_c rest) eqn:Hr; [|done]. intros _.
    eapply scan_digits_all; [done|]. by apply skip_space_c_nil. }
  destruct (Ascii.eqb c "+") eqn:Hp.
  { apply Hbody in H. simpl. rewrite H. unfold literal_char. rewrite Hp.
    by rewrite !orb_true_r. }
  destruct (Ascii.eqb c "-") eqn:Hm.
  { apply Hbody in H. simpl. rewrite H. unfold literal_char. rewrite Hm.
    by rewrite !orb_true_r. }
  by apply Hbody in H.
Qed.

Lemma split_no_a cur s :
  str_all literal_char s = true ->
  Py.split_go "auto-" O cur s = [String.rev_app cur s].
Proof.
  revert cur. induction s as [|c s IH]; intros cur; [done|].
  cbn [str_all]. intros [Hc Hs]%andb_true_iff.
  assert (Py.startswith (String c s) "auto-" = false) as Hno.
  { cbn [Py.startswith]. destruct (Ascii.eqb_spec "a" c) as [<-|]; [|done].
    by vm_compute in Hc. }
  cbn [Py.split_go]. rewrite Hno. by rewrite IH.
Qed.

Lemma startswith_drop s p :
  Py.startswith s p = true -> s = p +:+ string_drop (String.length p) s.
Proof.
  revert s. induction p as [|a p IH]; intros s; [done|].
  destruct s as [|b s]; [done|]. cbn [Py.startswith].
  destruct (Ascii.eqb_spec a b) as [->|]; [|done].
  intros H.
  change (String b s = String b (p +:+ string_drop (String.length p) s)).
  f_equal. by apply IH.
Qed.

Lemma split_header rest :
  Py.split (header_prefix +:+ rest) "auto-"
  = "# sent_id = " :: Py.split_go "auto-" O "" rest.
Proof. reflexivity. Qed.

(** On a header line whose [N] is an integer literal the resolver reads
    that [N]. *)
Lemma header_value_of_N line n :
  header_N line = Some n -> header_value line = Some n.
Proof.
  unfold header_N, header_value.
  destruct (Py.startswith (Py.strip line) header_prefix) eqn:Hpre; [|done].
  intros Hn. rewrite (startswith_drop _ _ Hpre).
  pose proof (int_of_str_chars _ _ Hn) as Hchars.
  by rewrite split_header, split_no_a.
Qed.


(** C4: the resolver departs from the claim, and from its own
    docstring, at two inputs.  On the line [# sent_id = auto-x auto-9],
    whose N is no integer, it reads 9 instead of skipping the line,
    because it takes the text after the last "auto-"; and a Corpus whose
    only header is [# sent_id = auto--5] has greatest N = -5, where the
    resolver returns 0, because its running maximum starts at 0.
    [greatest_header_N] is the checkpoint the way the claim words it. *)
Lemma checkpoint_not_greatest_N :
  let negative := Some ("# sent_id = auto--5" +:+ Py.nl) in
  let stray := Some ("# sent_id = auto-x auto-9" +:+ Py.nl) in
  get_last_processed_index negative = 0
  /\ greatest_header_N negative = -5
  /\ get_last_processed_index stray = 9
  /\ greatest_header_N stray = 0
  /\ ~ (forall gold, get_last_processed_index gold = greatest_header_N gold).
Proof.
  repeat split; try by vm_compute.
  intros H. specialize (H (Some ("# sent_id = auto--5" +:+ Py.nl))).
  vm_compute in H. discriminate.
Qed.

(** What the resolver computes, as the code is: the greatest of 0 and
    the integers it reads on the header lines of the Corpus (so the
    maximum, not the count nor the last one, and never below 0); on a
    line [# sent_id = auto-N] with [N] an integer it reads [N]; it
    returns 0 when the file does not exist or no header can be read; a
    line it reads no integer from changes nothing. *)
Theorem checkpoint_derivation (gold : option string) :
  let r := get_last_processed_index gold in
  r = foldr Z.max 0 (header_values gold)
  /\ 0 <= r
  /\ (forall n, n ∈ header_values gold -> n <= r)
  /\ (r = 0 \/ r ∈ header_values gold)
  /\ (forall content line n,
        gold = Some content -> line ∈ corpus_lines content ->
        header_N line = Some n -> n ∈ header_values gold)
  /\ get_last_processed_index None = 0
  /\ (header_values gold = [] -> r = 0)
  /\ (forall line last, header_value line = None -> scan_line line last = last)
  /\ get_last_processed_index (Some corpus_3_1_7) = 7.
Proof.
  intros r.
  assert (r = foldr Z.max 0 (header_values gold)) as Hr.
  { unfold r, get_last_processed_index, header_values, corpus_lines.
    destruct gold; [apply scan_lines_max|done]. }
  destruct (foldr_max_bounds (header_values gold) 0) as (H0 & Hub & Hin).
  rewrite <- Hr in *.
  repeat split; try done.
  - intros content line n -> Hline Hn. unfold header_values.
    apply list_elem_of_omap. exists line. split; [done|].
    by apply header_value_of_N.
  - intros Hnil. by rewrite Hr, Hnil.
  - intros line last Hnone. by rewrite scan_line_value, Hnone.
Qed.

Lemma checkpoint_derivation_witness :
  3 <= get_last_processed_index (Some corpus_3_1_7)
  /\ 7 ∈ header_values (Some corpus_3_1_7)
  /\ get_last_processed_index (Some "# text = Kitob") = 0
  /\ scan_line "# sent_id = auto-seven" 4 = 4.
Proof.
  destruct (checkpoint_derivation (Some corpus_3_1_7))
    as (_ & _ & Hub & _ & HN & _ & _ & Hskip & _).
  destruct (checkpoint_derivation (Some "# text = Kitob"))
    as (_ & _ & _ & _ & _ & _ & Hnone & _).
  split; [|split; [|split]].
  - apply Hub. vm_compute. apply list_elem_of_here.
  - apply (HN corpus_3_1_7 ("# sent_id = auto-7" +:+ Py.nl) 7).
    + reflexivity.
    + vm_compute. do 9 apply list_elem_of_further. apply list_elem_of_here.
    + vm_compute. reflexivity.
  - apply Hnone. vm_compute. reflexivity.
  - apply Hskip. vm_compute. reflexivity.
Defined.


(** ** Texts, lines and headers *)

Lemma str_app_assoc (a b c : string) : (a +:+ b) +:+ c = a +:+ b +:+ c.
Proof.
  induction a as [|x a' IH]; [done|].
  change (String x ((a' +:+ b) +:+ c) = String x (a' +:+ b +:+ c)). by f_equal.
Qed.

Lemma str_app_nil_r (a : string) : a +:+ "" = a.
Proof.
  induction a as [|x a' IH]; [done|].
  change (String x (a' +:+ "") = String x a'). by f_equal.
Qed.


Lemma str_app_nl (s : string) : Py.nl +:+ s = String Py.LF s.
Proof. reflexivity. Qed.

Lemma str_app_cons c (a b : string) : String c a +:+ b = String c (a +:+ b).
Proof. reflexivity. Qed.

Lemma str_all_app P (a b : string) :
  str_all P (a +:+ b) = str_all P a && str_all P b.
Proof.
  induction a as [|x a' IH]; [done|].
  rewrite str_app_cons. cbn [str_all]. by rewrite IH, andb_assoc.
Qed.

Lemma str_all_impl (P Q : ascii -> bool) s :
  (forall c, P c = true -> Q c = true) ->
  str_all P s = true -> str_all Q s = true.
Proof.
  intros HPQ. induction s as [|c s IH]; [done|]. cbn [str_all].
  intros [Hc Hs]%andb_true_iff. by rewrite (HPQ _ Hc), IH.
Qed.

(** [String.rev] *)
Lemma rev_app_spec (s1 s2 : string) :
  String.rev_app s1 s2 = String.rev s1 +:+ s2.
Proof.
  unfold String.rev. revert s2. induction s1 as [|c s1 IH]; intros s2; [done|].
  cbn [String.rev_app]. rewrite IH, (IH (String c "")).
  by rewrite str_app_assoc.
Qed.

Lemma rev_cons c (s : string) :
  String.rev (String c s) = String.rev s +:+ String c "".
Proof. unfold String.rev at 1. cbn [String.rev_app]. apply rev_app_spec. Qed.

Lemma rev_app_distr (a b : string) :
  String.rev (a +:+ b) = String.rev b +:+ String.rev a.
Proof.
  induction a as [|c a' IH].
  - by rewrite str_app_nil_r.
  - rewrite str_app_cons, !rev_cons, IH. by rewrite str_app_assoc.
Qed.

Lemma rev_involutive (s : string) : String.rev (String.rev s) = s.
Proof.
  induction s as [|c s IH]; [done|].
  rewrite rev_cons, rev_app_distr, IH. done.
Qed.

Lemma str_all_rev P (s : string) : str_all P (String.rev s) = str_all P s.
Proof.
  induction s as [|c s IH]; [done|].
  rewrite rev_cons, str_all_app, IH. cbn [str_all].
  rewrite andb_true_r. apply andb_comm.
Qed.

(** [strip] *)
Lemma lstrip_suffix (s : string) : exists sp, s = sp +:+ Py.lstrip s.
Proof.
  induction s as [|c s [sp IH]]; [by exists ""|]. cbn [Py.lstrip].
  destruct (Py.isspace c); [|by exists ""].
  exists (String c sp). rewrite str_app_cons. by f_equal.
Qed.

Lemma rstrip_prefix (s : string) : exists sp, s = Py.rstrip s +:+ sp.
Proof.
  unfold Py.rstrip. destruct (lstrip_suffix (String.rev s)) as [sp Hsp].
  exists (String.rev sp).
  rewrite <- rev_app_distr, <- Hsp. by rewrite rev_involutive.
Qed.

Lemma str_all_lstrip P s : str_all P s = true -> str_all P (Py.lstrip s) = true.
Proof.
  destruct (lstrip_suffix s) as [sp Hsp]. intros H. rewrite Hsp in H.
  rewrite str_all_app in H. by apply andb_true_iff in H as [_ ?].
Qed.

Lemma str_all_strip P s : str_all P s = true -> str_all P (Py.strip s) = true.
Proof.
  intros H. unfold Py.strip, Py.rstrip. rewrite str_all_rev.
  apply str_all_lstrip. rewrite str_all_rev. by apply str_all_lstrip.
Qed.

Lemma lstrip_nonspace (s : string) c :
  Py.isspace c = false -> Py.lstrip (String c s) = String c s.
Proof. intros H. cbn [Py.lstrip]. by rewrite H. Qed.

(** A line that ends with a newline after a run of characters that are
    no white space: [rstrip] removes the newline only. *)
Lemma rstrip_newline (y d : string) :
  d <> "" -> str_all nonspace_char d = true ->
  Py.rstrip (y +:+ d +:+ Py.nl) = y +:+ d.
Proof.
  intros Hd Hall. unfold Py.rstrip.
  rewrite !rev_app_distr. change (String.rev Py.nl) with Py.nl.
  rewrite str_app_assoc, str_app_nl. cbn [Py.lstrip].
  change (Py.isspace Py.LF) with true. cbn iota.
  destruct (String.rev d) as [|c r] eqn:Hrev.
  { destruct Hd. by rewrite <- (rev_involutive d), Hrev. }
  assert (Py.isspace c = false) as Hc.
  { rewrite <- str_all_rev, Hrev in Hall. cbn [str_all] in Hall.
    apply andb_true_iff in Hall as [Hc _]. unfold nonspace_char in Hc.
    by apply negb_true_iff in Hc. }
  rewrite str_app_cons, lstrip_nonspace by done.
  rewrite <- str_app_cons, <- Hrev, <- rev_app_distr. apply rev_involutive.
Qed.

Lemma startswith_app (a t p : string) :
  Py.startswith a p = true -> Py.startswith (a +:+ t) p = true.
Proof.
  revert a. induction p as [|x p IH]; intros a; [done|].
  destruct a as [|y a]; [done|]. rewrite str_app_cons. cbn [Py.startswith].
  destruct (Ascii.eqb x y); [apply IH|done].
Qed.

(** Reading a text that continues a closed text. *)
Lemma translate_newlines_app st (a b : string) :
  translate_newlines st (a +:+ String Py.LF b)
  = translate_newlines st (a +:+ Py.nl) +:+ translate_newlines false b.
Proof.
  revert st. induction a as [|c a' IH]; intros st.
  - cbn. destruct st; done.
  - rewrite !str_app_cons. cbn [translate_newlines].
    destruct (Ascii.eqb c Py.CR); [by rewrite IH|].
    destruct (Ascii.eqb c Py.LF && st); [by rewrite IH|].
    by rewrite IH.
Qed.

Lemma translate_newlines_closed st (a : string) :
  st = false \/ a <> "" ->
  exists t, translate_newlines st (a +:+ Py.nl) = t +:+ Py.nl.
Proof.
  revert st. induction a as [|c a' IH]; intros st Hst.
  - destruct Hst as [-> | ?]; [|done]. by exists "".
  - rewrite str_app_cons. cbn [translate_newlines].
    destruct (Ascii.eqb c Py.CR).
    { destruct a' as [|c' a''].
      - exists "". done.
      - destruct (IH true) as [t Ht]; [by right|]. rewrite Ht.
        by exists (String Py.LF t). }
    destruct (Ascii.eqb c Py.LF && st).
    { destruct (IH false) as [t Ht]; [by left|]. rewrite Ht. by exists t. }
    destruct (IH false) as [t Ht]; [by left|]. rewrite Ht.
    by exists (String c t).
Qed.

Lemma readlines_go_app cur (x y : string) :
  readlines_go cur (x +:+ String Py.LF y)
  = readlines_go cur (x +:+ Py.nl) ++ readlines_go "" y.
Proof.
  revert cur. induction x as [|c x' IH]; intros cur.
  - done.
  - rewrite !str_app_cons. cbn [readlines_go].
    destruct (Ascii.eqb c Py.LF); by rewrite IH.
Qed.

Lemma corpus_lines_app (a b : string) :
  closed_text a -> corpus_lines (a +:+ b) = corpus_lines a ++ corpus_lines b.
Proof.
  intros [-> | [a' ->]]; [done|].
  unfold corpus_lines, read_text, readlines.
  rewrite str_app_assoc, str_app_nl, translate_newlines_app.
  destruct (translate_newlines_closed false a') as [t ->]; [by left|].
  rewrite str_app_assoc, str_app_nl. apply readlines_go_app.
Qed.

Lemma header_values_app (a b : string) :
  closed_text a ->
  header_values (Some (a +:+ b))
  = header_values (Some a) ++ header_values (Some b).
Proof.
  intros Ha. unfold header_values. by rewrite corpus_lines_app, omap_app.
Qed.

Lemma closed_text_app (a b : string) :
  closed_text b -> b <> "" -> closed_text (a +:+ b).
Proof.
  intros [-> | [b' ->]] Hb; [done|]. right. exists (a +:+ b').
  by rewrite str_app_assoc.
Qed.

(** A text of one line. *)
Lemma translate_newlines_plain (s rest : string) :
  str_all no_break_char s = true ->
  translate_newlines false (s +:+ rest) = s +:+ translate_newlines false rest.
Proof.
  induction s as [|c s IH]; [done|]. cbn [str_all].
  intros [Hc Hs]%andb_true_iff. rewrite !str_app_cons. cbn [translate_newlines].
  unfold no_break_char in Hc.
  apply andb_true_iff in Hc as [Hcr%negb_true_iff _]. rewrite Hcr.
  rewrite andb_false_r. by rewrite IH.
Qed.

Lemma readlines_go_plain cur (s : string) :
  str_all no_break_char s = true ->
  readlines_go cur (s +:+ Py.nl) = [String.rev cur +:+ s +:+ Py.nl].
Proof.
  revert cur. induction s as [|c s IH]; intros cur.
  - intros _. change ("" +:+ Py.nl) with (String Py.LF "").
    cbn [readlines_go]. change (Ascii.eqb Py.LF Py.LF) with true. cbn iota.
    rewrite rev_cons. reflexivity.
  - cbn [str_all]. intros [Hc Hs]%andb_true_iff.
    rewrite str_app_cons. cbn [readlines_go].
    unfold no_break_char in Hc.
    apply andb_true_iff in Hc as [_ Hlf%negb_true_iff]. rewrite Hlf.
    rewrite IH by done. by rewrite rev_cons, str_app_assoc.
Qed.

Lemma corpus_lines_one (s : string) :
  str_all no_break_char s = true -> corpus_lines (s +:+ Py.nl) = [s +:+ Py.nl].
Proof.
  intros H. unfold corpus_lines, read_text, readlines.
  rewrite translate_newlines_plain by done.
  change (translate_newlines false Py.nl) with Py.nl.
  by rewrite readlines_go_plain.
Qed.

(** What [str()] prints for an integer: digits, after a sign if any. *)
Lemma pretty_go_chars x s :
  str_all sign_or_digit s = true ->
  str_all sign_or_digit (pretty_N_go x s) = true.
Proof.
  revert s. induction (N.lt_wf_0 x) as [x _ IH]; intros s Hs.
  destruct (decide (0 < x)%N) as [Hx|Hx].
  - rewrite pretty_N_go_step by done. apply IH; [apply N.div_lt; lia|].
    cbn [str_all]. rewrite Hs, andb_true_r. unfold sign_or_digit.
    destruct (pretty_char_digit (x `mod` 10)) as [-> _]; [by apply N.mod_lt|].
    done.
  - assert (x = 0%N) as -> by lia. by rewrite pretty_N_go_0.
Qed.

Lemma str_of_int_chars n :
  Py.str_of_int n <> "" /\ str_all sign_or_digit (Py.str_of_int n) = true.
Proof.
  unfold Py.str_of_int.
  assert (forall p : positive,
             pretty (N.pos p) <> ""
             /\ str_all sign_or_digit (pretty (N.pos p)) = true) as Hpos.
  { intros p. assert (pretty (N.pos p) = pretty_N_go (N.pos p) "") as -> by done.
    split; [|by apply pretty_go_chars].
    destruct (pretty_go_head (N.pos p) "") as (c & r & -> & _); [lia|done]. }
  destruct n as [|p|p]; [done|apply Hpos|].
  unfold pretty, pretty_Z. change (pretty p) with (pretty (N.pos p)).
  destruct (Hpos p) as [_ Hall]. split; [done|].
  change ("-" +:+ pretty (N.pos p)) with (String "-" (pretty (N.pos p))).
  cbn [str_all]. by rewrite Hall.
Qed.

Lemma sign_or_digit_nonspace c : sign_or_digit c = true -> nonspace_char c = true.
Proof.
  unfold sign_or_digit, nonspace_char, Py.isdigit, Py.isspace, Py.code.
  intros [[H1%N.leb_le H2%N.leb_le]%andb_true_iff | ->%Ascii.eqb_eq]%orb_true_iff;
    [|done].
  apply negb_true_iff, orb_false_iff.
  split; apply andb_false_iff; right; apply N.leb_gt; lia.
Qed.

Lemma sign_or_digit_no_break c : sign_or_digit c = true -> no_break_char c = true.
Proof.
  unfold sign_or_digit, no_break_char, Py.isdigit, Py.code.
  intros [[H1%N.leb_le H2%N.leb_le]%andb_true_iff | ->%Ascii.eqb_eq]%orb_true_iff;
    [|done].
  apply andb_true_iff.
  split; apply negb_true_iff, Ascii.eqb_neq; intros ->; by destruct H1.
Qed.

(** The header line of a commit reads as its index; the text line is
    no header. *)
Lemma strip_header_line (d : string) :
  d <> "" -> str_all nonspace_char d = true ->
  Py.strip (header_prefix +:+ d +:+ Py.nl) = header_prefix +:+ d.
Proof.
  intros Hd Hall. unfold Py.strip.
  change (header_prefix +:+ d +:+ Py.nl)
    with (String "#" (" sent_id = auto-" +:+ d +:+ Py.nl)).
  rewrite lstrip_nonspace by done.
  change (String "#" (" sent_id = auto-" +:+ d +:+ Py.nl))
    with (header_prefix +:+ d +:+ Py.nl).
  by apply rstrip_newline.
Qed.

Lemma header_line_value i :
  header_value (header_prefix +:+ Py.str_of_int i +:+ Py.nl) = Some i.
Proof.
  apply header_value_of_N. unfold header_N.
  destruct (str_of_int_chars i) as [Hne Hall].
  rewrite strip_header_line;
    [|done|by eapply str_all_impl; [apply sign_or_digit_nonspace|]].
  rewrite startswith_app by done.
  change (string_drop (String.length header_prefix)
            (header_prefix +:+ Py.str_of_int i)) with (Py.str_of_int i).
  apply int_of_str_of_int.
Qed.

Lemma text_line_value sent :
  header_value ("# text = " +:+ sent +:+ Py.nl) = None.
Proof.
  unfold header_value.
  destruct (Py.startswith _ header_prefix) eqn:H; [|done].
  exfalso. unfold Py.strip in H.
  change ("# text = " +:+ sent +:+ Py.nl)
    with (String "#" (" text = " +:+ sent +:+ Py.nl)) in H.
  rewrite lstrip_nonspace in H by done.
  destruct (rstrip_prefix (String "#" (" text = " +:+ sent +:+ Py.nl)))
    as [sp Hsp].
  apply (startswith_app _ sp) in H. rewrite <- Hsp in H.
  assert (Py.startswith (String "#" (" text = " +:+ sent +:+ Py.nl))
            header_prefix = false) as Hno by reflexivity.
  congruence.
Qed.

(** The sentences [read_sentences] returns hold no line break. *)
Lemma not_linebreak_no_break c : not_linebreak c = true -> no_break_char c = true.
Proof.
  unfold not_linebreak, no_break_char. intros H%negb_true_iff.
  apply andb_true_iff.
  split; apply negb_true_iff, Ascii.eqb_neq; intros ->; by vm_compute in H.
Qed.

Lemma splitlines_go_lines st cur s :
  str_all not_linebreak cur = true ->
  Forall (fun line => str_all not_linebreak line = true) (splitlines_go st cur s).
Proof.
  revert st cur. induction s as [|c s IH]; intros st cur Hcur.
  - cbn. destruct (decide (cur = "")); [done|].
    constructor; [by rewrite str_all_rev|done].
  - cbn [splitlines_go]. destruct (Ascii.eqb c Py.LF && st); [by apply IH|].
    destruct (is_linebreak c) eqn:Hc.
    + constructor; [by rewrite str_all_rev|by apply IH].
    + apply IH. cbn [str_all]. unfold not_linebreak at 1. by rewrite Hc, Hcur.
Qed.

Lemma read_sentences_no_break content sent :
  sent ∈ read_sentences content -> str_all no_break_char sent = true.
Proof.
  unfold read_sentences. intros (line & Hline & Hsent)%list_elem_of_omap.
  destruct (decide (Py.strip line = "")); [done|]. injection Hsent as <-.
  apply str_all_strip. apply (str_all_impl _ _ _ not_linebreak_no_break).
  pose proof (splitlines_go_lines false "" (read_text content) eq_refl) as Hall.
  rewrite Forall_forall in Hall. by apply Hall.
Qed.

(** The headers of what a run appends. *)
Lemma block_closed commit : closed_text (block commit) /\ block commit <> "".
Proof.
  destruct commit as [[i sent] r]. unfold block. split; [|done].
  right. exists ("# sent_id = auto-" +:+ Py.str_of_int i +:+ Py.nl +:+
                 "# text = " +:+ sent +:+ Py.nl +:+ r).
  by rewrite !str_app_assoc.
Qed.

Lemma block_header_values commit :
  plain_commit commit -> header_values (Some (block commit)) = [commit_idx commit].
Proof.
  destruct commit as [[i sent] r]. intros (Hsent & Hr & Hnone).
  cbn [fst snd] in Hsent, Hr, Hnone. change (commit_idx (i, sent, r)) with i.
  assert (block (i, sent, r)
          = ((header_prefix +:+ Py.str_of_int i) +:+ Py.nl)
            +:+ (("# text = " +:+ sent) +:+ Py.nl) +:+ r +:+ Py.nl) as ->.
  { unfold block, header_prefix. by rewrite !str_app_assoc. }
  rewrite (header_values_app ((header_prefix +:+ Py.str_of_int i) +:+ Py.nl))
    by (right; by eexists).
  rewrite (header_values_app (("# text = " +:+ sent) +:+ Py.nl))
    by (right; by eexists).
  rewrite (header_values_app r) by done.
  rewrite Hnone. unfold header_values.
  destruct (str_of_int_chars i) as [_ Hall].
  rewrite !corpus_lines_one; try done.
  - cbn [omap list_omap]. rewrite !str_app_assoc.
    rewrite header_line_value, text_line_value. done.
  - rewrite str_all_app. apply andb_true_iff. split; [done|].
    by eapply str_all_impl; [apply sign_or_digit_no_break|].
Qed.

Lemma blocks_header_values g cs :
  closed_text g -> Forall plain_commit cs ->
  header_values (Some (g +:+ blocks cs))
  = header_values (Some g) ++ (commit_idx <$> cs).
Proof.
  intros Hg Hcs. revert g Hg.
  induction Hcs as [|c cs Hc _ IH]; intros g Hg.
  - cbn. by rewrite str_app_nil_r, app_nil_r.
  - cbn [blocks fmap list_fmap]. rewrite <- str_app_assoc.
    destruct (block_closed c) as [Hclosed Hne].
    rewrite IH by by apply closed_text_app.
    rewrite header_values_app by done.
    rewrite block_header_values by done. by rewrite <- app_assoc.
Qed.

(** The greatest header number after commits numbered upward from one
    past it. *)
Lemma foldr_max_snoc (l : list Z) z x :
  foldr Z.max z (l ++ [x]) = Z.max x (foldr Z.max z l).
Proof.
  induction l as [|y l IH]; cbn [app foldr]; [lia|]. rewrite IH. lia.
Qed.

Lemma foldr_max_seqZ (l : list Z) (n : nat) :
  foldr Z.max 0 (l ++ seqZ (foldr Z.max 0 l + 1) (Z.of_nat n))
  = foldr Z.max 0 l + Z.of_nat n.
Proof.
  induction n as [|n IH].
  - cbn. rewrite app_nil_r. lia.
  - rewrite seqZ_S, app_assoc, foldr_max_snoc, IH. lia.
Qed.










(** ** The Pipeline Orchestrator *)

Lemma blocks_app cs1 cs2 : blocks (cs1 ++ cs2) = blocks cs1 +:+ blocks cs2.
Proof.
  induction cs1 as [|c cs1 IH]; [done|].
  cbn [app blocks]. by rewrite IH, str_app_assoc.
Qed.

(** The indexes [enumerate] gives count upward. *)
Lemma enumerate_lookup a sentences n i sent :
  enumerate a sentences !! n = Some (i, sent) <->
  i = a + Z.of_nat n /\ sentences !! n = Some sent.
Proof.
  revert a n. induction sentences as [|s sentences IH]; intros a n.
  - split; [done|]. by intros [_ ?].
  - destruct n as [|n]; cbn [enumerate lookup list_lookup].
    + split; [intros [= <- <-]|intros [-> [= ->]]]; [split|f_equal; f_equal]; [lia|done|lia].
    + rewrite IH. split; intros [-> ?]; (split; [lia|done]).
Qed.

Lemma enumerate_length a sentences : length (enumerate a sentences) = length sentences.
Proof.
  revert a. induction sentences as [|s sentences IH]; intros a; simpl; [done|].
  by f_equal.
Qed.

Lemma enumerate_split a sentences pre i sent post :
  enumerate a sentences = pre ++ (i, sent) :: post ->
  i = a + Z.of_nat (length pre)
  /\ sentences !! length pre = Some sent
  /\ Forall (fun item => a <= item.1 < i) pre
  /\ Forall (fun item => i < item.1) post.
Proof.
  intros Heq.
  assert (enumerate a sentences !! length pre = Some (i, sent)) as Hi.
  { rewrite Heq. by apply list_lookup_middle. }
  apply enumerate_lookup in Hi as [-> Hsent]. split; [done|]. split; [done|].
  split; apply Forall_forall; intros [j s] Hj; cbn.
  - apply list_elem_of_lookup in Hj as [n Hn].
    assert (enumerate a sentences !! n = Some (j, s)) as Hn'.
    { rewrite Heq. rewrite lookup_app_l; [done|]. by eapply lookup_lt_Some. }
    apply enumerate_lookup in Hn' as [-> _].
    apply lookup_lt_Some in Hn. lia.
  - apply list_elem_of_lookup in Hj as [n Hn].
    assert (enumerate a sentences !! (length pre + S n)%nat = Some (j, s)) as Hn'.
    { rewrite Heq. rewrite lookup_app_r by lia.
      replace (length pre + S n - length pre)%nat with (S n) by lia. done. }
    apply enumerate_lookup in Hn' as [-> _]. lia.
Qed.

Section OrchestratorProperties.

Variable annotate_sentence_with_llm : Z -> string -> string -> result (list token).
Variable validate_conllu : Z -> string -> result (bool * string).
Variable json_dumps : list token -> string.
Variable str_exc : exn -> string.

Abbreviation annotate_one := (annotate_one_sentence annotate_sentence_with_llm validate_conllu).
Abbreviation body := (loop_body annotate_sentence_with_llm validate_conllu json_dumps str_exc).
Abbreviation loop := (for_loop annotate_sentence_with_llm validate_conllu json_dumps str_exc).
Abbreviation result_of := (annotation_result annotate_sentence_with_llm validate_conllu).
Abbreviation made := (calls_made annotate_sentence_with_llm).
Abbreviation passed := (passed_validation annotate_sentence_with_llm validate_conllu).
Abbreviation commits := (commits_of annotate_sentence_with_llm validate_conllu).
Abbreviation called := (calls_of annotate_sentence_with_llm).
Abbreviation report := (exception_report str_exc).
Abbreviation run_main :=
  (main annotate_sentence_with_llm validate_conllu json_dumps str_exc).
Abbreviation upto :=
  (run_upto annotate_sentence_with_llm validate_conllu json_dumps str_exc).

Lemma annotate_one_sentence_spec sent i model w :
  annotate_one sent i model w =
    (result_of sent i model,
     World (gold w) (log_writes w) (calls w ++ made sent i model)).
Proof.
  unfold annotate_one_sentence, annotation_result, calls_made, record_call.
  destruct (annotate_sentence_with_llm _ _ _) as [tokens|e]; simpl; [|done].
  destruct (tokens_to_conllu tokens) as [conllu_str|e]; simpl; [|done].
  rewrite <- app_assoc. simpl.
  destruct (validate_conllu _ _) as [[ok log]|e]; simpl; done.
Qed.

(** The calls made for a sentence are calls for that sentence; a
    validator call among them fixes the outcome. *)
Lemma made_idx sent i model c : c ∈ made sent i model -> call_idx c = i.
Proof.
  unfold calls_made. intros [->|H]%elem_of_cons; [done|].
  destruct (annotate_sentence_with_llm _ _ _) as [tokens|]; [|by apply elem_of_nil in H].
  destruct (tokens_to_conllu tokens); [|by apply elem_of_nil in H].
  by apply list_elem_of_singleton in H as ->.
Qed.



Lemma result_true_passed sent i model conllu_str tokens log :
  result_of sent i model = Ok (true, conllu_str, tokens, log) ->
  passed model (i, sent, conllu_str).
Proof.
  unfold annotation_result, passed_validation.
  destruct (annotate_sentence_with_llm _ _ _) as [tokens'|]; simpl; [|done].
  destruct (tokens_to_conllu tokens') as [c|] eqn:Hc; simpl; [|done].
  destruct (validate_conllu i c) as [[ok log']|] eqn:Hv; simpl; [|done].
  intros [= -> -> -> ->]. eauto.
Qed.

Lemma append_block_spec i sent conllu_str w :
  append_block i sent conllu_str w =
    World (Some (gold_text w +:+ block (i, sent, conllu_str)))
          (log_writes w) (calls w).
Proof.
  unfold append_block, gold_write, gold_text, block. cbn.
  by rewrite !str_app_assoc.
Qed.

(** The three ways through the loop body. *)
Lemma loop_body_skip start_from model i sent w :
  i < start_from -> body start_from model (i, sent) w = (Next, w).
Proof. intros H. unfold loop_body. by apply Z.ltb_lt in H as ->. Qed.

Lemma loop_body_run start_from model i sent w :
  start_from <= i ->
  body start_from model (i, sent) w =
    let w1 := World (gold w) (log_writes w) (calls w ++ made sent i model) in
    match result_of sent i model with
    | Raise e => (Break, write_text (exception_name i) (report i sent e) w1)
    | Ok (true, conllu_str, _, _) =>
        (Next, World (Some (gold_text w +:+ block (i, sent, conllu_str)))
                     (log_writes w) (calls w ++ made sent i model))
    | Ok (false, conllu_str, tokens, v_log) =>
        (Break,
         World (gold w)
               (log_writes w ++
                  [(json_name i, json_dumps tokens); (conllu_name i, conllu_str);
                   (val_name i, v_log)])
               (calls w ++ made sent i model))
    end.
Proof.
  intros H. unfold loop_body. apply Z.ltb_ge in H as ->.
  rewrite annotate_one_sentence_spec.
  destruct (result_of sent i model) as [[[[[] c] t] l]|e]; cbn; try done.
  - by rewrite append_block_spec.
  - unfold write_text. cbn. by rewrite <- !app_assoc.
Qed.

Lemma for_loop_app start_from model pre post w :
  loop start_from model (pre ++ post) w =
    match loop start_from model pre w with
    | (Break, w1) => (Break, w1)
    | (Next, w1) => loop start_from model post w1
    end.
Proof.
  revert w. induction pre as [|item pre IH]; intros w; [done|].
  cbn [app for_loop]. destruct (body _ _ item w) as [[] w1]; [|done]. apply IH.
Qed.

(** A stretch passed without [break]: only commits, no diagnostic file. *)
Lemma for_loop_next start_from model items w w' :
  loop start_from model items w = (Next, w') ->
  gold_text w' = gold_text w +:+ blocks (commits start_from model items)
  /\ (is_Some (gold w) -> is_Some (gold w'))
  /\ log_writes w' = log_writes w
  /\ calls w' = calls w ++ called start_from model items
  /\ Forall (fun item => start_from <= item.1 ->
               exists conllu_str tokens log,
                 result_of item.2 item.1 model = Ok (true, conllu_str, tokens, log))
            items.
Proof.
  revert w. induction items as [|[i sent] items IH]; intros w.
  - intros [= <-]. cbn. by rewrite str_app_nil_r, app_nil_r.
  - cbn [for_loop]. destruct (decide (i < start_from)) as [Hlt|Hge].
    + rewrite loop_body_skip by done. intros H.
      destruct (IH _ H) as (Hg & Hs & Hl & Hc & Hall).
      unfold commits_of, calls_of in *. cbn [omap list_omap flat_map].
      apply Z.ltb_lt in Hlt as Hlt'. rewrite Hlt'. cbn.
      repeat split; try done. constructor; [cbn; lia|done].
    + rewrite loop_body_run by lia. cbn zeta.
      destruct (result_of sent i model) as [[[[[] c] t] l]|e] eqn:Hres; [|done..].
      intros H. destruct (IH _ H) as (Hg & Hs & Hl & Hc & Hall). cbn in *.
      unfold commits_of, calls_of in *. cbn [omap list_omap flat_map].
      assert ((i <? start_from) = false) as -> by (apply Z.ltb_ge; lia).
      rewrite Hres. cbn. rewrite Hg, Hc, str_app_assoc, <- app_assoc.
      repeat split; try done.
      * intros _. apply Hs. eauto.
      * constructor; [cbn; eauto|done].
Qed.

(** A [break] happens at one sentence, reached without [break]. *)
Lemma for_loop_break start_from model items w w' :
  loop start_from model items w = (Break, w') ->
  exists pre i sent post w1,
    items = pre ++ (i, sent) :: post
    /\ loop start_from model pre w = (Next, w1)
    /\ start_from <= i
    /\ body start_from model (i, sent) w1 = (Break, w').
Proof.
  revert w. induction items as [|[i sent] items IH]; intros w; [done|].
  cbn [for_loop]. destruct (body _ _ (i, sent) w) as [[] w1] eqn:Hb.
  - intros H. destruct (IH _ H) as (pre & j & s & post & w2 & -> & Hpre & Hj & Hbj).
    exists ((i, sent) :: pre), j, s, post, w2. repeat split; try done.
    cbn [for_loop]. by rewrite Hb.
  - intros [= <-]. exists [], i, sent, items, w. repeat split; try done.
    destruct (decide (i < start_from)); [|lia].
    by rewrite loop_body_skip in Hb.
Qed.

Lemma commits_passed start_from model items :
  Forall (passed model) (commits start_from model items).
Proof.
  apply Forall_forall. intros [[i sent] c] Hin.
  apply list_elem_of_omap in Hin as ([j s] & _ & Hj).
  destruct (j <? start_from); [done|].
  destruct (result_of s j model) as [[[[[] c'] t] l]|e] eqn:Hres; simplify_eq.
  by eapply result_true_passed.
Qed.

Lemma commits_from_items start_from model items commit :
  commit ∈ commits start_from model items ->
  (commit_idx commit, commit.1.2) ∈ items /\ start_from <= commit_idx commit.
Proof.
  intros Hin. apply list_elem_of_omap in Hin as ([j s] & Hjs & Hj).
  destruct (Z.ltb_spec j start_from); [done|].
  destruct (result_of s j model) as [[[[[] c'] t] l]|e]; simplify_eq. done.
Qed.


(** Whatever the stretch and however the loop leaves it, what it has
    appended is a sequence of commits that passed validation. *)
Lemma for_loop_gold start_from model items w c w' :
  loop start_from model items w = (c, w') ->
  exists cs,
    gold_text w' = gold_text w +:+ blocks cs
    /\ (is_Some (gold w) -> is_Some (gold w'))
    /\ Forall (passed model) cs
    /\ Forall (fun commit => (commit_idx commit, commit.1.2) ∈ items
                             /\ start_from <= commit_idx commit) cs.
Proof.
  destruct c; intros H.
  - destruct (for_loop_next _ _ _ _ _ H) as (Hg & Hs & _).
    exists (commits start_from model items). repeat split; try done.
    + apply commits_passed.
    + apply Forall_forall. intros commit Hc.
      by apply (commits_from_items _ model).
  - destruct (for_loop_break _ _ _ _ _ H)
      as (pre & i & sent & post & w1 & -> & Hpre & Hi & Hb).
    destruct (for_loop_next _ _ _ _ _ Hpre) as (Hg & Hs & _).
    exists (commits start_from model pre).
    rewrite loop_body_run in Hb by done. cbn zeta in Hb.
    assert (gold w' = gold w1) as Hgold.
    { destruct (result_of sent i model) as [[[[[] ?] ?] ?]|?]; by simplify_eq. }
    unfold gold_text in *. rewrite Hgold. repeat split; try done.
    + apply commits_passed.
    + apply Forall_forall. intros commit Hc.
      destruct (commits_from_items _ _ _ _ Hc). split; [|done].
      apply elem_of_app. by left.
Qed.

Lemma main_cases override model content gold0 w' :
  main annotate_sentence_with_llm validate_conllu json_dumps str_exc
       override model (Some content) (initial_world gold0) = Ok w' ->
  let sentences := read_sentences content in
  let start_from := resolve_start override gold0 in
  (start_from > Z.of_nat (length sentences) /\ w' = initial_world gold0)
  \/ (start_from <= Z.of_nat (length sentences)
      /\ exists c,
           loop start_from model (enumerate 1 sentences)
                (World (Some (default "" gold0)) [] []) = (c, w')).
Proof.
  unfold main. cbn.
  destruct (Z.gtb_spec (resolve_start override gold0)
              (Z.of_nat (length (read_sentences content)))) as [Hgt|Hle].
  - intros [= <-]. left. split; [lia|done].
  - intros [= <-]. right. split; [done|].
    unfold open_append, initial_world. cbn.
    destruct (loop _ _ _ _) as [c w1]. by exists c.
Qed.

(** How a run from the Corpus text [g] ends: with all sentences from
    the start index committed, or stopped at one sentence [i] by an
    exception or by a failed validation. *)
Lemma run_analysis start_from model sentences g c w' :
  loop start_from model (enumerate 1 sentences) (World (Some g) [] []) = (c, w') ->
  exists pre,
    gold w' = Some (g +:+ blocks (commits start_from model pre))
    /\ Forall (fun item => item.1 < 1 + Z.of_nat (length pre)) pre
    /\ Forall (fun item => start_from <= item.1 ->
                  exists conllu_str tokens log,
                    result_of item.2 item.1 model
                      = Ok (true, conllu_str, tokens, log)) pre
    /\ ((c = Next /\ pre = enumerate 1 sentences
         /\ log_writes w' = [] /\ calls w' = called start_from model pre)
        \/ (c = Break /\ exists sent post,
              let i := 1 + Z.of_nat (length pre) in
              enumerate 1 sentences = pre ++ (i, sent) :: post
              /\ sentences !! length pre = Some sent
              /\ start_from <= i
              /\ calls w' = called start_from model pre ++ made sent i model
              /\ ((exists e,
                      result_of sent i model = Raise e
                      /\ log_writes w' = [(exception_name i, report i sent e)])
                  \/ (exists conllu_str tokens v_log,
                        result_of sent i model = Ok (false, conllu_str, tokens, v_log)
                        /\ log_writes w' =
                             [(json_name i, json_dumps tokens);
                              (conllu_name i, conllu_str); (val_name i, v_log)])))).
Proof.
  destruct c; intros H.
  - destruct (for_loop_next _ _ _ _ _ H) as (Hg & Hs & Hl & Hc & Hall).
    exists (enumerate 1 sentences). cbn in *. split; [|split; [|split]].
    + destruct Hs as [g' Hg']; [by eexists|]. unfold gold_text in Hg.
      rewrite Hg' in *. cbn in Hg. by subst.
    + apply Forall_forall. intros [j s] [n Hn]%list_elem_of_lookup. cbn.
      pose proof (lookup_lt_Some _ _ _ Hn) as Hlt.
      apply enumerate_lookup in Hn as [-> _]. lia.
    + done.
    + left. done.
  - destruct (for_loop_break _ _ _ _ _ H)
      as (pre & i & sent & post & w1 & Heq & Hpre & Hi & Hb).
    destruct (for_loop_next _ _ _ _ _ Hpre) as (Hg & Hs & Hl & Hc & Hall).
    destruct (enumerate_split _ _ _ _ _ _ Heq) as (-> & Hsent & Hlt & _).
    destruct Hs as [g1 Hg1]; [by eexists|].
    unfold gold_text in Hg. rewrite Hg1 in Hg. cbn in Hg, Hl, Hc. subst g1.
    exists pre. rewrite loop_body_run in Hb by done. cbn zeta in Hb.
    rewrite Hg1, Hl, Hc in Hb. cbn in Hb.
    assert (Forall (fun item => item.1 < 1 + Z.of_nat (length pre)) pre) as Hlt'.
    { eapply Forall_impl; [exact Hlt|]. cbn. intros; lia. }
    destruct (result_of sent (1 + Z.of_nat (length pre)) model)
      as [[[[[] cs] ts] l]|e] eqn:Hres; simplify_eq; cbn.
    + split; [done|]. split; [done|]. split; [done|]. right. split; [done|].
      exists sent, post. repeat split; try done. right. eauto.
    + split; [done|]. split; [done|]. split; [done|]. right. split; [done|].
      exists sent, post. repeat split; try done. left. eauto.
Qed.










Lemma get_last_processed_index_nonneg gold0 : 0 <= get_last_processed_index gold0.
Proof.
  destruct gold0 as [content|]; [|done]. unfold get_last_processed_index.
  rewrite scan_lines_max.
  by destruct (foldr_max_bounds (omap header_value (readlines (read_text content))) 0).
Qed.

Lemma resolve_start_spec override gold0 :
  resolve_start override gold0
  = Z.max 1 (default (get_last_processed_index gold0 + 1) override).
Proof.
  unfold resolve_start. cbn zeta.
  destruct (Z.ltb_spec (default (get_last_processed_index gold0 + 1) override) 1);
    lia.
Qed.

Lemma for_loop_calls start_from model items w c w' :
  loop start_from model items w = (c, w') ->
  exists more, calls w' = calls w ++ more.
Proof.
  destruct c; intros H.
  - destruct (for_loop_next _ _ _ _ _ H) as (_ & _ & _ & Hc & _). eauto.
  - destruct (for_loop_break _ _ _ _ _ H)
      as (pre & i & sent & post & w1 & -> & Hpre & Hi & Hb).
    destruct (for_loop_next _ _ _ _ _ Hpre) as (_ & _ & _ & Hc & _).
    rewrite loop_body_run in Hb by done. cbn zeta in Hb.
    destruct (result_of sent i model) as [[[[[] ?] ?] ?]|?]; simplify_eq; cbn;
      rewrite Hc, <- app_assoc; eauto.
Qed.

(** The first sentence the loop works on is the one at the start
    index. *)
Lemma for_loop_first_call start_from model sentences a w :
  a <= start_from < a + Z.of_nat (length sentences) ->
  exists sent rest,
    sentences !! Z.to_nat (start_from - a) = Some sent
    /\ calls (loop start_from model (enumerate a sentences) w).2
       = calls w ++ CallAnnotate start_from sent (model_or_default model) :: rest.
Proof.
  revert a w. induction sentences as [|s sentences IH]; intros a w Ha;
    [cbn in Ha; lia|].
  cbn [enumerate for_loop]. cbn [length] in Ha.
  destruct (decide (a < start_from)) as [Hlt|Hge].
  - rewrite loop_body_skip by done.
    destruct (IH (a + 1) w) as (sent & rest & Hsent & Hcalls); [lia|].
    exists sent, rest. split; [|done].
    replace (Z.to_nat (start_from - a)) with (S (Z.to_nat (start_from - (a + 1))))
      by lia. done.
  - assert (a = start_from) as -> by lia.
    replace (Z.to_nat (start_from - start_from)) with O by lia.
    rewrite loop_body_run by lia. cbn zeta.
    destruct (result_of s start_from model) as [[[[[] cs] ts] l]|e];
      [|by eexists _, _..].
    destruct (loop _ _ _ _) as [c w'] eqn:Hloop.
    apply for_loop_calls in Hloop as [more Hmore]. cbn in *.
    rewrite Hmore. unfold calls_made. rewrite <- app_assoc. cbn.
    by eexists _, _.
Qed.

(** C5: the start index is the override when there is one, else one
    past the checkpoint, and never below 1; when it exceeds the number
    of sentences [main] returns at once, leaving the world as it was
    (nothing appended, the Corpus file not even created, no file
    written, no call made); otherwise the first call of the run is the
    annotation of the sentence at the start index. *)
Theorem resume_index_resolution override model content gold0 :
  let start_from := resolve_start override gold0 in
  let total := Z.of_nat (length (read_sentences content)) in
  start_from = Z.max 1 (default (get_last_processed_index gold0 + 1) override)
  /\ (start_from > total ->
      run_main override model (Some content) (initial_world gold0)
        = Ok (initial_world gold0))
  /\ (start_from <= total ->
      exists w' sent rest,
        run_main override model (Some content) (initial_world gold0) = Ok w'
        /\ read_sentences content !! Z.to_nat (start_from - 1) = Some sent
        /\ calls w' =
             CallAnnotate start_from sent (model_or_default model) :: rest).
Proof.
  cbn zeta. split; [apply resolve_start_spec|]. split.
  - intros Hgt. unfold main. cbn.
    destruct (Z.gtb_spec (resolve_start override gold0)
                (Z.of_nat (length (read_sentences content)))); [done|lia].
  - intros Hle. unfold main. cbn.
    destruct (Z.gtb_spec (resolve_start override gold0)
                (Z.of_nat (length (read_sentences content)))); [lia|].
    pose proof (resolve_start_spec override gold0) as Hstart.
    destruct (for_loop_first_call (resolve_start override gold0) model
                (read_sentences content) 1
                (open_append (initial_world gold0)))
      as (sent & rest & Hsent & Hcalls); [lia|].
    eexists _, sent, rest. split; [done|]. split; [done|]. exact Hcalls.
Qed.

Lemma enumerate_take a sentences n :
  take n (enumerate a sentences) = enumerate a (take n sentences).
Proof.
  revert a n. induction sentences as [|s sentences IH]; intros a [|n]; try done.
  cbn. by rewrite IH.
Qed.

Lemma enumerate_prefix a sentences pre rest :
  enumerate a sentences = pre ++ rest ->
  pre = enumerate a (take (length pre) sentences).
Proof.
  intros H. rewrite <- enumerate_take, H. by rewrite take_app_length.
Qed.

(** Over a stretch in which every sentence from the start index on is
    committed, the commits carry the consecutive indexes from the start
    index. *)
Lemma commits_consecutive start_from model sentences a :
  Forall (fun item => start_from <= item.1 ->
            exists conllu_str tokens log,
              result_of item.2 item.1 model = Ok (true, conllu_str, tokens, log))
         (enumerate a sentences) ->
  commit_idx <$> commits start_from model (enumerate a sentences)
  = seqZ (Z.max a start_from)
         (a + Z.of_nat (length sentences) - Z.max a start_from).
Proof.
  revert a. induction sentences as [|s sentences IH]; intros a Hall.
  - cbn. rewrite seqZ_nil; [done|lia].
  - cbn [enumerate] in *. apply Forall_cons in Hall as [Hs Hall].
    specialize (IH _ Hall). unfold commits_of in *. cbn [omap list_omap].
    destruct (Z.ltb_spec a start_from) as [Hlt|Hge].
    + rewrite IH. cbn [length]. f_equal; lia.
    + destruct (Hs Hge) as (c & t & l & Hres). cbn in Hres. rewrite Hres.
      cbn [fmap list_fmap]. rewrite IH. cbn [length commit_idx fst].
      rewrite (seqZ_cons (Z.max a start_from)) by lia.
      f_equal; [lia|]. f_equal; lia.
Qed.

Lemma resolve_start_pos override gold0 : 1 <= resolve_start override gold0.
Proof. rewrite resolve_start_spec. lia. Qed.


(** A Record the validator passed is made of whole lines. *)
Lemma passed_plain model commit :
  (forall i r log, validate_conllu i r = Ok (true, log) ->
                   header_values (Some r) = []) ->
  passed model commit -> closed_text commit.2 /\ header_values (Some commit.2) = [].
Proof.
  destruct commit as [[i sent] r]. intros Hval (tokens & log & _ & Hconv & Hok).
  cbn. split; [|by eapply Hval].
  apply tokens_to_conllu_ok in Hconv as (ls & _ & ->). right. by eexists.
Qed.



(** ** How a run ends *)

Lemma called_all start_from model a sentences :
  start_from <= a ->
  called start_from model (enumerate a sentences)
  = flat_map (fun item => made item.2 item.1 model) (enumerate a sentences).
Proof.
  revert a. induction sentences as [|s sentences IH]; intros a Ha; [done|].
  cbn [enumerate]. unfold calls_of in *. cbn [flat_map fst snd].
  destruct (Z.ltb_spec a start_from); [lia|]. f_equal. apply IH. lia.
Qed.

Lemma called_drop start_from model a sentences :
  a <= start_from ->
  called start_from model (enumerate a sentences)
  = flat_map (fun item => made item.2 item.1 model)
      (enumerate start_from (drop (Z.to_nat (start_from - a)) sentences)).
Proof.
  revert a. induction sentences as [|s sentences IH]; intros a Ha.
  - by rewrite drop_nil.
  - destruct (decide (a = start_from)) as [->|Hne].
    + replace (Z.to_nat (start_from - start_from)) with O by lia.
      apply called_all. lia.
    + replace (Z.to_nat (start_from - a))
        with (S (Z.to_nat (start_from - (a + 1)))) by lia.
      cbn [enumerate drop]. rewrite <- IH by lia.
      unfold calls_of. cbn [flat_map].
      destruct (Z.ltb_spec a start_from); [done|lia].
Qed.

Lemma called_window start_from model m sentences :
  1 <= start_from ->
  called start_from model (enumerate 1 (take m sentences))
  = flat_map (fun item => made item.2 item.1 model)
      (window start_from (m - Z.to_nat (start_from - 1)) sentences).
Proof.
  intros Hstart. rewrite called_drop by done. unfold window.
  by rewrite <- skipn_firstn_comm.
Qed.

Lemma called_snoc start_from model pre i sent :
  start_from <= i ->
  called start_from model (pre ++ [(i, sent)])
  = called start_from model pre ++ made sent i model.
Proof.
  intros Hi. unfold calls_of. rewrite flat_map_app. cbn [flat_map].
  destruct (Z.ltb_spec i start_from); [lia|]. by rewrite app_nil_r.
Qed.

(** The outcome of a run: the commits it made, the window of sentences
    it worked on, and either no diagnostic file, every sentence from
    the start index on being committed, or the diagnostic files of the
    first sentence that is not committed. *)
Lemma run_outcome override model content gold0 w' :
  run_main override model (Some content) (initial_world gold0) = Ok w' ->
  let sentences := read_sentences content in
  let start_from := resolve_start override gold0 in
  let total := Z.of_nat (length sentences) in
  exists cs n,
    gold_text w' = default "" gold0 +:+ blocks cs
    /\ (start_from <= total -> is_Some (gold w'))
    /\ commit_idx <$> cs = seqZ start_from (Z.of_nat (length cs))
    /\ Forall (passed model) cs
    /\ Forall (fun commit => commit.1.2 ∈ sentences) cs
    /\ calls w'
       = flat_map (fun item => made item.2 item.1 model)
           (window start_from n sentences)
    /\ ((log_writes w' = [] /\ n = length cs
         /\ start_from + Z.of_nat (length cs) = Z.max start_from (total + 1))
        \/ (exists sent,
              let k := start_from + Z.of_nat (length cs) in
              k <= total /\ n = S (length cs)
              /\ sentences !! Z.to_nat (k - 1) = Some sent
              /\ ((exists e,
                      result_of sent k model = Raise e
                      /\ log_writes w' = [(exception_name k, report k sent e)])
                  \/ (exists conllu_str tokens v_log,
                        result_of sent k model
                          = Ok (false, conllu_str, tokens, v_log)
                        /\ log_writes w' =
                             [(json_name k, json_dumps tokens);
                              (conllu_name k, conllu_str);
                              (val_name k, v_log)])))).
Proof.
  intros Hrun. cbn zeta.
  pose proof (resolve_start_pos override gold0) as Hpos.
  apply main_cases in Hrun. cbn zeta in Hrun.
  set (sentences := read_sentences content) in *.
  set (start_from := resolve_start override gold0) in *.
  set (total := Z.of_nat (length sentences)) in *.
  destruct Hrun as [[Hgt ->] | [Hle [c Hloop]]].
  { exists [], O. cbn. rewrite str_app_nil_r.
    split; [done|]. split; [lia|]. split; [done|]. split; [done|].
    split; [done|]. split; [done|]. left. split; [done|]. split; [done|]. lia. }
  apply run_analysis in Hloop as (pre & Hgold & _ & Hall & Hcases).
  (* the sentences the loop has passed, and those it has met *)
  assert (exists m brk,
             pre = enumerate 1 (take (m - brk) sentences)
             /\ (m <= length sentences)%nat /\ (brk <= m)%nat
             /\ calls w' = called start_from model (enumerate 1 (take m sentences))
             /\ ((brk = O /\ m = length sentences /\ log_writes w' = [])
                 \/ (brk = 1%nat /\ exists sent,
                       sentences !! (m - 1)%nat = Some sent
                       /\ start_from <= Z.of_nat m
                       /\ ((exists e,
                               result_of sent (Z.of_nat m) model = Raise e
                               /\ log_writes w'
                                  = [(exception_name (Z.of_nat m),
                                      report (Z.of_nat m) sent e)])
                           \/ (exists conllu_str tokens v_log,
                                 result_of sent (Z.of_nat m) model
                                   = Ok (false, conllu_str, tokens, v_log)
                                 /\ log_writes w' =
                                      [(json_name (Z.of_nat m), json_dumps tokens);
                                       (conllu_name (Z.of_nat m), conllu_str);
                                       (val_name (Z.of_nat m), v_log)])))))
    as (m & brk & Hpre & Hm & Hbrk & Hcalls & Hend).
  { destruct Hcases as [(-> & -> & Hlog & Hcalls)
                       | (-> & sent & post & Heq & Hsent & Hi & Hcalls & Hlog)].
    - exists (length sentences), O. rewrite Nat.sub_0_r, firstn_all.
      split; [done|]. split; [done|]. split; [lia|]. split; [done|]. by left.
    - cbn zeta in Heq, Hi, Hcalls, Hlog.
      pose proof (lookup_lt_Some _ _ _ Hsent) as Hlt.
      exists (S (length pre)), 1%nat.
      replace (S (length pre) - 1)%nat with (length pre) by lia.
      replace (Z.of_nat (S (length pre))) with (1 + Z.of_nat (length pre)) by lia.
      split; [by eapply enumerate_prefix|]. split; [lia|]. split; [lia|].
      split.
      + rewrite Hcalls, <- called_snoc by done. f_equal.
        rewrite cons_middle, app_assoc in Heq.
        rewrite <- enumerate_take, Heq.
        symmetry. apply take_app_length'.
        rewrite length_app. cbn [length]. lia.
      + right. split; [done|]. by exists sent. }
  set (cs := commits start_from model pre) in *.
  assert (commit_idx <$> cs
          = seqZ start_from (1 + Z.of_nat (m - brk) - start_from)) as Hidx.
  { unfold cs. rewrite Hpre. rewrite Hpre in Hall.
    rewrite (commits_consecutive _ _ _ _ Hall), length_take.
    replace (Z.max 1 start_from) with start_from by lia.
    f_equal. lia. }
  assert (Z.of_nat (length cs) = Z.max 0 (1 + Z.of_nat (m - brk) - start_from))
    as Hlen.
  { rewrite <- (length_fmap commit_idx), Hidx, length_seqZ. lia. }
  assert (start_from <= Z.of_nat m) as Hstart_m.
  { destruct Hend as [(-> & -> & _) | (-> & sent & _ & ? & _)]; [|done].
    fold total. lia. }
  assert (Z.of_nat (length cs) = 1 + Z.of_nat (m - brk) - start_from) as Hlen'.
  { destruct Hend as [(-> & _) | (-> & _)]; lia. }
  exists cs, (m - Z.to_nat (start_from - 1))%nat.
  split; [unfold gold_text; by rewrite Hgold|].
  split; [intros _; by rewrite Hgold|].
  split; [by rewrite Hidx, Hlen'|].
  split; [apply commits_passed|].
  split.
  { apply Forall_forall. intros commit Hcommit.
    apply commits_from_items in Hcommit as [Hitem _].
    rewrite Hpre in Hitem.
    apply list_elem_of_lookup in Hitem as [j Hj].
    apply enumerate_lookup in Hj as [_ Hj].
    rewrite lookup_take_Some in Hj. destruct Hj as [Hj _].
    by eapply list_elem_of_lookup_2. }
  split; [by rewrite Hcalls, called_window|].
  destruct Hend as [(-> & -> & Hlog) | (-> & sent & Hsent & _ & Hlog)].
  - left. split; [done|]. split; [lia|]. fold total. lia.
  - right. exists sent. cbn zeta.
    replace (start_from + Z.of_nat (length cs)) with (Z.of_nat m) by lia.
    split; [lia|]. split; [lia|].
    replace (Z.to_nat (Z.of_nat m - 1)) with (m - 1)%nat by lia.
    split; [done|]. exact Hlog.
Qed.

Lemma main_total override model content w :
  exists w', run_main override model (Some content) w = Ok w'.
Proof. unfold main. destruct (_ >? _); by eexists. Qed.

(** X9: the calls of a run are those of a window of consecutive
    sentences that begins at the start index, in order: for each
    sentence one call of the annotation service with the sentence and
    the model, followed by one call of the validator on the conversion
    of the reply when the service replied and the reply converted.  So
    no sentence below the start index is sent to the service, no
    sentence is sent twice, and no call is made for a sentence beyond
    the corpus input. *)
Theorem call_trace override model content gold0 :
  let sentences := read_sentences content in
  let start_from := resolve_start override gold0 in
  exists w' n,
    run_main override model (Some content) (initial_world gold0) = Ok w'
    /\ calls w'
       = flat_map (fun item => made item.2 item.1 model)
           (window start_from n sentences)
    /\ window start_from n sentences
       = take n (drop (Z.to_nat (start_from - 1)) (enumerate 1 sentences))
    /\ Forall (fun c => start_from <= call_idx c <= Z.of_nat (length sentences))
              (calls w').
Proof.
  cbn zeta.
  destruct (main_total override model content (initial_world gold0)) as [w' Hrun].
  pose proof (resolve_start_pos override gold0) as Hpos.
  destruct (run_outcome _ _ _ _ _ Hrun) as (cs & n & _ & _ & _ & _ & _ & Hcalls & _).
  exists w', n. split; [done|]. split; [done|].
  set (sentences := read_sentences content) in *.
  set (start_from := resolve_start override gold0) in *.
  assert (forall a d (l : list string),
             drop d (enumerate a l) = enumerate (a + Z.of_nat d) (drop d l))
    as Hdrop.
  { intros a d l. revert a d. induction l as [|s l IH]; intros a [|d].
    - done.
    - done.
    - cbn [drop]. by replace (a + Z.of_nat 0) with a by lia.
    - cbn [enumerate drop]. rewrite IH.
      by replace (a + 1 + Z.of_nat d) with (a + Z.of_nat (S d)) by lia. }
  assert (window start_from n sentences
          = take n (drop (Z.to_nat (start_from - 1)) (enumerate 1 sentences)))
    as Hwin.
  { unfold window. rewrite Hdrop, enumerate_take. f_equal. lia. }
  split; [done|].
  rewrite Hcalls, Hwin. apply Forall_forall. intros c Hc.
  apply list_elem_of_In, in_flat_map in Hc as ([i sent] & Hitem & Hc).
  apply list_elem_of_In in Hitem, Hc. cbn [fst snd] in Hc.
  apply made_idx in Hc as ->.
  apply list_elem_of_lookup in Hitem as [j Hj].
  apply lookup_take_Some in Hj as [Hj _].
  rewrite lookup_drop in Hj. apply enumerate_lookup in Hj as [-> Hj].
  apply lookup_lt_Some in Hj. lia.
Qed.


(** The checkpoint after commits numbered upward from one past the
    checkpoint. *)
Lemma checkpoint_of_commits model content (g : string) cs :
  closed_text g ->
  (forall i r log, validate_conllu i r = Ok (true, log) ->
                   header_values (Some r) = []) ->
  Forall (passed model) cs ->
  Forall (fun commit => commit.1.2 ∈ read_sentences content) cs ->
  commit_idx <$> cs
  = seqZ (get_last_processed_index (Some g) + 1) (Z.of_nat (length cs)) ->
  get_last_processed_index (Some (g +:+ blocks cs))
  = get_last_processed_index (Some g) + Z.of_nat (length cs).
Proof.
  intros Hclosed Hval Hpassed Hsents Hidx.
  assert (Forall plain_commit cs) as Hplain.
  { apply Forall_forall. intros commit Hc.
    rewrite Forall_forall in Hpassed, Hsents.
    destruct (passed_plain model commit Hval (Hpassed _ Hc)) as [? ?].
    split; [|done]. by eapply read_sentences_no_break, Hsents. }
  unfold get_last_processed_index. rewrite !scan_lines_max.
  change (omap header_value (readlines (read_text ?x)))
    with (header_values (Some x)).
  rewrite blocks_header_values by done.
  rewrite Hidx. unfold get_last_processed_index. rewrite scan_lines_max.
  change (omap header_value (readlines (read_text ?x)))
    with (header_values (Some x)).
  apply foldr_max_seqZ.
Qed.

Lemma main_first_call override model content gold0 :
  resolve_start override gold0 <= Z.of_nat (length (read_sentences content)) ->
  exists w' sent rest,
    run_main override model (Some content) (initial_world gold0) = Ok w'
    /\ read_sentences content !! Z.to_nat (resolve_start override gold0 - 1)
       = Some sent
    /\ calls w'
       = CallAnnotate (resolve_start override gold0) sent (model_or_default model)
         :: rest.
Proof.
  intros Hle. unfold main. cbn.
  destruct (Z.gtb_spec (resolve_start override gold0)
              (Z.of_nat (length (read_sentences content)))); [lia|].
  pose proof (resolve_start_pos override gold0) as Hpos.
  destruct (for_loop_first_call (resolve_start override gold0) model
              (read_sentences content) 1
              (open_append (initial_world gold0)))
    as (sent & rest & Hsent & Hcalls); [lia|].
  eexists _, sent, rest. split; [done|]. split; [done|]. exact Hcalls.
Qed.

(** The commits of a run are plain when the validator passes no Record
    holding a header line. *)
Lemma commits_plain model content cs :
  (forall i r log, validate_conllu i r = Ok (true, log) ->
                   header_values (Some r) = []) ->
  Forall (passed model) cs ->
  Forall (fun commit => commit.1.2 ∈ read_sentences content) cs ->
  Forall plain_commit cs.
Proof.
  intros Hval Hpassed Hsents. apply Forall_forall. intros commit Hc.
  rewrite Forall_forall in Hpassed, Hsents.
  destruct (passed_plain model commit Hval (Hpassed _ Hc)) as [? ?].
  split; [|done]. by eapply read_sentences_no_break, Hsents.
Qed.

(** ** The Corpus, write by write *)

Abbreviation body_steps :=
  (loop_body_steps annotate_sentence_with_llm validate_conllu json_dumps str_exc).
Abbreviation loop_steps :=
  (for_loop_steps annotate_sentence_with_llm validate_conllu json_dumps str_exc).
Abbreviation steps_of_main :=
  (main_steps annotate_sentence_with_llm validate_conllu json_dumps str_exc).
Abbreviation whole :=
  (whole_blocks annotate_sentence_with_llm validate_conllu).
Abbreviation beginning :=
  (blocks_and_beginning annotate_sentence_with_llm validate_conllu).

Lemma last_cons_default {A} (x : A) (l : list A) d d' :
  List.last (x :: l) d = List.last (x :: l) d'.
Proof.
  revert x. induction l as [|y l IH]; intros x; [done|].
  change (List.last (y :: l) d = List.last (y :: l) d'). apply IH.
Qed.

Lemma last_app_last {A} (l l' : list A) d :
  List.last (l ++ l') d = List.last l' (List.last l d).
Proof.
  revert d. induction l as [|x l IH]; intros d; [done|].
  destruct l as [|y l].
  - destruct l' as [|z l']; [done|].
    change (List.last (z :: l') d = List.last (z :: l') x).
    apply last_cons_default.
  - change (List.last (y :: l ++ l') d = List.last l' (List.last (y :: l) d)).
    apply IH.
Qed.

Lemma loop_body_steps_last start_from model item w :
  body start_from model item w
  = ((body_steps start_from model item w).1,
     List.last (body_steps start_from model item w).2 w).
Proof.
  destruct item as [i sent]. unfold loop_body, loop_body_steps.
  destruct (i <? start_from); [done|].
  destruct (annotate_one sent i model w) as [[[[[[] c] t] l]|e] w1]; done.
Qed.

Lemma for_loop_steps_last start_from model items w :
  (loop start_from model items w).2
  = List.last (loop_steps start_from model items w) w.
Proof.
  revert w. induction items as [|item items IH]; intros w; [done|].
  cbn [for_loop for_loop_steps]. rewrite loop_body_steps_last.
  destruct (body_steps start_from model item w) as [[] ws]; cbn [fst snd].
  - by rewrite IH, last_app_last.
  - done.
Qed.

Lemma body_steps_inv start_from model i sent w g cs :
  gold_text w = g +:+ blocks cs -> Forall (passed model) cs ->
  Forall (fun w' => whole model g w' \/ beginning model g w')
         (body_steps start_from model (i, sent) w).2
  /\ ((body_steps start_from model (i, sent) w).1 = Next ->
      exists cs',
        gold_text (List.last (body_steps start_from model (i, sent) w).2 w)
        = g +:+ blocks cs'
        /\ Forall (passed model) cs').
Proof.
  intros Hg Hcs. unfold loop_body_steps.
  destruct (i <? start_from); [split; [constructor|by exists cs]|].
  rewrite annotate_one_sentence_spec.
  assert (forall lw c, whole model g (World (gold w) lw c)) as Hsame.
  { intros lw c. by exists cs. }
  destruct (result_of sent i model) as [[[[[] r] t] l]|e] eqn:Hres;
    cbn [fst snd].
  - apply result_true_passed in Hres.
    assert (Forall (passed model) (cs ++ [(i, sent, r)])) as Hcs'
      by (apply Forall_app; split; [done|by constructor]).
    unfold append_block_steps, gold_write. cbn [gold log_writes calls default].
    fold (gold_text w). rewrite Hg. split.
    + constructor; [by left|].
      constructor.
      { right.
        exists cs, (i, sent, r),
          ("# sent_id = auto-" +:+ Py.str_of_int i +:+ Py.nl).
        split; [|split; [done|by left]].
        unfold gold_text. cbn. by rewrite !str_app_assoc. }
      constructor.
      { right.
        exists cs, (i, sent, r),
          (("# sent_id = auto-" +:+ Py.str_of_int i +:+ Py.nl)
           +:+ ("# text = " +:+ sent +:+ Py.nl)).
        split; [|split; [done|right; by left]].
        unfold gold_text. cbn. by rewrite !str_app_assoc. }
      constructor.
      { right.
        exists cs, (i, sent, r),
          (("# sent_id = auto-" +:+ Py.str_of_int i +:+ Py.nl)
           +:+ ("# text = " +:+ sent +:+ Py.nl) +:+ r).
        split; [|split; [done|right; by right]].
        unfold gold_text. cbn. by rewrite !str_app_assoc. }
      constructor; [|constructor].
      left. exists (cs ++ [(i, sent, r)]). split; [|done].
      unfold gold_text. cbn. rewrite blocks_app. cbn [blocks block].
      by rewrite !str_app_assoc, str_app_nil_r.
    + intros _. exists (cs ++ [(i, sent, r)]). split; [|done].
      unfold gold_text. cbn. rewrite blocks_app. cbn [blocks block].
      by rewrite !str_app_assoc, str_app_nil_r.
  - split; [|done]. unfold write_text. cbn [gold log_writes calls].
    repeat (constructor; [by left|]). constructor.
  - split; [|done]. unfold write_text. cbn [gold log_writes calls].
    repeat (constructor; [by left|]). constructor.
Qed.

Lemma for_loop_steps_inv start_from model items w g cs :
  gold_text w = g +:+ blocks cs -> Forall (passed model) cs ->
  Forall (fun w' => whole model g w' \/ beginning model g w')
         (loop_steps start_from model items w).
Proof.
  revert w cs. induction items as [|[i sent] items IH]; intros w cs Hg Hcs;
    [constructor|].
  cbn [for_loop_steps].
  destruct (body_steps_inv start_from model i sent w g cs Hg Hcs) as [Hws Hnext].
  destruct (body_steps start_from model (i, sent) w) as [[] ws]; cbn [fst snd] in *;
    [|done].
  destruct (Hnext eq_refl) as (cs' & Hg' & Hcs').
  apply Forall_app. split; [done|]. by eapply IH.
Qed.

Lemma main_steps_spec override model content gold0 :
  exists ws,
    steps_of_main override model (Some content) (initial_world gold0) = Ok ws
    /\ run_main override model (Some content) (initial_world gold0)
       = Ok (List.last ws (initial_world gold0))
    /\ Forall (fun w => whole model (default "" gold0) w
                        \/ beginning model (default "" gold0) w) ws.
Proof.
  unfold main_steps, main. cbn [gold initial_world].
  assert (whole model (default "" gold0) (initial_world gold0)) as Hstart.
  { exists []. split; [|done]. unfold gold_text. cbn. by rewrite str_app_nil_r. }
  destruct (_ >? _).
  - eexists. split; [done|]. split; [done|]. constructor; [by left|constructor].
  - eexists. split; [done|]. split.
    + rewrite for_loop_steps_last.
      set (w0 := open_append (initial_world gold0)).
      destruct (loop_steps _ model _ w0) as [|w1 ws]; [done|].
      f_equal.
      change (List.last (w1 :: ws) w0
              = List.last (w1 :: ws) (initial_world gold0)).
      apply last_cons_default.
    + constructor; [by left|]. constructor.
      { left. exists []. split; [|done]. unfold gold_text. cbn.
        by rewrite str_app_nil_r. }
      apply (for_loop_steps_inv _ _ _ _ _ []); [|done].
      unfold gold_text. cbn. by rewrite str_app_nil_r.
Qed.

(** Beginnings of texts. *)
Lemma str_app_inv_head (a b c : string) : a +:+ b = a +:+ c -> b = c.
Proof.
  induction a as [|x a IH]; [done|]. rewrite !str_app_cons.
  intros [= H]. by apply IH.
Qed.

Lemma prefix_app_cases (f a b : string) :
  string_prefix f (a +:+ b) ->
  string_prefix f a \/ exists f', f = a +:+ f' /\ string_prefix f' b.
Proof.
  revert f. induction a as [|x a IH]; intros f [rest Hrest].
  - right. exists f. split; [done|]. by exists rest.
  - destruct f as [|y f]; [left; by exists (String x a)|].
    rewrite !str_app_cons in Hrest. injection Hrest as <- Hrest.
    destruct (IH f) as [[r ->] | (f' & -> & Hf')]; [by exists rest| |].
    + left. exists r. by rewrite str_app_cons.
    + right. exists f'. by rewrite str_app_cons.
Qed.

Lemma prefix_of_blocks cs (f : string) :
  string_prefix f (blocks cs) ->
  exists cs1 cs2 part,
    cs = cs1 ++ cs2 /\ f = blocks cs1 +:+ part
    /\ (part = "" \/ exists c, c ∈ cs2 /\ string_prefix part (block c)).
Proof.
  revert f. induction cs as [|c cs IH]; intros f Hf.
  - destruct Hf as [rest Hrest]. exists [], [], "". cbn in *.
    destruct f; [|done]. split; [done|]. split; [done|]. by left.
  - cbn [blocks] in Hf. apply prefix_app_cases in Hf as [Hf | (f' & -> & Hf')].
    + exists [], (c :: cs), f. split; [done|]. split; [done|].
      right. exists c. split; [apply list_elem_of_here|done].
    + destruct (IH f' Hf') as (cs1 & cs2 & part & -> & -> & Hpart).
      exists (c :: cs1), cs2, part. split; [done|]. split.
      * cbn [blocks]. by rewrite str_app_assoc.
      * done.
Qed.

(** C1 (amended): the text a run writes to the Corpus is made of blocks
    of Records the validator passed, and of nothing else.  After any
    number of whole sentences of the input, and at the end of [main],
    the Corpus is the text it held before the run followed by whole
    blocks, each the block of a sentence whose Record is the conversion
    of the service's reply and was passed by the validator.  Between
    the four writes of a commit the last block is incomplete: the text
    written is then whole blocks followed by the header, or the header
    and the text line, or these and the Record, of one more sentence
    whose Record was passed.  The writes being buffered, the file holds
    at any time a beginning of the text written: whole blocks of passed
    Records followed by a beginning of the block of a passed Record. *)
Theorem corpus_validation_invariant override model content gold0 :
  (forall n,
      exists cs,
        gold (upto n override model content (initial_world gold0)).2
          = Some (default "" gold0 +:+ blocks cs)
        /\ Forall (passed model) cs)
  /\ (forall w',
        run_main override model (Some content) (initial_world gold0) = Ok w' ->
        exists cs,
          gold_text w' = default "" gold0 +:+ blocks cs
          /\ Forall (passed model) cs)
  /\ (exists ws,
        steps_of_main override model (Some content) (initial_world gold0)
          = Ok ws
        /\ run_main override model (Some content) (initial_world gold0)
           = Ok (List.last ws (initial_world gold0))
        /\ Forall (fun w => whole model (default "" gold0) w
                            \/ beginning model (default "" gold0) w) ws)
  /\ (forall w' f,
        run_main override model (Some content) (initial_world gold0) = Ok w' ->
        string_prefix (default "" gold0) f ->
        string_prefix f (gold_text w') ->
        exists cs part,
          f = default "" gold0 +:+ blocks cs +:+ part
          /\ Forall (passed model) cs
          /\ (part = ""
              \/ exists c, passed model c /\ string_prefix part (block c))).
Proof.
  assert (forall w',
             run_main override model (Some content) (initial_world gold0) = Ok w' ->
             exists cs,
               gold_text w' = default "" gold0 +:+ blocks cs
               /\ Forall (passed model) cs) as Hend.
  { intros w' H. apply main_cases in H as [[_ ->] | (_ & c & H)].
    + exists []. split; [|done]. unfold gold_text. cbn. by rewrite str_app_nil_r.
    + destruct (for_loop_gold _ _ _ _ _ _ H) as (cs & Hg & _ & Hp & _).
      exists cs. done. }
  split; [|split; [exact Hend|split; [apply main_steps_spec|]]].
  - intros n. unfold run_upto.
    destruct (loop _ _ _ _) as [c w'] eqn:H.
    destruct (for_loop_gold _ _ _ _ _ _ H) as (cs & Hg & Hs & Hp & _).
    exists cs. split; [|done]. cbn in *.
    destruct Hs as [g' Hg']; [by eexists|]. unfold gold_text in Hg.
    rewrite Hg' in *. cbn in Hg. by subst.
  - intros w' f Hrun [p ->] [rest Hrest].
    destruct (Hend w' Hrun) as (cs & Hg & Hcs). rewrite Hg in Hrest.
    rewrite str_app_assoc in Hrest. apply str_app_inv_head in Hrest.
    destruct (prefix_of_blocks cs p) as (cs1 & cs2 & part & -> & -> & Hpart);
      [by exists rest|].
    apply Forall_app in Hcs as [Hcs1 Hcs2].
    exists cs1, part. split; [done|]. split; [done|].
    destruct Hpart as [->|(c & Hc & Hpre)]; [by left|right].
    exists c. split; [|done]. rewrite Forall_forall in Hcs2. by apply Hcs2.
Qed.

End OrchestratorProperties.

(** ** The small run, as instances of the theorems above *)

Lemma demo_main_eq override gold0 w :
  demo_main override gold0 = w ->
  resolve_start override gold0 <= 4 ->
  main demo_service demo_validator demo_json demo_str_exc
       override "" (Some four_sentences) (initial_world gold0) = Ok w.
Proof.
  unfold demo_main, main. intros <- Hle.
  change (length (read_sentences four_sentences)) with 4%nat. cbn [gold initial_world].
  destruct (Z.gtb_spec (resolve_start override gold0) (Z.of_nat 4)); [lia|done].
Qed.

Lemma corpus_validation_invariant_witness :
  (exists cs,
      gold_text (demo_main None None) = "" +:+ blocks cs
      /\ Forall (passed_validation demo_service demo_validator "") cs)
  /\ (exists cs part,
        "# sent_id = auto-1" +:+ Py.nl +:+ "# te"
        = default "" None +:+ blocks cs +:+ part
        /\ Forall (passed_validation demo_service demo_validator "") cs
        /\ (part = ""
            \/ exists c,
                 passed_validation demo_service demo_validator "" c
                 /\ string_prefix part (block c))).
Proof.
  destruct (corpus_validation_invariant demo_service demo_validator
              demo_json demo_str_exc None "" four_sentences None)
    as (_ & Hend & _ & Hfile).
  assert (main demo_service demo_validator demo_json demo_str_exc None ""
               (Some four_sentences) (initial_world None)
          = Ok (demo_main None None)) as Hrun.
  { apply demo_main_eq; [reflexivity|]. vm_compute. discriminate. }
  split; [by apply Hend|].
  apply (Hfile (demo_main None None)); [exact Hrun| |].
  - eexists. reflexivity.
  - eexists. vm_compute. reflexivity.
Defined.



Lemma resume_index_resolution_witness :
  main demo_service demo_validator demo_json demo_str_exc
       None "" (Some four_sentences) (initial_world (Some corpus_3_1_7))
    = Ok (initial_world (Some corpus_3_1_7))
  /\ exists w' sent rest,
       main demo_service demo_validator demo_json demo_str_exc
            (Some 2) "" (Some four_sentences) (initial_world (Some corpus_3_1_7))
         = Ok w'
       /\ read_sentences four_sentences
            !! Z.to_nat (resolve_start (Some 2) (Some corpus_3_1_7) - 1) = Some sent
       /\ calls w' =
            CallAnnotate (resolve_start (Some 2) (Some corpus_3_1_7)) sent
                         (model_or_default "") :: rest.
Proof.
  split.
  - apply (resume_index_resolution demo_service demo_validator demo_json
             demo_str_exc None "" four_sentences (Some corpus_3_1_7)).
    vm_compute. reflexivity.
  - apply (resume_index_resolution demo_service demo_validator demo_json
             demo_str_exc (Some 2) "" four_sentences (Some corpus_3_1_7)).
    vm_compute. discriminate.
Defined.



(** The two conditions are needed.  On a Corpus whose last line is not
    closed the first header written is glued to that line and is not
    read. *)
Lemma unclosed_corpus_breaks_numbering :
  ~ commit_ids_follow_corpus demo_service demo_validator demo_json
      demo_str_exc None "" four_sentences (Some "# note").
Proof.
  intros H.
  specialize (H 2 (World (Some ("# note" +:+ block (1, "Kitob", kitob_line +:+ Py.nl)))
                         [] [CallAnnotate 1 "Kitob" "gpt-5-mini";
                             CallValidate 1 (kitob_line +:+ Py.nl)])).
  assert (2 = get_last_processed_index
                (Some ("# note" +:+ block (1, "Kitob", kitob_line +:+ Py.nl))) + 1)
    as Habs.
  { apply H. exists 1%nat, "Ikki kitob", (kitob_line +:+ Py.nl), [kitob],
      "validator log".
    split; [by vm_compute|]. split; [by vm_compute|].
    split; [|by vm_compute]. vm_compute. discriminate. }
  vm_compute in Habs. discriminate.
Qed.

(** And a Record holding a header line raises the greatest number. *)
Lemma header_in_record_breaks_numbering :
  ~ commit_ids_follow_corpus smuggling_service demo_validator demo_json
      demo_str_exc None "" four_sentences None.
Proof.
  intros H.
  destruct (run_upto smuggling_service demo_validator demo_json demo_str_exc
              1 None "" four_sentences (initial_world None)) as [c w] eqn:Hrun.
  specialize (H 2 w).
  assert (2 = get_last_processed_index (gold w) + 1) as Habs.
  { apply H. vm_compute in Hrun. injection Hrun as <- <-.
    eexists 1%nat, "Ikki kitob", _, _, "validator log".
    split; [by vm_compute|]. split; [by vm_compute|].
    split; [|by vm_compute]. vm_compute. discriminate. }
  vm_compute in Hrun. injection Hrun as <- <-.
  vm_compute in Habs. discriminate.
Qed.

(** * Further properties *)

(** ** The Record Converter *)

Lemma same_fields_sym (t t' : token) : same_fields t t' -> same_fields t' t.
Proof. intros H key Hkey. symmetry. by apply H. Qed.

Lemma same_fields_get (t t' : token) key d :
  same_fields t t' -> key ∈ converter_keys -> get t key d = get t' key d.
Proof. intros H Hkey. unfold get. by rewrite (H key Hkey). Qed.

Lemma token_line_same_fields (t t' : token) line :
  same_fields t t' -> token_line t = Ok line -> token_line t' = Ok line.
Proof.
  intros Hsame Hline.
  destruct (converts_carries_both t) as [[vid Hid] [vform Hform]]; [by eexists|].
  assert (t' !! "ID" = Some vid) as Hid'.
  { rewrite <- Hid. symmetry. apply Hsame. unfold converter_keys.
    apply list_elem_of_here. }
  assert (t' !! "FORM" = Some vform) as Hform'.
  { rewrite <- Hform. symmetry. apply Hsame. unfold converter_keys.
    apply list_elem_of_further, list_elem_of_here. }
  rewrite (token_line_both _ _ _ Hid Hform) in Hline.
  rewrite (token_line_both _ _ _ Hid' Hform').
  rewrite <- !(same_fields_get t t') by
    (done || unfold converter_keys;
     repeat first [apply list_elem_of_here | apply list_elem_of_further]).
  done.
Qed.

(** X1: the converter reads six keys only.  Two sequences whose
    elements agree on these keys convert to the same Record, or both
    fail; so a key such as "HEAD", added or changed, is of no
    consequence for the Record. *)
Theorem other_keys_ignored :
  (forall (t : token) key v,
      key ∉ converter_keys ->
      same_fields (<[key := v]> t) t /\ same_fields (delete key t) t)
  /\ (forall tokens tokens',
        Forall2 same_fields tokens tokens' ->
        (forall out, tokens_to_conllu tokens = Ok out <->
                     tokens_to_conllu tokens' = Ok out)
        /\ (raises (tokens_to_conllu tokens) <->
            raises (tokens_to_conllu tokens'))).
Proof.
  split.
  - intros t key v Hkey. split; intros k Hk.
    + apply lookup_insert_ne. by intros ->.
    + apply lookup_delete_ne. by intros ->.
  - intros tokens tokens' Hsame.
    assert (forall ts ts', Forall2 same_fields ts ts' ->
              forall out, tokens_to_conllu ts = Ok out ->
                          tokens_to_conllu ts' = Ok out) as Hdir.
    { intros ts ts' H out Hout.
      apply tokens_to_conllu_ok in Hout as (ls & Hls & ->).
      apply tokens_to_conllu_ok. exists ls. split; [|done].
      clear -H Hls. revert ls Hls.
      induction H as [|t t' ts ts' Ht _ IH]; intros ls Hls.
      - apply Forall2_nil_inv_l in Hls as ->. constructor.
      - apply Forall2_cons_inv_l in Hls as (l & ls' & Hl & Hls & ->).
        constructor; [by eapply token_line_same_fields|by apply IH]. }
    assert (Forall2 same_fields tokens' tokens) as Hsame'.
    { apply Forall2_flip. eapply Forall2_impl; [exact Hsame|].
      intros. by apply same_fields_sym. }
    assert (forall out, tokens_to_conllu tokens = Ok out <->
                        tokens_to_conllu tokens' = Ok out) as Hiff.
    { intros out. split; by apply Hdir. }
    split; [done|]. unfold raises.
    destruct (tokens_to_conllu tokens) as [out|e] eqn:H1,
             (tokens_to_conllu tokens') as [out'|e'] eqn:H2.
    + split; intros [? [=]].
    + pose proof (proj1 (Hiff out) eq_refl). done.
    + pose proof (proj2 (Hiff out') eq_refl). done.
    + split; eauto.
Qed.

Lemma other_keys_ignored_witness :
  same_fields (<["HEAD" := VStr "root"]> kitob) kitob
  /\ (tokens_to_conllu [<["HEAD" := VStr "root"]> kitob]
        = Ok (kitob_line +:+ Py.nl) <->
      tokens_to_conllu [kitob] = Ok (kitob_line +:+ Py.nl)).
Proof.
  destruct other_keys_ignored as [Hkey Hseq]. split.
  - apply Hkey. unfold converter_keys. intros H.
    repeat (apply elem_of_cons in H as [H | H]; [discriminate|]).
    by apply elem_of_nil in H.
  - apply (Hseq [<["HEAD" := VStr "root"]> kitob] [kitob]).
    constructor; [|constructor]. apply Hkey. unfold converter_keys. intros H.
    repeat (apply elem_of_cons in H as [H | H]; [discriminate|]).
    by apply elem_of_nil in H.
Defined.

(** X2: a key that is present is never defaulted, even when its value
    is null.  A null LEMMA, UPOS or DEPREL is printed as the text
    "None" (the lemma is then not the lowercased surface form), and a
    null HEAD ID makes the conversion raise, although a missing HEAD ID
    gives 0. *)
Theorem present_null_not_defaulted (t : token) vid vform tid :
  t !! "ID" = Some vid -> t !! "FORM" = Some vform -> py_int vid = Ok tid ->
  (t !! "HEAD ID" = Some VNone -> token_line t = Raise (IntConversion VNone))
  /\ (t !! "HEAD ID" = None ->
      t !! "LEMMA" = Some VNone -> t !! "UPOS" = Some VNone ->
      t !! "DEPREL" = Some VNone ->
      token_line t =
        Ok (Py.join Py.tab
              [Py.str_of_int tid; py_str vform; "None"; "None"; "_"; "_";
               "0"; "None"; "_"; "_"])).
Proof.
  intros Hid Hform Hint. rewrite (token_line_both _ _ _ Hid Hform), Hint.
  unfold get. split.
  - intros ->. reflexivity.
  - intros -> -> -> ->. reflexivity.
Qed.

Lemma present_null_not_defaulted_witness :
  token_line {[ "ID" := VInt 1; "FORM" := VStr "Kitob"; "HEAD ID" := VNone ]}
    = Raise (IntConversion VNone)
  /\ token_line {[ "ID" := VInt 1; "FORM" := VStr "Kitob"; "LEMMA" := VNone;
                   "UPOS" := VNone; "DEPREL" := VNone ]}
     = Ok (Py.join Py.tab
             ["1"; "Kitob"; "None"; "None"; "_"; "_"; "0"; "None"; "_"; "_"]).
Proof.
  split.
  - refine (proj1 (present_null_not_defaulted
                     {[ "ID" := VInt 1; "FORM" := VStr "Kitob";
                        "HEAD ID" := VNone ]}
                     (VInt 1) (VStr "Kitob") 1 _ _ _) _);
      vm_compute; reflexivity.
  - refine (proj2 (present_null_not_defaulted
                     {[ "ID" := VInt 1; "FORM" := VStr "Kitob"; "LEMMA" := VNone;
                        "UPOS" := VNone; "DEPREL" := VNone ]}
                     (VInt 1) (VStr "Kitob") 1 _ _ _) _ _ _ _);
      vm_compute; reflexivity.
Defined.

(** The columns of a line that was produced. *)
Lemma token_line_columns (t : token) line :
  token_line t = Ok line ->
  exists tid head_id,
    getitem t "ID" ≫= py_int = Ok tid
    /\ py_int (get t "HEAD ID" (VInt 0)) = Ok head_id
    /\ line = Py.join Py.tab (columns t tid head_id).
Proof.
  intros Hline.
  destruct (converts_carries_both t) as [[vid Hid] [vform Hform]];
    [by eexists|].
  rewrite (token_line_both _ _ _ Hid Hform) in Hline.
  destruct (py_int vid) as [tid|] eqn:Htid; [|done].
  cbn [mbind result_bind] in Hline.
  destruct (py_int (get t "HEAD ID" (VInt 0))) as [head_id|] eqn:Hhead;
    [|done].
  cbn [mbind result_bind] in Hline. injection Hline as <-.
  exists tid, head_id. unfold getitem, columns.
  assert (get t "FORM" VNone = vform) as -> by (unfold get; by rewrite Hform).
  rewrite Hid. done.
Qed.

Lemma columns_all P (t : token) tid head_id :
  (forall n, str_all P (Py.str_of_int n) = true) -> P "_"%char = true ->
  Forall (fun s => str_all P s = true) (token_texts t) ->
  Forall (fun s => str_all P s = true) (columns t tid head_id).
Proof.
  intros Hnum Hus Htexts. unfold token_texts in Htexts. cbn zeta in Htexts.
  apply Forall_cons in Htexts as [Hf Htexts].
  apply Forall_cons in Htexts as [Hl Htexts].
  apply Forall_cons in Htexts as [Hu Htexts].
  apply Forall_cons in Htexts as [Hd _].
  unfold columns.
  repeat (apply Forall_cons; split;
          [first [assumption | apply Hnum | cbn [str_all]; by rewrite Hus]|]).
  constructor.
Qed.

(** Splitting at tabs what was joined with tabs. *)
Lemma startswith_tab c (s : string) :
  Py.startswith (String c s) Py.tab = Ascii.eqb Py.TAB c.
Proof. cbn [Py.startswith Py.tab]. by destruct (Ascii.eqb Py.TAB c). Qed.

Lemma split_go_tab_plain cur (p : string) :
  str_all no_tab_char p = true ->
  Py.split_go Py.tab O cur p = [String.rev cur +:+ p].
Proof.
  revert cur. induction p as [|c p IH]; intros cur.
  - intros _. cbn. by rewrite str_app_nil_r.
  - cbn [str_all]. intros [Hc Hp]%andb_true_iff.
    cbn [Py.split_go]. rewrite startswith_tab.
    unfold no_tab_char in Hc. apply negb_true_iff in Hc.
    rewrite Ascii.eqb_sym, Hc. rewrite IH by done.
    by rewrite rev_cons, str_app_assoc.
Qed.

Lemma split_go_tab_cut cur (p rest : string) :
  str_all no_tab_char p = true ->
  Py.split_go Py.tab O cur (p +:+ String Py.TAB rest)
  = (String.rev cur +:+ p) :: Py.split_go Py.tab O "" rest.
Proof.
  revert cur. induction p as [|c p IH]; intros cur.
  - intros _. change ("" +:+ String Py.TAB rest) with (String Py.TAB rest).
    cbn [Py.split_go]. rewrite startswith_tab.
    change (Ascii.eqb Py.TAB Py.TAB) with true. cbn iota.
    by rewrite str_app_nil_r.
  - cbn [str_all]. intros [Hc Hp]%andb_true_iff.
    rewrite str_app_cons. cbn [Py.split_go]. rewrite startswith_tab.
    unfold no_tab_char in Hc. apply negb_true_iff in Hc.
    rewrite Ascii.eqb_sym, Hc. rewrite IH by done.
    by rewrite rev_cons, str_app_assoc.
Qed.

Lemma split_join_tab (cols : list string) :
  cols <> [] -> Forall (fun s => str_all no_tab_char s = true) cols ->
  Py.split (Py.join Py.tab cols) Py.tab = cols.
Proof.
  unfold Py.split. induction cols as [|p cols IH]; [done|]. intros _ Hall.
  apply Forall_cons in Hall as [Hp Hall].
  destruct cols as [|q cols].
  - cbn [Py.join]. by rewrite split_go_tab_plain.
  - change (Py.join Py.tab (p :: q :: cols))
      with (p +:+ String Py.TAB (Py.join Py.tab (q :: cols))).
    rewrite split_go_tab_cut by done. f_equal. by apply IH.
Qed.

Lemma sign_or_digit_no_tab c : sign_or_digit c = true -> no_tab_char c = true.
Proof.
  unfold sign_or_digit, no_tab_char, Py.isdigit, Py.code.
  intros [[H1%N.leb_le H2%N.leb_le]%andb_true_iff | ->%Ascii.eqb_eq]%orb_true_iff;
    [|done].
  apply negb_true_iff, Ascii.eqb_neq. intros ->. by destruct H1.
Qed.

Lemma str_of_int_no_tab n : str_all no_tab_char (Py.str_of_int n) = true.
Proof.
  destruct (str_of_int_chars n) as [_ H].
  by eapply str_all_impl; [apply sign_or_digit_no_tab|].
Qed.

(** X3: the line of a token has exactly ten tab-separated columns:
    position, surface form, lemma, tag, "_", "_", head, relation, "_",
    "_", provided none of the four texts of the token holds a tab.  The
    converter does not escape tabs: a surface form with one tab and no
    lemma of its own gives twelve columns, the tab being copied into
    the defaulted lemma as well. *)
Theorem ten_columns :
  (forall (t : token) line,
      token_line t = Ok line ->
      Forall (fun s => str_all no_tab_char s = true) (token_texts t) ->
      exists tid head_id,
        getitem t "ID" ≫= py_int = Ok tid
        /\ py_int (get t "HEAD ID" (VInt 0)) = Ok head_id
        /\ Py.split line Py.tab = columns t tid head_id)
  /\ (exists line,
         token_line {[ "ID" := VInt 1; "FORM" := VStr ("a" +:+ Py.tab +:+ "b") ]}
           = Ok line
         /\ length (Py.split line Py.tab) = 12%nat).
Proof.
  split.
  - intros t line Hline Htexts.
    apply token_line_columns in Hline as (tid & head_id & Htid & Hhead & ->).
    exists tid, head_id. split; [done|]. split; [done|].
    apply split_join_tab; [done|].
    by apply columns_all; [apply str_of_int_no_tab| |].
  - eexists. split; [vm_compute; reflexivity|]. vm_compute. reflexivity.
Qed.

Lemma ten_columns_witness :
  exists tid head_id,
    getitem kitob "ID" ≫= py_int = Ok tid
    /\ py_int (get kitob "HEAD ID" (VInt 0)) = Ok head_id
    /\ Py.split kitob_line Py.tab = columns kitob tid head_id.
Proof.
  apply (proj1 ten_columns kitob kitob_line).
  - vm_compute. reflexivity.
  - vm_compute. repeat constructor.
Defined.

(** The text of a list of lines, and the loop over a concatenation. *)
Lemma join_lines_text (ls : list string) :
  ls <> [] -> Py.join Py.nl ls +:+ Py.nl = lines_text ls.
Proof.
  induction ls as [|l ls IH]; [done|]. intros _. destruct ls as [|l' ls].
  - cbn [Py.join lines_text]. by rewrite str_app_nil_r.
  - change (Py.join Py.nl (l :: l' :: ls))
      with (l +:+ Py.nl +:+ Py.join Py.nl (l' :: ls)).
    cbn [lines_text] in *. rewrite <- IH by done. by rewrite !str_app_assoc.
Qed.

Lemma lines_text_app (a b : list string) :
  lines_text (a ++ b) = lines_text a +:+ lines_text b.
Proof.
  induction a as [|l a IH]; [done|]. cbn [app lines_text].
  by rewrite IH, !str_app_assoc.
Qed.

Lemma convert_loop_lines tokens lines :
  convert_loop tokens lines = (ls ← convert_loop tokens []; Ok (lines ++ ls)).
Proof.
  destruct (convert_loop tokens lines) as [out|e] eqn:H.
  - apply convert_loop_ok in H as (ls & Hls & ->).
    assert (convert_loop tokens [] = Ok ls) as ->; [|done].
    apply convert_loop_ok. by exists ls.
  - apply convert_loop_raise in H.
    assert (convert_loop tokens [] = Raise e) as ->; [|done].
    by apply convert_loop_raise.
Qed.

Lemma convert_loop_app a b lines :
  convert_loop (a ++ b) lines = (la ← convert_loop a lines; convert_loop b la).
Proof.
  revert lines. induction a as [|t a IH]; intros lines; [done|].
  cbn [app convert_loop]. destruct (token_line t) as [l|e]; [|done]. apply IH.
Qed.

(** X4: conversion composes over concatenation.  For two sequences that
    are not empty, the record of [a ++ b] is the record of [a] followed
    by the record of [b], and it fails with the error of [a], or else
    with the error of [b].  The empty sequence is not neutral: its
    record is a newline of its own. *)
Theorem conversion_composes :
  (forall a b : list token,
      a <> [] -> b <> [] ->
      tokens_to_conllu (a ++ b) =
        (ra ← tokens_to_conllu a; rb ← tokens_to_conllu b; Ok (ra +:+ rb)))
  /\ tokens_to_conllu ([] ++ [kitob])
     <> (ra ← tokens_to_conllu []; rb ← tokens_to_conllu [kitob];
         Ok (ra +:+ rb)).
Proof.
  split; [|by vm_compute].
  intros a b Ha Hb. unfold tokens_to_conllu.
  rewrite convert_loop_app.
  destruct (convert_loop a []) as [la|e] eqn:Hla; [|done].
  cbn [mbind result_bind]. rewrite (convert_loop_lines b la).
  destruct (convert_loop b []) as [lb|e] eqn:Hlb; [|done].
  cbn [mbind result_bind]. f_equal.
  apply convert_loop_ok in Hla as (la' & Hla & ->).
  apply convert_loop_ok in Hlb as (lb' & Hlb & ->). cbn [app].
  apply Forall2_length in Hla, Hlb.
  assert (la' <> []) by (intros ->; by destruct a).
  assert (lb' <> []) by (intros ->; by destruct b).
  rewrite !join_lines_text; [apply lines_text_app|done..|].
  intros [? _]%app_eq_nil. done.
Qed.

Lemma conversion_composes_witness :
  tokens_to_conllu ([kitob] ++ [kitob; kitob]) =
    (ra ← tokens_to_conllu [kitob]; rb ← tokens_to_conllu [kitob; kitob];
     Ok (ra +:+ rb)).
Proof. apply (proj1 conversion_composes [kitob] [kitob; kitob]); discriminate. Defined.

(** A line that begins with a character that is neither white space nor
    the number sign is no header. *)
Lemma header_value_head c (r : string) :
  Py.isspace c = false -> Ascii.eqb "#" c = false ->
  header_value (String c r) = None.
Proof.
  intros Hsp Hc. unfold header_value.
  destruct (Py.startswith _ header_prefix) eqn:H; [|done].
  exfalso. unfold Py.strip in H. rewrite lstrip_nonspace in H by done.
  destruct (rstrip_prefix (String c r)) as [sp Hsp'].
  apply (startswith_app _ sp) in H. rewrite <- Hsp' in H.
  cbn [Py.startswith header_prefix] in H. by rewrite Hc in H.
Qed.

Lemma sign_or_digit_no_hash c :
  sign_or_digit c = true -> Py.isspace c = false /\ Ascii.eqb "#" c = false.
Proof.
  intros H. split.
  - apply sign_or_digit_nonspace in H. by apply negb_true_iff in H.
  - apply Ascii.eqb_neq. intros <-. by vm_compute in H.
Qed.

Lemma str_all_join P sep (parts : list string) :
  str_all P sep = true -> Forall (fun s => str_all P s = true) parts ->
  str_all P (Py.join sep parts) = true.
Proof.
  intros Hsep. induction 1 as [|p parts Hp Hparts IH]; [done|].
  destruct parts as [|q parts]; [done|].
  change (Py.join sep (p :: q :: parts))
    with (p +:+ sep +:+ Py.join sep (q :: parts)).
  by rewrite !str_all_app, Hp, Hsep, IH.
Qed.

Lemma plain_token_line (t : token) line :
  token_line t = Ok line -> plain_token t ->
  str_all no_break_char line = true /\ header_value (line +:+ Py.nl) = None.
Proof.
  intros Hline Htexts.
  apply token_line_columns in Hline as (tid & head_id & _ & _ & ->).
  assert (forall n, str_all no_break_char (Py.str_of_int n) = true) as Hnum.
  { intros n. destruct (str_of_int_chars n) as [_ H].
    by eapply str_all_impl; [apply sign_or_digit_no_break|]. }
  split.
  - apply str_all_join; [done|]. by apply columns_all.
  - unfold columns.
    destruct (str_of_int_chars tid) as [Hne Hall].
    destruct (Py.str_of_int tid) as [|c r] eqn:Hs; [done|].
    cbn [str_all] in Hall. apply andb_true_iff in Hall as [Hc _].
    apply sign_or_digit_no_hash in Hc as [Hsp Hhash].
    match goal with
    | |- header_value (Py.join Py.tab (String c r :: ?rest) +:+ _) = _ =>
        change (Py.join Py.tab (String c r :: rest))
          with (String c (r +:+ Py.tab +:+ Py.join Py.tab rest))
    end.
    rewrite str_app_cons. by apply header_value_head.
Qed.

Lemma plain_lines_text (ls : list string) :
  Forall (fun l => str_all no_break_char l = true
                   /\ header_value (l +:+ Py.nl) = None) ls ->
  corpus_lines (lines_text ls) = (fun l => l +:+ Py.nl) <$> ls
  /\ header_values (Some (lines_text ls)) = [].
Proof.
  induction 1 as [|l ls [Hl Hnone] _ [IH1 IH2]]; [done|].
  cbn [lines_text fmap list_fmap]. unfold header_values in *.
  rewrite corpus_lines_app by (right; by eexists).
  rewrite corpus_lines_one by done. rewrite IH1. split; [done|].
  rewrite <- IH1. cbn [app omap list_omap]. by rewrite Hnone, IH2.
Qed.

(** X5: the record of tokens whose texts hold no line break is made of
    whole lines, one per token (one empty line when there is no token),
    and none of its lines is a header the checkpoint resolver reads.  A
    line break inside a text is copied as it is: a surface form holding
    a header line between two line breaks gives a record from which the
    resolver reads that header. *)
Theorem record_of_plain_tokens :
  (forall tokens out,
      tokens_to_conllu tokens = Ok out -> Forall plain_token tokens ->
      closed_text out
      /\ header_values (Some out) = []
      /\ length (corpus_lines out) = Nat.max 1 (length tokens))
  /\ (exists out,
         tokens_to_conllu
           [{[ "ID" := VInt 1;
               "FORM" :=
                 VStr ("a" +:+ Py.nl +:+ "# sent_id = auto-99" +:+ Py.nl) ]}]
           = Ok out
         /\ get_last_processed_index (Some out) = 99).
Proof.
  split.
  - intros tokens out Hout Hplain.
    apply tokens_to_conllu_ok in Hout as (ls & Hls & ->).
    split; [right; by eexists|].
    destruct ls as [|l ls].
    { apply Forall2_length in Hls. destruct tokens; [|done]. by vm_compute. }
    rewrite join_lines_text by done.
    assert (Forall (fun l => str_all no_break_char l = true
                             /\ header_value (l +:+ Py.nl) = None) (l :: ls))
      as Hlines.
    { clear -Hls Hplain. induction Hls as [|t l' ts ls' Ht _ IH]; [done|].
      apply Forall_cons in Hplain as [Hp Hplain].
      constructor; [by eapply plain_token_line|by apply IH]. }
    destruct (plain_lines_text _ Hlines) as [-> ->]. split; [done|].
    rewrite length_fmap. apply Forall2_length in Hls. rewrite Hls.
    cbn [length]. lia.
  - eexists. split; vm_compute; reflexivity.
Qed.

Lemma record_of_plain_tokens_witness :
  closed_text (kitob_line +:+ Py.nl)
  /\ header_values (Some (kitob_line +:+ Py.nl)) = []
  /\ length (corpus_lines (kitob_line +:+ Py.nl)) = Nat.max 1 (length [kitob]).
Proof.
  apply (proj1 record_of_plain_tokens [kitob]).
  - vm_compute. reflexivity.
  - constructor; [|constructor]. vm_compute. repeat constructor.
Defined.

(** ** The Checkpoint Resolver *)

Lemma foldr_max_app (l1 l2 : list Z) :
  foldr Z.max 0 (l1 ++ l2) = Z.max (foldr Z.max 0 l1) (foldr Z.max 0 l2).
Proof.
  induction l1 as [|x l1 IH]; cbn [app foldr].
  - destruct (foldr_max_bounds l2 0) as [H _]. lia.
  - rewrite IH. lia.
Qed.

Lemma checkpoint_header_values gold0 :
  get_last_processed_index gold0 = foldr Z.max 0 (header_values gold0).
Proof.
  unfold get_last_processed_index, header_values, corpus_lines.
  destruct gold0; [apply scan_lines_max|done].
Qed.

(** X6: the checkpoint of a Corpus that ends with a newline (or is
    empty) followed by more text is the greater of the two checkpoints,
    so appending to such a Corpus never lowers the checkpoint.  Without
    the final newline the first appended line joins the last line of the
    Corpus, and the checkpoint can drop: 7 becomes 0. *)
Theorem checkpoint_of_append :
  (forall a b : string,
      closed_text a ->
      get_last_processed_index (Some (a +:+ b))
      = Z.max (get_last_processed_index (Some a))
              (get_last_processed_index (Some b)))
  /\ get_last_processed_index (Some "# sent_id = auto-7") = 7
  /\ get_last_processed_index (Some ("# sent_id = auto-7" +:+ "x" +:+ Py.nl)) = 0.
Proof.
  split; [|by vm_compute].
  intros a b Ha. rewrite !checkpoint_header_values.
  rewrite header_values_app by done. apply foldr_max_app.
Qed.

Lemma checkpoint_of_append_witness :
  get_last_processed_index
    (Some (("# sent_id = auto-7" +:+ Py.nl) +:+ "# sent_id = auto-3" +:+ Py.nl))
  = Z.max (get_last_processed_index (Some ("# sent_id = auto-7" +:+ Py.nl)))
          (get_last_processed_index (Some ("# sent_id = auto-3" +:+ Py.nl))).
Proof.
  apply (proj1 checkpoint_of_append). right. by eexists.
Defined.

(** ** The sentence file *)

Lemma lstrip_app_nonspace (a : string) c (b : string) :
  Py.isspace c = false ->
  Py.lstrip (a +:+ String c b) = Py.lstrip a +:+ String c b.
Proof.
  intros Hc. induction a as [|x a IH].
  - change ("" +:+ String c b) with (String c b). cbn [Py.lstrip]. by rewrite Hc.
  - rewrite str_app_cons. cbn [Py.lstrip].
    destruct (Py.isspace x); [done|]. by rewrite str_app_cons.
Qed.

Lemma lstrip_cases (s : string) :
  Py.lstrip s = ""
  \/ exists c r, Py.lstrip s = String c r /\ Py.isspace c = false.
Proof.
  induction s as [|c s IH]; [by left|]. cbn [Py.lstrip].
  destruct (Py.isspace c) eqn:Hc; [done|]. right. by exists c, s.
Qed.

Lemma lstrip_idem (s : string) : Py.lstrip (Py.lstrip s) = Py.lstrip s.
Proof.
  destruct (lstrip_cases s) as [-> | (c & r & -> & Hc)]; [done|].
  by apply lstrip_nonspace.
Qed.

Lemma strip_cases (s : string) :
  Py.strip s = ""
  \/ exists c u, Py.strip s = String c (String.rev (Py.lstrip u))
                 /\ Py.isspace c = false.
Proof.
  unfold Py.strip, Py.rstrip.
  destruct (lstrip_cases s) as [-> | (c & r & -> & Hc)]; [by left|].
  right. exists c, (String.rev r).
  rewrite rev_cons, lstrip_app_nonspace by done.
  rewrite rev_app_distr. done.
Qed.

Lemma strip_idem (s : string) : Py.strip (Py.strip s) = Py.strip s.
Proof.
  destruct (strip_cases s) as [-> | (c & u & -> & Hc)]; [done|].
  unfold Py.strip, Py.rstrip. rewrite lstrip_nonspace by done.
  rewrite rev_cons, rev_involutive, lstrip_app_nonspace by done.
  rewrite lstrip_idem, rev_app_distr. done.
Qed.

Lemma read_sentences_elem content sent :
  sent ∈ read_sentences content <->
  exists line, line ∈ splitlines (read_text content)
               /\ Py.strip line = sent /\ sent <> "".
Proof.
  unfold read_sentences. rewrite list_elem_of_omap. split.
  - intros (line & Hline & Hsent). exists line.
    destruct (decide (Py.strip line = "")); [done|]. by injection Hsent as <-.
  - intros (line & Hline & <- & Hne). exists line.
    by destruct (decide (Py.strip line = "")).
Qed.

(** X7: every sentence [read_sentences] returns is not empty, has no
    white space at either end and holds no line break; so it is a
    sentence the function returns unchanged when it is read again on a
    line of its own. *)
Theorem read_sentences_clean content sent :
  sent ∈ read_sentences content -> clean_sentence sent.
Proof.
  intros (line & Hline & <- & Hne)%read_sentences_elem.
  split; [done|]. split; [apply strip_idem|].
  apply str_all_strip.
  pose proof (splitlines_go_lines false "" (read_text content) eq_refl) as Hall.
  rewrite Forall_forall in Hall. by apply Hall.
Qed.

Lemma read_sentences_clean_witness : clean_sentence "Ikki kitob".
Proof.
  apply (read_sentences_clean four_sentences).
  vm_compute. apply list_elem_of_further, list_elem_of_here.
Defined.

Lemma splitlines_go_line cur (s rest : string) :
  str_all not_linebreak s = true ->
  splitlines_go false cur (s +:+ String Py.LF rest)
  = (String.rev cur +:+ s) :: splitlines_go false "" rest.
Proof.
  revert cur. induction s as [|c s IH]; intros cur.
  - intros _. change ("" +:+ String Py.LF rest) with (String Py.LF rest).
    cbn [splitlines_go]. change (Ascii.eqb Py.LF Py.LF && false) with false.
    change (is_linebreak Py.LF) with true. cbn iota.
    change (Ascii.eqb Py.LF Py.CR) with false. by rewrite str_app_nil_r.
  - cbn [str_all]. intros [Hc Hs]%andb_true_iff.
    rewrite str_app_cons. cbn [splitlines_go]. rewrite andb_false_r.
    unfold not_linebreak in Hc. apply negb_true_iff in Hc. rewrite Hc.
    rewrite IH by done. by rewrite rev_cons, str_app_assoc.
Qed.

Lemma write_sentences_read (sentences : list string) :
  Forall (fun s => str_all not_linebreak s = true) sentences ->
  splitlines (read_text (write_sentences sentences)) = sentences.
Proof.
  unfold splitlines, read_text.
  induction 1 as [|s sentences Hs _ IH]; [done|]. cbn [write_sentences].
  rewrite str_app_assoc, str_app_nl.
  rewrite translate_newlines_plain
    by by eapply str_all_impl; [apply not_linebreak_no_break|].
  cbn [translate_newlines]. change (Ascii.eqb Py.LF Py.CR) with false.
  cbn iota. rewrite andb_false_r.
  rewrite splitlines_go_line by done. by rewrite IH.
Qed.

(** X8: reading back a sentence file written one sentence per line,
    each followed by a newline, gives the sentences written, in order,
    when each of them is clean; so the index of a sentence in a run is
    its position in the list written.  A blank or white-space line is
    dropped without a trace, so an index is not a line number. *)
Theorem sentence_file_round_trip :
  (forall sentences,
      Forall clean_sentence sentences ->
      read_sentences (write_sentences sentences) = sentences)
  /\ read_sentences (write_sentences ["Kitob"; "  "; "Ikki kitob"])
     = ["Kitob"; "Ikki kitob"].
Proof.
  split; [|by vm_compute].
  intros sentences Hclean. unfold read_sentences.
  rewrite write_sentences_read
    by (eapply Forall_impl; [exact Hclean|]; by intros s (_ & _ & ?)).
  induction Hclean as [|s sentences (Hne & Hstrip & _) _ IH]; [done|].
  cbn [omap list_omap]. rewrite Hstrip.
  destruct (decide (s = "")); [done|]. by rewrite IH.
Qed.

Lemma sentence_file_round_trip_witness :
  read_sentences (write_sentences ["Kitob"; "Ikki kitob"])
  = ["Kitob"; "Ikki kitob"].
Proof.
  apply (proj1 sentence_file_round_trip).
  repeat constructor; try done; by vm_compute.
Defined.

(** ** Runs that follow one another *)

Lemma checkpoint_default gold0 :
  get_last_processed_index gold0
  = get_last_processed_index (Some (default "" gold0)).
Proof. by destruct gold0. Qed.

Lemma resolve_start_inferred gold0 :
  resolve_start None gold0 = get_last_processed_index gold0 + 1.
Proof.
  rewrite resolve_start_spec. cbn.
  pose proof (get_last_processed_index_nonneg gold0). lia.
Qed.

(** X11: runs without a start override resume where the last one
    stopped.  Let a first run start from a Corpus that is empty or ends
    with a newline, with a validator that passes no Record holding a
    header line.  If it wrote no diagnostic file, a second run on the
    same sentences, whatever the service and the validator answer then,
    has nothing to do and leaves the world as it is; if it wrote
    diagnostic files, they are those of one sentence [k], and the second
    run begins with the call of the service for that sentence. *)
Theorem rerun_resumes
    (service service2 : Z -> string -> string -> result (list token))
    (validator validator2 : Z -> string -> result (bool * string))
    (json_dumps json_dumps2 : list token -> string)
    (str_exc str_exc2 : exn -> string)
    (model model2 content : string) (gold0 : option string) (w1 : world) :
  closed_text (default "" gold0) ->
  (forall i r log, validator i r = Ok (true, log) ->
                   header_values (Some r) = []) ->
  main service validator json_dumps str_exc None model (Some content)
       (initial_world gold0) = Ok w1 ->
  (log_writes w1 = [] ->
   main service2 validator2 json_dumps2 str_exc2 None model2 (Some content)
        (initial_world (gold w1)) = Ok (initial_world (gold w1)))
  /\ (log_writes w1 <> [] ->
      exists k sent w2 rest,
        Forall (fun name => name ∈ diagnostic_names k) (log_writes w1).*1
        /\ read_sentences content !! Z.to_nat (k - 1) = Some sent
        /\ main service2 validator2 json_dumps2 str_exc2 None model2
                (Some content) (initial_world (gold w1)) = Ok w2
        /\ calls w2 = CallAnnotate k sent (model_or_default model2) :: rest).
Proof.
  intros Hclosed Hval Hrun.
  destruct (run_outcome _ _ _ _ _ _ _ _ _ Hrun)
    as (cs & n & Hgold & _ & Hidx & Hpassed & Hsents & _ & Hend).
  cbn zeta in Hend.
  assert (resolve_start None (gold w1)
          = resolve_start None gold0 + Z.of_nat (length cs)) as Hnext.
  { rewrite resolve_start_inferred, (checkpoint_default gold0) in Hidx.
    rewrite !resolve_start_inferred, (checkpoint_default (gold w1)).
    unfold gold_text in Hgold. rewrite Hgold.
    rewrite (checkpoint_of_commits service validator model content) by done.
    rewrite <- checkpoint_default. lia. }
  destruct Hend as [(Hlog & _ & Hk) | (sent & Hk & _ & Hsent & Hlog)].
  - split; [|done]. intros _. unfold main. cbn [gold initial_world].
    destruct (Z.gtb_spec (resolve_start None (gold w1))
                (Z.of_nat (length (read_sentences content)))); [done|lia].
  - split.
    { intros Hnil. destruct Hlog as [(e & _ & H) | (r & t & l & _ & H)];
        rewrite H in Hnil; done. }
    intros _.
    destruct (main_first_call service2 validator2 json_dumps2 str_exc2
                None model2 content (gold w1))
      as (w2 & sent2 & rest & Hrun2 & Hsent2 & Hcalls2); [lia|].
    rewrite Hnext in Hsent2, Hcalls2.
    exists (resolve_start None gold0 + Z.of_nat (length cs)), sent, w2, rest.
    split; [|split; [done|split; [done|]]].
    + unfold diagnostic_names.
      destruct Hlog as [(e & _ & ->) | (r & t & l & _ & ->)]; cbn;
        repeat (constructor; [set_solver|]); constructor.
    + by replace sent with sent2 by congruence.
Qed.

Lemma rerun_resumes_witness :
  exists k sent w2 rest,
    Forall (fun name => name ∈ diagnostic_names k) (log_writes strict_run).*1
    /\ read_sentences four_sentences !! Z.to_nat (k - 1) = Some sent
    /\ main demo_service demo_validator demo_json demo_str_exc None ""
            (Some four_sentences) (initial_world (gold strict_run)) = Ok w2
    /\ calls w2 = CallAnnotate k sent (model_or_default "") :: rest.
Proof.
  refine (proj2 (rerun_resumes demo_service demo_service
                   strict_validator demo_validator demo_json demo_json
                   demo_str_exc demo_str_exc "" "" four_sentences None
                   strict_run _ _ _) _).
  - left. reflexivity.
  - intros i r log [= Hok _]. apply andb_true_iff in Hok as [Hok _].
    by apply bool_decide_eq_true in Hok.
  - vm_compute. reflexivity.
  - vm_compute. discriminate.
Defined.

(** ** The validator adapter *)

Lemma validator_of_spec validate_py validate_py_exists tmp_path subprocess_run
    idx conllu_str :
  validator_of validate_py validate_py_exists tmp_path subprocess_run
    idx conllu_str
  = if validate_py_exists idx
    then p ← subprocess_run idx
               (Validator.command validate_py (tmp_path idx)) conllu_str;
         Ok (Validator.returncode p =? 0,
             (Validator.stdout p +:+ Py.nl) +:+ Validator.stderr p)
    else Raise (FileNotFoundError validate_py).
Proof.
  unfold validator_of, Validator.validate_conllu,
    Validator.get_validate_script_path.
  by destruct (validate_py_exists idx).
Qed.

Lemma window_one start_from (sentences : list string) sent :
  sentences !! Z.to_nat (start_from - 1) = Some sent ->
  window start_from 1 sentences = [(start_from, sent)].
Proof.
  intros Hsent. unfold window. by rewrite (drop_S _ _ _ Hsent).
Qed.

(** X12: when [tools/ud-tools/validate.py] is missing, no run commits
    anything.  A run that has a sentence to work on still calls the
    annotation service for the first of them, and only then stops:
    with the exception of the service or of the conversion, or, the
    reply being converted, with the missing-file error of the adapter;
    it writes the exception report of that sentence and nothing else. *)
Theorem missing_validator_script
    (service : Z -> string -> string -> result (list token))
    (json_dumps : list token -> string) (str_exc : exn -> string)
    (validate_py : string) (tmp_path : Z -> string)
    (subprocess_run : Z -> list string -> string
                      -> result Validator.completed_process)
    (override : option Z) (model content : string) (gold0 : option string) :
  let validator :=
    validator_of validate_py (fun _ => false) tmp_path subprocess_run in
  let sentences := read_sentences content in
  let start_from := resolve_start override gold0 in
  exists w',
    main service validator json_dumps str_exc override model (Some content)
         (initial_world gold0) = Ok w'
    /\ gold_text w' = default "" gold0
    /\ (start_from <= Z.of_nat (length sentences) ->
        exists sent e,
          sentences !! Z.to_nat (start_from - 1) = Some sent
          /\ log_writes w'
             = [(exception_name start_from,
                 exception_report str_exc start_from sent e)]
          /\ ((service start_from sent (model_or_default model) = Raise e
               /\ calls w'
                  = [CallAnnotate start_from sent (model_or_default model)])
              \/ (exists tokens,
                    service start_from sent (model_or_default model) = Ok tokens
                    /\ tokens_to_conllu tokens = Raise e
                    /\ calls w'
                       = [CallAnnotate start_from sent (model_or_default model)])
              \/ (exists tokens conllu_str,
                    service start_from sent (model_or_default model) = Ok tokens
                    /\ tokens_to_conllu tokens = Ok conllu_str
                    /\ e = FileNotFoundError validate_py
                    /\ calls w'
                       = [CallAnnotate start_from sent (model_or_default model);
                          CallValidate start_from conllu_str]))).
Proof.
  cbn zeta.
  remember (validator_of validate_py (fun _ => false) tmp_path subprocess_run)
    as validator eqn:Hvalidator.
  destruct (main_total service validator json_dumps str_exc override model
              content (initial_world gold0)) as [w' Hrun].
  destruct (run_outcome _ _ _ _ _ _ _ _ _ Hrun)
    as (cs & n & Hgold & _ & _ & Hpassed & _ & Hcalls & Hend).
  cbn zeta in Hend.
  assert (forall i r, validator i r = Raise (FileNotFoundError validate_py))
    as Hmissing.
  { intros i r. by rewrite Hvalidator, validator_of_spec. }
  assert (cs = []) as ->.
  { destruct cs as [|[[i sent] r] cs]; [done|].
    apply Forall_cons in Hpassed as [(tokens & log & _ & _ & Hok) _].
    by rewrite Hmissing in Hok. }
  cbn [blocks length] in *. rewrite str_app_nil_r in Hgold.
  rewrite Z.add_0_r in Hend.
  exists w'. split; [done|]. split; [done|]. intros Hle.
  destruct Hend as [(_ & _ & Hk) | (sent & _ & -> & Hsent & Hlog)]; [lia|].
  rewrite (window_one _ _ _ Hsent) in Hcalls.
  cbn [flat_map fst snd] in Hcalls. rewrite app_nil_r in Hcalls.
  unfold annotation_result, calls_made in *.
  destruct (service _ sent _) as [tokens|e1] eqn:Hservice.
  - cbn in Hlog.
    destruct (tokens_to_conllu tokens) as [conllu_str|e2] eqn:Hconv.
    + cbn in Hlog. rewrite Hmissing in Hlog. cbn in Hlog.
      destruct Hlog as [(e & [= <-] & Hlog) | (? & ? & ? & ? & _)]; [|done].
      exists sent, (FileNotFoundError validate_py).
      split; [done|]. split; [done|]. right. right.
      by exists tokens, conllu_str.
    + cbn in Hlog.
      destruct Hlog as [(e & [= <-] & Hlog) | (? & ? & ? & ? & _)]; [|done].
      exists sent, e2. split; [done|]. split; [done|]. right. left.
      by exists tokens.
  - cbn in Hlog.
    destruct Hlog as [(e & [= <-] & Hlog) | (? & ? & ? & ? & _)]; [|done].
    exists sent, e1. split; [done|]. split; [done|]. by left.
Qed.

Lemma missing_validator_script_witness :
  exists w',
    main demo_service
         (validator_of "tools/ud-tools/validate.py" (fun _ => false) demo_tmp
            demo_process)
         demo_json demo_str_exc None "" (Some four_sentences)
         (initial_world None) = Ok w'
    /\ gold_text w' = ""
    /\ exists sent e,
         read_sentences four_sentences !! Z.to_nat (1 - 1) = Some sent
         /\ log_writes w'
            = [(exception_name 1, exception_report demo_str_exc 1 sent e)]
         /\ ((demo_service 1 sent (model_or_default "") = Raise e
              /\ calls w' = [CallAnnotate 1 sent (model_or_default "")])
             \/ (exists tokens,
                   demo_service 1 sent (model_or_default "") = Ok tokens
                   /\ tokens_to_conllu tokens = Raise e
                   /\ calls w' = [CallAnnotate 1 sent (model_or_default "")])
             \/ (exists tokens conllu_str,
                   demo_service 1 sent (model_or_default "") = Ok tokens
                   /\ tokens_to_conllu tokens = Ok conllu_str
                   /\ e = FileNotFoundError "tools/ud-tools/validate.py"
                   /\ calls w'
                      = [CallAnnotate 1 sent (model_or_default "");
                         CallValidate 1 conllu_str])).
Proof.
  destruct (missing_validator_script demo_service demo_json demo_str_exc
              "tools/ud-tools/validate.py" demo_tmp demo_process
              None "" four_sentences None) as (w' & Hrun & Hgold & Hstop).
  exists w'. split; [exact Hrun|]. split; [exact Hgold|].
  apply Hstop. vm_compute. discriminate.
Defined.

(** X13: with the adapter as validator, the exit status of the
    validator process decides, whatever the process prints.  Every
    Record in the text a run appends was given to a process that exited
    with status 0, [validate.py] being present; and the third
    diagnostic file of a run, when there is one, is the validation log
    of a sentence: the standard output of a process that exited with
    another status, a newline, and its standard error, so it is never
    empty. *)
Theorem exit_status_decides
    (service : Z -> string -> string -> result (list token))
    (json_dumps : list token -> string) (str_exc : exn -> string)
    (validate_py : string) (validate_py_exists : Z -> bool)
    (tmp_path : Z -> string)
    (subprocess_run : Z -> list string -> string
                      -> result Validator.completed_process)
    (override : option Z) (model content : string) (gold0 : option string) :
  let validator :=
    validator_of validate_py validate_py_exists tmp_path subprocess_run in
  exists w' cs,
    main service validator json_dumps str_exc override model (Some content)
         (initial_world gold0) = Ok w'
    /\ gold_text w' = default "" gold0 +:+ blocks cs
    /\ Forall (fun commit =>
                 let i := commit_idx commit in
                 exists p,
                   validate_py_exists i = true
                   /\ subprocess_run i
                        (Validator.command validate_py (tmp_path i)) commit.2
                      = Ok p
                   /\ Validator.returncode p = 0) cs
    /\ (forall name v_log,
          log_writes w' !! 2%nat = Some (name, v_log) ->
          exists k r p,
            name = val_name k
            /\ subprocess_run k (Validator.command validate_py (tmp_path k)) r
               = Ok p
            /\ Validator.returncode p <> 0
            /\ v_log = (Validator.stdout p +:+ Py.nl) +:+ Validator.stderr p
            /\ v_log <> "").
Proof.
  cbn zeta.
  remember (validator_of validate_py validate_py_exists tmp_path subprocess_run)
    as validator eqn:Hvalidator.
  destruct (main_total service validator json_dumps str_exc override model
              content (initial_world gold0)) as [w' Hrun].
  destruct (run_outcome _ _ _ _ _ _ _ _ _ Hrun)
    as (cs & n & Hgold & _ & _ & Hpassed & _ & _ & Hend).
  cbn zeta in Hend.
  assert (forall i r ok log,
             validator i r = Ok (ok, log) ->
             exists p,
               validate_py_exists i = true
               /\ subprocess_run i (Validator.command validate_py (tmp_path i)) r
                  = Ok p
               /\ ok = (Validator.returncode p =? 0)
               /\ log = (Validator.stdout p +:+ Py.nl) +:+ Validator.stderr p)
    as Hverdict.
  { intros i r ok log. rewrite Hvalidator, validator_of_spec.
    destruct (validate_py_exists i); [|done].
    destruct (subprocess_run i _ r) as [p|]; [|done].
    intros [= <- <-]. by exists p. }
  exists w', cs. split; [done|]. split; [done|]. split.
  - eapply Forall_impl; [exact Hpassed|].
    intros [[i sent] r] (tokens & log & _ & _ & Hok). cbn.
    apply Hverdict in Hok as (p & Hex & Hp & Hcode & _).
    exists p. split; [done|]. split; [done|]. symmetry in Hcode.
    by apply Z.eqb_eq in Hcode.
  - intros name v_log Hthird.
    destruct Hend as [(Hlog & _) | (sent & _ & _ & _ & Hlog)];
      [by rewrite Hlog in Hthird|].
    destruct Hlog as [(e & _ & Hlog) | (r & tokens & l & Hres & Hlog)];
      rewrite Hlog in Hthird; [done|].
    injection Hthird as <- <-.
    unfold annotation_result in Hres.
    destruct (service _ sent _) as [tokens'|]; [|done]. cbn in Hres.
    destruct (tokens_to_conllu tokens') as [r'|]; [|done]. cbn in Hres.
    destruct (validator _ r') as [[ok log]|] eqn:Hval; [|done].
    injection Hres as -> <- <- <-.
    apply Hverdict in Hval as (p & _ & Hp & Hcode & ->).
    eexists _, r', p. split; [done|]. split; [done|].
    split; [|split; [done|]].
    + symmetry in Hcode. by apply Z.eqb_neq in Hcode.
    + by destruct (Validator.stdout p).
Qed.

Lemma exit_status_decides_witness :
  exists k r p,
    val_name 3 = val_name k
    /\ demo_process k
         (Validator.command "tools/ud-tools/validate.py" (demo_tmp k)) r = Ok p
    /\ Validator.returncode p <> 0
    /\ ("*** PASSED ***" +:+ Py.nl) +:+ "warning"
       = (Validator.stdout p +:+ Py.nl) +:+ Validator.stderr p
    /\ ("*** PASSED ***" +:+ Py.nl) +:+ "warning" <> "".
Proof.
  destruct (exit_status_decides demo_service demo_json demo_str_exc
              "tools/ud-tools/validate.py" (fun _ => true) demo_tmp demo_process
              None "" four_sentences None) as (w' & cs & Hrun & _ & _ & Hlog).
  apply Hlog. vm_compute in Hrun. injection Hrun as <-.
  vm_compute. reflexivity.
Defined.

(** ** The small run, as an instance of the outcome of a run *)


(** ** Headers with white space around them *)

Lemma lstrip_spaces (sp t : string) :
  str_all Py.isspace sp = true -> Py.lstrip (sp +:+ t) = Py.lstrip t.
Proof.
  induction sp as [|c sp IH]; [done|]. cbn [str_all].
  intros [Hc Hsp]%andb_true_iff. rewrite str_app_cons. cbn [Py.lstrip].
  rewrite Hc. by apply IH.
Qed.

Lemma rstrip_spaces (y d sp : string) :
  d <> "" -> str_all nonspace_char d = true -> str_all Py.isspace sp = true ->
  Py.rstrip (y +:+ d +:+ sp) = y +:+ d.
Proof.
  intros Hd Hall Hsp. unfold Py.rstrip.
  rewrite !rev_app_distr, str_app_assoc.
  rewrite lstrip_spaces by by rewrite str_all_rev.
  destruct (String.rev d) as [|c r] eqn:Hrev.
  { destruct Hd. by rewrite <- (rev_involutive d), Hrev. }
  assert (Py.isspace c = false) as Hc.
  { rewrite <- str_all_rev, Hrev in Hall. cbn [str_all] in Hall.
    apply andb_true_iff in Hall as [Hc _]. unfold nonspace_char in Hc.
    by apply negb_true_iff in Hc. }
  rewrite str_app_cons, lstrip_nonspace by done.
  rewrite <- str_app_cons, <- Hrev, <- rev_app_distr. apply rev_involutive.
Qed.

(** X14: white space around a header does not matter.  A line made of
    any white space, the header [# sent_id = auto-N] with [N] printed
    from an integer, and any white space again (an indented header, a
    header followed by blanks, by a carriage return or by nothing) is
    read by the loop of the resolver as [N]. *)
Theorem header_tolerates_blanks (sp1 sp2 : string) (i last : Z) :
  str_all Py.isspace sp1 = true -> str_all Py.isspace sp2 = true ->
  scan_line (sp1 +:+ "# sent_id = auto-" +:+ Py.str_of_int i +:+ sp2) last
  = Z.max i last.
Proof.
  intros Hsp1 Hsp2. rewrite scan_line_value.
  assert (header_value (sp1 +:+ "# sent_id = auto-" +:+ Py.str_of_int i +:+ sp2)
          = header_value (header_prefix +:+ Py.str_of_int i +:+ Py.nl)) as ->;
    [|by rewrite header_line_value].
  unfold header_value.
  destruct (str_of_int_chars i) as [Hne Hall].
  assert (str_all nonspace_char (Py.str_of_int i) = true) as Hns
    by by eapply str_all_impl; [apply sign_or_digit_nonspace|].
  assert (Py.strip (sp1 +:+ "# sent_id = auto-" +:+ Py.str_of_int i +:+ sp2)
          = Py.strip (header_prefix +:+ Py.str_of_int i +:+ Py.nl)) as ->;
    [|done].
  rewrite strip_header_line by done.
  unfold Py.strip. rewrite lstrip_spaces by done.
  change ("# sent_id = auto-" +:+ Py.str_of_int i +:+ sp2)
    with (String "#" (" sent_id = auto-" +:+ Py.str_of_int i +:+ sp2)).
  rewrite lstrip_nonspace by done.
  change (String "#" (" sent_id = auto-" +:+ Py.str_of_int i +:+ sp2))
    with (header_prefix +:+ Py.str_of_int i +:+ sp2).
  by apply rstrip_spaces.
Qed.

Lemma header_tolerates_blanks_witness :
  scan_line (Py.tab +:+ "# sent_id = auto-" +:+ Py.str_of_int 12 +:+
             String " " (String Py.CR Py.nl)) 7
  = Z.max 12 7.
Proof.
  apply (header_tolerates_blanks Py.tab (String " " (String Py.CR Py.nl)) 12 7);
    reflexivity.
Defined.

(** ** The sampling script *)

Lemma dedupe_loop_acc sentences seen deduped :
  Sampling.dedupe_loop sentences seen deduped
  = deduped ++ Sampling.dedupe_loop sentences seen [].
Proof.
  revert seen deduped. induction sentences as [|s rest IH]; intros seen deduped.
  - cbn. by rewrite app_nil_r.
  - cbn [Sampling.dedupe_loop]. destruct (decide (s ∈ seen)); [apply IH|].
    rewrite (IH _ (deduped ++ [s])), (IH _ ([] ++ [s])).
    by rewrite <- app_assoc.
Qed.

Lemma dedupe_loop_elem sentences seen x :
  x ∈ Sampling.dedupe_loop sentences seen [] <-> x ∈ sentences /\ x ∉ seen.
Proof.
  revert seen. induction sentences as [|s rest IH]; intros seen.
  - cbn. split; [by intros ?%elem_of_nil|by intros [?%elem_of_nil _]].
  - cbn [Sampling.dedupe_loop]. destruct (decide (s ∈ seen)) as [Hs|Hs].
    + rewrite IH, elem_of_cons. split; [by intros [? ?]; auto|].
      intros [[-> | ?] ?]; done.
    + rewrite dedupe_loop_acc. cbn [app].
      rewrite !elem_of_cons, IH, elem_of_union, elem_of_singleton.
      destruct (decide (x = s)) as [->|]; intuition.
Qed.

Lemma dedupe_loop_NoDup sentences seen :
  NoDup (Sampling.dedupe_loop sentences seen []).
Proof.
  revert seen. induction sentences as [|s rest IH]; intros seen.
  - constructor.
  - cbn [Sampling.dedupe_loop]. destruct (decide (s ∈ seen)); [apply IH|].
    rewrite dedupe_loop_acc. cbn [app]. constructor; [|apply IH].
    rewrite dedupe_loop_elem, elem_of_union, elem_of_singleton. intuition.
Qed.

Lemma dedupe_loop_sublist sentences seen :
  Sampling.dedupe_loop sentences seen [] `sublist_of` sentences.
Proof.
  revert seen. induction sentences as [|s rest IH]; intros seen; [done|].
  cbn [Sampling.dedupe_loop]. destruct (decide (s ∈ seen)).
  - by apply sublist_cons.
  - rewrite dedupe_loop_acc. cbn [app]. by apply sublist_skip.
Qed.

Lemma dedupe_loop_fixed sentences seen :
  NoDup sentences -> (forall x, x ∈ sentences -> x ∉ seen) ->
  Sampling.dedupe_loop sentences seen [] = sentences.
Proof.
  intros Hnd. revert seen. induction Hnd as [|s rest Hs _ IH]; intros seen Hseen;
    [done|].
  cbn [Sampling.dedupe_loop].
  destruct (decide (s ∈ seen)) as [Hin|_];
    [by destruct (Hseen s (list_elem_of_here _ _))|].
  rewrite dedupe_loop_acc. cbn [app]. f_equal. apply IH.
  intros x Hx. rewrite elem_of_union, elem_of_singleton.
  intros [Hin | ->]; [|done].
  by apply (Hseen x (list_elem_of_further _ _ _ Hx)).
Qed.

Lemma write_categories_spec cats (cat_sentences : gmap string (list string))
    files all_sentences :
  (forall cat, cat ∈ cats -> is_Some (cat_sentences !! cat)) ->
  Sampling.write_categories cats cat_sentences files all_sentences
  = Ok (files ++ ((fun cat =>
                     (cat, Sampling.dedupe (default [] (cat_sentences !! cat))))
                  <$> cats),
        all_sentences ++ concat ((fun cat =>
                     Sampling.dedupe (default [] (cat_sentences !! cat)))
                  <$> cats)).
Proof.
  revert files all_sentences.
  induction cats as [|cat cats IH]; intros files all_sentences Hkeys.
  - cbn. by rewrite !app_nil_r.
  - cbn [Sampling.write_categories]. rewrite !fmap_cons. cbn [concat].
    unfold Sampling.getitem_list.
    destruct (Hkeys cat (list_elem_of_here _ _)) as [l Hl]. rewrite Hl.
    change (default [] (Some l)) with l.
    etrans; [apply IH|by rewrite <- !app_assoc].
    intros c Hc. by apply Hkeys, list_elem_of_further.
Qed.

(** X15: deduplication is done per category.  The deduplicated list of
    a category holds each of its sentences once, in the order of the
    first occurrences, and nothing else; a list without repetition is
    left as it is.  The combined list is the concatenation of the
    deduplicated lists in the order of the target categories, so a
    sentence collected for two categories is written twice to the
    combined file. *)
Theorem dedupe_per_category :
  (forall sentences,
      NoDup (Sampling.dedupe sentences)
      /\ (forall s, s ∈ Sampling.dedupe sentences <-> s ∈ sentences)
      /\ Sampling.dedupe sentences `sublist_of` sentences
      /\ (forall s rest, sentences = s :: rest ->
            exists rest', Sampling.dedupe sentences = s :: rest')
      /\ (NoDup sentences -> Sampling.dedupe sentences = sentences))
  /\ (forall cats (cat_sentences : gmap string (list string)),
        (forall cat, cat ∈ cats -> is_Some (cat_sentences !! cat)) ->
        exists files all_sentences,
          Sampling.write_categories cats cat_sentences [] []
            = Ok (files, all_sentences)
          /\ files.*1 = cats
          /\ Forall (fun file => NoDup file.2) files
          /\ all_sentences = concat files.*2)
  /\ Sampling.write_categories ["Tarix"; "Fan"]
       {[ "Tarix" := ["a"; "b"; "a"]; "Fan" := ["b"; "c"] ]} [] []
     = Ok ([("Tarix", ["a"; "b"]); ("Fan", ["b"; "c"])], ["a"; "b"; "b"; "c"]).
Proof.
  split; [|split; [|by vm_compute]].
  - intros sentences. unfold Sampling.dedupe.
    split; [apply dedupe_loop_NoDup|]. split; [|split; [|split]].
    + intros s. rewrite dedupe_loop_elem. split; [by intros [? _]|].
      intros Hs. split; [done|]. apply not_elem_of_empty.
    + apply dedupe_loop_sublist.
    + intros s rest ->. cbn [Sampling.dedupe_loop].
      destruct (decide (s ∈ (∅ : gset string))) as [Hin|_];
        [by apply elem_of_empty in Hin|].
      rewrite dedupe_loop_acc. by eexists.
    + intros Hnd. apply dedupe_loop_fixed; [done|].
      intros x _. apply not_elem_of_empty.
  - intros cats cat_sentences Hkeys.
    rewrite write_categories_spec by done. eexists _, _. split; [done|].
    cbn [app]. split; [|split].
    + rewrite <- list_fmap_compose. apply list_fmap_id.
    + apply Forall_fmap, Forall_forall. intros cat _. cbn.
      apply dedupe_loop_NoDup.
    + by rewrite <- list_fmap_compose.
Qed.

Lemma dedupe_per_category_witness :
  Sampling.dedupe ["b"; "a"; "c"] = ["b"; "a"; "c"]
  /\ exists files all_sentences,
       Sampling.write_categories ["Tarix"; "Fan"]
         {[ "Tarix" := ["a"; "b"; "a"]; "Fan" := ["b"; "c"] ]} [] []
         = Ok (files, all_sentences)
       /\ files.*1 = ["Tarix"; "Fan"]
       /\ Forall (fun file => NoDup file.2) files
       /\ all_sentences = concat files.*2.
Proof.
  destruct dedupe_per_category as (Hdedupe & Hwrite & _). split.
  - apply (Hdedupe ["b"; "a"; "c"]).
    apply (bool_decide_eq_true_1 (NoDup ["b"; "a"; "c"])). vm_compute.
    reflexivity.
  - apply Hwrite. intros cat Hcat.
    repeat (apply elem_of_cons in Hcat as [-> | Hcat]; [by eexists|]).
    by apply elem_of_nil in Hcat.
Defined.

Lemma punctuation_not_space c :
  Sampling.punctuation c = true -> Py.isspace c = false.
Proof.
  unfold Sampling.punctuation. intros H%bool_decide_eq_true.
  repeat (apply elem_of_cons in H as [-> | H]; [done|]).
  by apply elem_of_nil in H.
Qed.

Lemma split_ws_go_class_run (s cur : string) :
  Sampling.class_run_to_end s = true ->
  (length (Sampling.split_ws_go cur s) <= 1)%nat.
Proof.
  revert cur. induction s as [|c s IH]; intros cur.
  - intros _. cbn. destruct (decide (cur = "")); cbn; lia.
  - cbn [Sampling.class_run_to_end Sampling.split_ws_go].
    destruct (Sampling.punctuation c) eqn:Hc.
    + rewrite (punctuation_not_space _ Hc). apply IH.
    + intros [->%Ascii.eqb_eq ->%bool_decide_eq_true]%andb_true_iff.
      change (Py.isspace Py.LF) with true. cbn iota.
      cbn [Sampling.split_ws_go]. rewrite (decide_True (P := "" = "")) by done.
      destruct (decide (cur = "")); cbn; lia.
Qed.

(** X16: [sentence_ok] accepts exactly the sentences of 5 to 35
    white-space separated tokens.  Its second test, which rejects a
    sentence made of punctuation marks only, never decides: such a
    sentence has at most one token and is rejected by the first test
    already.  Five hyphens separated by blanks are five tokens, are no
    match of the pattern, and are accepted. *)
Theorem sentence_ok_counts_tokens :
  (forall sent,
      Sampling.only_punctuation sent = true ->
      (length (Sampling.split_ws sent) <= 1)%nat)
  /\ (forall sent,
        Sampling.sentence_ok sent
        = (5 <=? Z.of_nat (length (Sampling.split_ws sent)))
          && (Z.of_nat (length (Sampling.split_ws sent)) <=? 35))
  /\ Sampling.sentence_ok "Bu kitob juda qiziq ekan ." = true
  /\ Sampling.sentence_ok "?!..." = false
  /\ Sampling.sentence_ok "- - - - -" = true.
Proof.
  assert (forall sent,
             Sampling.only_punctuation sent = true ->
             (length (Sampling.split_ws sent) <= 1)%nat) as Hone.
  { intros [|c s]; [done|]. cbn [Sampling.only_punctuation].
    intros [Hc Hs]%andb_true_iff. unfold Sampling.split_ws.
    cbn [Sampling.split_ws_go]. rewrite (punctuation_not_space _ Hc).
    by apply split_ws_go_class_run. }
  split; [exact Hone|]. split; [|by vm_compute].
  intros sent. unfold Sampling.sentence_ok, Sampling.MIN_TOKENS,
    Sampling.MAX_TOKENS. cbn zeta.
  specialize (Hone sent).
  set (n := Z.of_nat (length (Sampling.split_ws sent))) in *.
  destruct (Z.ltb_spec n 5), (Z.gtb_spec n 35), (Z.leb_spec 5 n),
    (Z.leb_spec n 35); try lia; cbn; try done.
  destruct (Sampling.only_punctuation sent); [|done].
  specialize (Hone eq_refl). lia.
Qed.

Lemma sentence_ok_counts_tokens_witness :
  (length (Sampling.split_ws "?!...") <= 1)%nat.
Proof. apply (proj1 sentence_ok_counts_tokens). reflexivity. Defined.

Lemma add_category_elem cat (m : gmap string (gset string)) articles title c :
  c ∈ default ∅ (foldl (Sampling.add_category cat) m articles !! title)
  <-> c ∈ default ∅ (m !! title) \/ (c = cat /\ title ∈ articles).
Proof.
  revert m. induction articles as [|a articles IH]; intros m.
  - cbn. split; [by left|]. intros [?|[_ ?%elem_of_nil]]; done.
  - cbn [foldl]. rewrite IH. unfold Sampling.add_category at 1.
    rewrite elem_of_cons. destruct (decide (title = a)) as [->|Hne].
    + rewrite lookup_insert_eq. cbn. rewrite elem_of_union, elem_of_singleton.
      intuition.
    + rewrite lookup_insert_ne by done. intuition congruence.
Qed.

Lemma add_category_nonempty cat (m : gmap string (gset string)) articles :
  (forall title s, m !! title = Some s -> s <> ∅) ->
  forall title s,
    foldl (Sampling.add_category cat) m articles !! title = Some s -> s <> ∅.
Proof.
  revert m. induction articles as [|a articles IH]; intros m Hm; [done|].
  cbn [foldl]. apply IH. intros title s. unfold Sampling.add_category.
  destruct (decide (title = a)) as [->|Hne].
  - rewrite lookup_insert_eq. intros [= <-] Hempty.
    assert (cat ∈ (∅ : gset string)) as Hin;
      [|by apply elem_of_empty in Hin].
    rewrite <- Hempty. apply elem_of_union. right. by apply elem_of_singleton.
  - rewrite lookup_insert_ne by done. apply Hm.
Qed.

Lemma title_to_categories_fold (cat_to_articles : gmap string (list string))
    cats (m : gmap string (gset string)) :
  let r := foldl (fun title_to_cats cat =>
                    foldl (Sampling.add_category cat) title_to_cats
                      (default [] (cat_to_articles !! cat))) m cats in
  (forall title c,
      c ∈ default ∅ (r !! title)
      <-> c ∈ default ∅ (m !! title)
          \/ (c ∈ cats /\ title ∈ default [] (cat_to_articles !! c)))
  /\ ((forall title s, m !! title = Some s -> s <> ∅) ->
      forall title s, r !! title = Some s -> s <> ∅).
Proof.
  revert m. induction cats as [|cat cats IH]; intros m; cbn zeta.
  - cbn. split; [|done]. intros title c. split; [by left|].
    intros [?|[?%elem_of_nil _]]; done.
  - cbn [foldl].
    destruct (IH (foldl (Sampling.add_category cat) m
                    (default [] (cat_to_articles !! cat)))) as [IH1 IH2].
    split.
    + intros title c. rewrite IH1, add_category_elem, elem_of_cons.
      split.
      * intros [[?|[-> ?]]|[? ?]]; auto.
      * intros [?|[[->|?] ?]]; auto.
    + intros Hm. apply IH2. by apply add_category_nonempty.
Qed.

(** X17: the mapping [build_title_to_categories] returns inverts the
    category lists over the target categories: a category is in the set
    of a title exactly when it is a target category whose article list
    holds the title; and a title is a key exactly when some target
    category lists it, its set being then not empty. *)
Theorem title_to_categories_inverts
    (cat_to_articles : gmap string (list string)) (target_categories : list string) :
  let title_to_cats :=
    Sampling.build_title_to_categories cat_to_articles target_categories in
  (forall title cat,
      cat ∈ default ∅ (title_to_cats !! title)
      <-> cat ∈ target_categories
          /\ title ∈ default [] (cat_to_articles !! cat))
  /\ (forall title,
        is_Some (title_to_cats !! title)
        <-> exists cat, cat ∈ target_categories
                        /\ title ∈ default [] (cat_to_articles !! cat))
  /\ (forall title cats, title_to_cats !! title = Some cats -> cats <> ∅).
Proof.
  cbn zeta. unfold Sampling.build_title_to_categories.
  destruct (title_to_categories_fold cat_to_articles target_categories ∅)
    as [Helem Hne]. cbn zeta in Helem, Hne.
  assert (forall title cats,
             foldl (fun title_to_cats cat =>
                      foldl (Sampling.add_category cat) title_to_cats
                        (default [] (cat_to_articles !! cat)))
                   ∅ target_categories !! title = Some cats -> cats <> ∅)
    as Hne' by (apply Hne; intros title s; by rewrite lookup_empty).
  assert (forall title cat,
             cat ∈ default ∅
               (foldl (fun title_to_cats cat =>
                         foldl (Sampling.add_category cat) title_to_cats
                           (default [] (cat_to_articles !! cat)))
                      ∅ target_categories !! title)
             <-> cat ∈ target_categories
                 /\ title ∈ default [] (cat_to_articles !! cat)) as Helem'.
  { intros title cat. rewrite Helem, lookup_empty. cbn.
    split; [|by right]. intros [Hin|?]; [|done]. by apply elem_of_empty in Hin. }
  split; [exact Helem'|]. split; [|exact Hne'].
  intros title. split.
  - intros [cats Hcats]. pose proof (Hne' _ _ Hcats) as Hnonempty.
    apply set_choose_L in Hnonempty as [cat Hcat].
    exists cat. apply Helem'. by rewrite Hcats.
  - intros (cat & Hcat). apply Helem' in Hcat.
    destruct (_ !! title) as [cats|]; [by eexists|].
    by apply elem_of_empty in Hcat.
Qed.

Lemma append_title_elem title (m : gmap string (list string)) cats cat t :
  t ∈ default [] (foldl (Metadata.append_title title) m cats !! cat)
  <-> t ∈ default [] (m !! cat) \/ (t = title /\ cat ∈ cats).
Proof.
  revert m. induction cats as [|c cats IH]; intros m.
  - cbn. split; [by left|]. intros [?|[_ ?%elem_of_nil]]; done.
  - cbn [foldl]. rewrite IH. unfold Metadata.append_title at 1.
    rewrite elem_of_cons. destruct (decide (cat = c)) as [->|Hne].
    + rewrite lookup_insert_eq. cbn. rewrite elem_of_app, list_elem_of_singleton.
      intuition.
    + rewrite lookup_insert_ne by done. intuition congruence.
Qed.

Lemma category_to_articles_fold (page_map : gmap Z string) cat_links
    (m : gmap string (list string)) cat t :
  t ∈ default []
        (foldl (fun category_to_articles '(page_id, cats) =>
                  match page_map !! page_id with
                  | None => category_to_articles
                  | Some title =>
                      if decide (title = "") then category_to_articles
                      else foldl (Metadata.append_title title)
                             category_to_articles cats
                  end) m cat_links !! cat)
  <-> t ∈ default [] (m !! cat)
      \/ exists page_id cats,
           (page_id, cats) ∈ cat_links /\ page_map !! page_id = Some t
           /\ t <> "" /\ cat ∈ cats.
Proof.
  revert m. induction cat_links as [|[page_id cats] cat_links IH]; intros m.
  - cbn. split; [by left|].
    intros [?|(? & ? & ?%elem_of_nil & _)]; done.
  - cbn [foldl]. rewrite IH. clear IH.
    assert (t ∈ default []
              (match page_map !! page_id with
               | None => m
               | Some title =>
                   if decide (title = "") then m
                   else foldl (Metadata.append_title title) m cats
               end !! cat)
            <-> t ∈ default [] (m !! cat)
                \/ (page_map !! page_id = Some t /\ t <> "" /\ cat ∈ cats))
      as ->.
    { destruct (page_map !! page_id) as [title|]; [|intuition congruence].
      destruct (decide (title = "")) as [->|Hne]; [intuition congruence|].
      rewrite append_title_elem. split.
      - intros [?|[-> ?]]; auto.
      - intros [?|([= ->] & _ & ?)]; auto. }
    split.
    + intros [[?|(? & ? & ?)]|(p & cs & Hin & ?)]; [by left|right..].
      * exists page_id, cats. split; [apply list_elem_of_here|done].
      * exists p, cs. split; [by apply list_elem_of_further|done].
    + intros [?|(p & cs & Hin & ? & ? & ?)]; [by left; left|].
      apply elem_of_cons in Hin as [[= -> ->]|Hin]; [by left; right|].
      right. by exists p, cs.
Qed.

(** X18: a title is in the article list [build_category_to_articles]
    gives for a category exactly when some page of the category links
    has that title in the page map, the title is not empty, and the
    page lists the category.  A page whose title is the empty string is
    left out like a page that is missing from the page map. *)
Theorem category_to_articles_joins (page_map : gmap Z string)
    (cat_links : list (Z * list string)) :
  let category_to_articles :=
    Metadata.build_category_to_articles page_map cat_links in
  (forall cat title,
      title ∈ default [] (category_to_articles !! cat)
      <-> exists page_id cats,
            (page_id, cats) ∈ cat_links /\ page_map !! page_id = Some title
            /\ title <> "" /\ cat ∈ cats)
  /\ Metadata.build_category_to_articles {[ 1 := "Tarix"; 2 := "" ]}
       [(1, ["A"; "B"]); (2, ["A"]); (3, ["B"]); (1, ["A"])]
     = {[ "A" := ["Tarix"; "Tarix"]; "B" := ["Tarix"] ]}.
Proof.
  cbn zeta. split; [|by vm_compute].
  intros cat title. unfold Metadata.build_category_to_articles.
  rewrite category_to_articles_fold, lookup_empty. cbn.
  split; [|by right]. intros [Hin|?]; [|done]. by apply elem_of_nil in Hin.
Qed.

Lemma title_to_categories_inverts_witness :
  "Fan" ∈ default ∅
    (Sampling.build_title_to_categories
       {[ "Tarix" := ["Amir Temur"; "Bobur"]; "Fan" := ["Bobur"] ]}
       ["Tarix"; "Fan"] !! "Bobur")
  /\ is_Some
       (Sampling.build_title_to_categories
          {[ "Tarix" := ["Amir Temur"; "Bobur"]; "Fan" := ["Bobur"] ]}
          ["Tarix"; "Fan"] !! "Amir Temur").
Proof.
  destruct (title_to_categories_inverts
              {[ "Tarix" := ["Amir Temur"; "Bobur"]; "Fan" := ["Bobur"] ]}
              ["Tarix"; "Fan"]) as (Helem & Hkey & _).
  split.
  - apply Helem. split.
    + apply list_elem_of_further, list_elem_of_here.
    + vm_compute. apply list_elem_of_here.
  - apply Hkey. exists "Tarix". split.
    + apply list_elem_of_here.
    + vm_compute. apply list_elem_of_here.
Defined.

Lemma category_to_articles_joins_witness :
  "Tarix" ∈ default []
    (Metadata.build_category_to_articles {[ 1 := "Tarix"; 2 := "" ]}
       [(1, ["A"; "B"]); (2, ["A"])] !! "B").
Proof.
  apply (proj1 (category_to_articles_joins {[ 1 := "Tarix"; 2 := "" ]}
                  [(1, ["A"; "B"]); (2, ["A"])])).
  exists 1, ["A"; "B"]. split; [apply list_elem_of_here|].
  split; [reflexivity|]. split; [discriminate|].
  apply list_elem_of_further, list_elem_of_here.
Defined.

(** ** The checkpoint after a run *)

Lemma foldr_max_seqZ_from (s : Z) (n : nat) :
  1 <= s -> foldr Z.max 0 (seqZ s (Z.of_nat (S n))) = s + Z.of_nat n.
Proof.
  intros Hs. induction n as [|n IH].
  - rewrite seqZ_S, seqZ_nil by lia. cbn [app foldr]. lia.
  - rewrite seqZ_S, foldr_max_snoc, IH. lia.
Qed.

(** X19: the checkpoint after a run, with or without a start override.
    On a Corpus that is empty or ends with a newline, with a validator
    that passes no Record holding a header line, a run that commits
    nothing leaves the checkpoint as it was, and a run that commits
    [n] sentences from the start index [s] on leaves the greater of the
    old checkpoint and [s + n - 1].  So the checkpoint never goes down;
    a run started below the checkpoint does not lower it, and after a
    run started beyond it the sentences in between are below the
    checkpoint and are not taken up again without an override. *)
Theorem checkpoint_after_run
    (service : Z -> string -> string -> result (list token))
    (validator : Z -> string -> result (bool * string))
    (json_dumps : list token -> string) (str_exc : exn -> string)
    (override : option Z) (model content : string) (gold0 : option string)
    (w1 : world) :
  closed_text (default "" gold0) ->
  (forall i r log, validator i r = Ok (true, log) ->
                   header_values (Some r) = []) ->
  main service validator json_dumps str_exc override model (Some content)
       (initial_world gold0) = Ok w1 ->
  exists cs,
    gold_text w1 = default "" gold0 +:+ blocks cs
    /\ get_last_processed_index (gold w1)
       = (if decide (cs = []) then get_last_processed_index gold0
          else Z.max (get_last_processed_index gold0)
                     (resolve_start override gold0 + Z.of_nat (length cs) - 1))
    /\ get_last_processed_index gold0 <= get_last_processed_index (gold w1).
Proof.
  intros Hclosed Hval Hrun.
  destruct (run_outcome _ _ _ _ _ _ _ _ _ Hrun)
    as (cs & n & Hgold & _ & Hidx & Hpassed & Hsents & _ & _).
  pose proof (commits_plain service validator model content cs Hval Hpassed
                Hsents) as Hplain.
  pose proof (resolve_start_pos override gold0) as Hpos.
  pose proof (get_last_processed_index_nonneg gold0) as Hnonneg.
  exists cs. split; [done|].
  assert (get_last_processed_index (gold w1)
          = Z.max (get_last_processed_index gold0)
                  (foldr Z.max 0 (seqZ (resolve_start override gold0)
                                       (Z.of_nat (length cs))))) as Heq.
  { rewrite (checkpoint_default (gold w1)), (checkpoint_default gold0).
    unfold gold_text in Hgold. rewrite Hgold, !checkpoint_header_values.
    rewrite blocks_header_values by done. by rewrite foldr_max_app, Hidx. }
  destruct cs as [|c cs].
  - cbn [length] in Heq. rewrite seqZ_nil in Heq by lia. cbn [foldr] in Heq.
    destruct (decide ([] = [])) as [_|?]; [|done]. lia.
  - rewrite Heq. cbn [length]. rewrite foldr_max_seqZ_from by done.
    destruct (decide (c :: cs = [])) as [?|_]; [done|].
    split; [f_equal|]; lia.
Qed.

Lemma checkpoint_after_run_witness :
  exists cs,
    gold_text strict_run = default "" None +:+ blocks cs
    /\ get_last_processed_index (gold strict_run)
       = (if decide (cs = []) then get_last_processed_index None
          else Z.max (get_last_processed_index None)
                     (resolve_start None None + Z.of_nat (length cs) - 1))
    /\ get_last_processed_index None <= get_last_processed_index (gold strict_run).
Proof.
  apply (checkpoint_after_run demo_service strict_validator demo_json
           demo_str_exc None "" four_sentences None strict_run).
  - left. reflexivity.
  - intros i r log [= Hok _]. apply andb_true_iff in Hok as [Hok _].
    by apply bool_decide_eq_true in Hok.
  - vm_compute. reflexivity.
Defined.

(** ** The text of a commit *)

(** X20: the lines a commit appends.  For a sentence without line
    break and a reply of at least one token whose texts hold no line
    break, the block written is, line by line: the header with the
    index of the sentence, the text line with the sentence, the line of
    each token in order, and one empty line; and the header of the
    block is the only line of it the resolver reads. *)
Theorem block_layout (i : Z) (sent : string) (tokens : list token) (out : string) :
  tokens <> [] -> str_all no_break_char sent = true ->
  Forall plain_token tokens ->
  tokens_to_conllu tokens = Ok out ->
  exists lines,
    Forall2 (fun t line => token_line t = Ok line) tokens lines
    /\ corpus_lines (block (i, sent, out))
       = [("# sent_id = auto-" +:+ Py.str_of_int i) +:+ Py.nl;
          ("# text = " +:+ sent) +:+ Py.nl]
         ++ ((fun line => line +:+ Py.nl) <$> lines) ++ [Py.nl]
    /\ header_values (Some (block (i, sent, out))) = [i].
Proof.
  intros Hne Hsent Hplain Hout.
  apply tokens_to_conllu_ok in Hout as (ls & Hls & ->).
  assert (ls <> []) as Hls_ne.
  { intros ->. apply Forall2_length in Hls. by destruct tokens. }
  assert (Forall (fun l => str_all no_break_char l = true
                           /\ header_value (l +:+ Py.nl) = None) ls) as Hlines.
  { clear -Hls Hplain. induction Hls as [|t l' ts ls' Ht _ IH]; [done|].
    apply Forall_cons in Hplain as [Hp Hplain].
    constructor; [by eapply plain_token_line|by apply IH]. }
  destruct (plain_lines_text _ Hlines) as [Hcorpus Hnone].
  rewrite join_lines_text by done.
  exists ls. split; [done|].
  assert (str_all no_break_char ("# sent_id = auto-" +:+ Py.str_of_int i) = true)
    as Hheader.
  { rewrite str_all_app. apply andb_true_iff. split; [done|].
    destruct (str_of_int_chars i) as [_ Hall].
    by eapply str_all_impl; [apply sign_or_digit_no_break|]. }
  assert (str_all no_break_char ("# text = " +:+ sent) = true) as Htext.
  { rewrite str_all_app. by apply andb_true_iff. }
  assert (closed_text (lines_text ls)) as Hclosed.
  { rewrite <- join_lines_text by done. right. by eexists. }
  assert (block (i, sent, lines_text ls)
          = (("# sent_id = auto-" +:+ Py.str_of_int i) +:+ Py.nl)
            +:+ (("# text = " +:+ sent) +:+ Py.nl)
            +:+ lines_text ls +:+ ("" +:+ Py.nl)) as Hblock.
  { unfold block. by rewrite !str_app_assoc. }
  split.
  - rewrite Hblock.
    rewrite (corpus_lines_app (_ +:+ Py.nl)) by (right; by eexists).
    rewrite (corpus_lines_app (_ +:+ Py.nl)) by (right; by eexists).
    rewrite (corpus_lines_app (lines_text ls)) by done.
    rewrite !corpus_lines_one by done. by rewrite Hcorpus.
  - apply (block_header_values (i, sent, lines_text ls)).
    split; [done|]. split; done.
Qed.

Lemma block_layout_witness :
  exists lines,
    Forall2 (fun t line => token_line t = Ok line) [kitob] lines
    /\ corpus_lines (block (7, "Kitob", kitob_line +:+ Py.nl))
       = [("# sent_id = auto-" +:+ Py.str_of_int 7) +:+ Py.nl;
          ("# text = " +:+ "Kitob") +:+ Py.nl]
         ++ ((fun line => line +:+ Py.nl) <$> lines) ++ [Py.nl]
    /\ header_values (Some (block (7, "Kitob", kitob_line +:+ Py.nl))) = [7].
Proof.
  apply (block_layout 7 "Kitob" [kitob] (kitob_line +:+ Py.nl)).
  - discriminate.
  - reflexivity.
  - constructor; [|constructor]. vm_compute. repeat constructor.
  - vm_compute. reflexivity.
Defined.

(** ** The header numbers of the Corpus *)

Lemma header_values_default gold0 :
  header_values gold0 = header_values (Some (default "" gold0)).
Proof. by destruct gold0. Qed.

Lemma blocks_closed cs : closed_text (blocks cs).
Proof.
  induction cs as [|c cs IH]; [by left|]. cbn [blocks].
  destruct (block_closed c) as [Hc Hne]. destruct cs as [|c' cs].
  - cbn [blocks]. by rewrite str_app_nil_r.
  - apply closed_text_app; [done|]. cbn [blocks].
    destruct (block_closed c') as [_ Hne']. intros Heq. apply Hne'.
    destruct (block c'); [done|]. discriminate.
Qed.

Lemma closed_text_blocks (g : string) cs :
  closed_text g -> closed_text (g +:+ blocks cs).
Proof.
  intros Hg. destruct cs as [|c cs]; [cbn; by rewrite str_app_nil_r|].
  apply closed_text_app; [apply blocks_closed|]. cbn [blocks].
  destruct (block_closed c) as [_ Hne]. intros Heq. apply Hne.
  destruct (block c); [done|]. discriminate.
Qed.

Lemma headers_of_run
    (service : Z -> string -> string -> result (list token))
    (validator : Z -> string -> result (bool * string))
    (json_dumps : list token -> string) (str_exc : exn -> string)
    (override : option Z) (model content : string) (gold0 : option string)
    (w1 : world) :
  closed_text (default "" gold0) ->
  (forall i r log, validator i r = Ok (true, log) ->
                   header_values (Some r) = []) ->
  main service validator json_dumps str_exc override model (Some content)
       (initial_world gold0) = Ok w1 ->
  exists cs,
    gold_text w1 = default "" gold0 +:+ blocks cs
    /\ Forall (passed_validation service validator model) cs
    /\ header_values (gold w1)
       = header_values gold0
         ++ seqZ (resolve_start override gold0) (Z.of_nat (length cs))
    /\ closed_text (default "" (gold w1)).
Proof.
  intros Hclosed Hval Hrun.
  destruct (run_outcome _ _ _ _ _ _ _ _ _ Hrun)
    as (cs & n & Hgold & _ & Hidx & Hpassed & Hsents & _ & _).
  pose proof (commits_plain service validator model content cs Hval Hpassed
                Hsents) as Hplain.
  exists cs. split; [done|]. split; [done|]. unfold gold_text in Hgold.
  rewrite (header_values_default (gold w1)), (header_values_default gold0), Hgold.
  split; [|by apply closed_text_blocks].
  by rewrite blocks_header_values, Hidx.
Qed.

(** X21: the header numbers of the Corpus after a run are those it held
    before, followed by the start index and its successors, one per
    commit: the run appends to the Corpus the blocks of its commits,
    each of a Record the validator passed, and there are as many new
    numbers as blocks (on a Corpus that is empty or ends with a
    newline, with a validator that passes no Record holding a header
    line).  Without a
    start override the numbers added are greater than all the numbers
    present, so numbers that were all different stay all different.  A
    start override is not checked against the Corpus: starting again at
    1 on a Corpus that holds sentence 1 writes a second header with the
    number 1. *)
Theorem headers_after_run
    (service : Z -> string -> string -> result (list token))
    (validator : Z -> string -> result (bool * string))
    (json_dumps : list token -> string) (str_exc : exn -> string)
    (override : option Z) (model content : string) (gold0 : option string)
    (w1 : world) :
  closed_text (default "" gold0) ->
  (forall i r log, validator i r = Ok (true, log) ->
                   header_values (Some r) = []) ->
  main service validator json_dumps str_exc override model (Some content)
       (initial_world gold0) = Ok w1 ->
  (exists cs,
      gold_text w1 = default "" gold0 +:+ blocks cs
      /\ Forall (passed_validation service validator model) cs
      /\ header_values (gold w1)
         = header_values gold0
           ++ seqZ (resolve_start override gold0) (Z.of_nat (length cs)))
  /\ (override = None -> NoDup (header_values gold0) ->
      NoDup (header_values (gold w1)))
  /\ header_values
       (gold (demo_main (Some 1)
                (Some (block (1, "Kitob", kitob_line +:+ Py.nl)))))
     = [1; 1; 2].
Proof.
  intros Hclosed Hval Hrun.
  destruct (headers_of_run _ _ _ _ _ _ _ _ _ Hclosed Hval Hrun)
    as (cs & Hgold & Hpassed & Hn & _).
  split; [by exists cs|]. split; [|by vm_compute].
  intros -> Hnodup. rewrite Hn. apply NoDup_app. split; [done|].
  split; [|apply NoDup_seqZ].
  intros x Hx Hx'. apply elem_of_seqZ in Hx'.
  rewrite resolve_start_inferred, checkpoint_header_values in Hx'.
  destruct (foldr_max_bounds (header_values gold0) 0) as (_ & Hub & _).
  specialize (Hub x Hx). lia.
Qed.

Lemma headers_after_run_witness :
  (exists cs,
      gold_text strict_run = default "" None +:+ blocks cs
      /\ Forall (passed_validation demo_service strict_validator "") cs
      /\ header_values (gold strict_run)
         = header_values None
           ++ seqZ (resolve_start None None) (Z.of_nat (length cs)))
  /\ NoDup (header_values (gold strict_run)).
Proof.
  destruct (headers_after_run demo_service strict_validator demo_json
              demo_str_exc None "" four_sentences None strict_run)
    as (Hn & Hnodup & _).
  - left. reflexivity.
  - intros i r log [= Hok _]. apply andb_true_iff in Hok as [Hok _].
    by apply bool_decide_eq_true in Hok.
  - vm_compute. reflexivity.
  - split; [exact Hn|]. apply Hnodup; [reflexivity|]. vm_compute. constructor.
Defined.

(** X22: the numbering invariant of runs without a start override.  If
    the Corpus is empty or ends with a newline and its header numbers
    are 1, 2, ..., m in this order, then after a run without override
    (with a validator that passes no Record holding a header line) the
    Corpus again ends with a newline or is empty and its header numbers
    are 1, 2, ..., m + n in this order, [n] being the number of commits
    of the run: the blocks the run has appended to the Corpus, each of
    a Record the validator passed.  A missing or empty Corpus is the
    case [m = 0]. *)
Theorem numbering_invariant
    (service : Z -> string -> string -> result (list token))
    (validator : Z -> string -> result (bool * string))
    (json_dumps : list token -> string) (str_exc : exn -> string)
    (model content : string) (gold0 : option string) (w1 : world) (m : nat) :
  closed_text (default "" gold0) ->
  header_values gold0 = seqZ 1 (Z.of_nat m) ->
  (forall i r log, validator i r = Ok (true, log) ->
                   header_values (Some r) = []) ->
  main service validator json_dumps str_exc None model (Some content)
       (initial_world gold0) = Ok w1 ->
  closed_text (default "" (gold w1))
  /\ exists cs,
       gold_text w1 = default "" gold0 +:+ blocks cs
       /\ Forall (passed_validation service validator model) cs
       /\ header_values (gold w1) = seqZ 1 (Z.of_nat (m + length cs))
       /\ get_last_processed_index (gold w1) = Z.of_nat (m + length cs).
Proof.
  intros Hclosed Hnum Hval Hrun.
  destruct (headers_of_run _ _ _ _ _ _ _ _ _ Hclosed Hval Hrun)
    as (cs & Hgold & Hpassed & Hn & Hclosed').
  split; [done|]. exists cs. split; [done|]. split; [done|].
  set (n := length cs) in *.
  assert (forall k : nat, foldr Z.max 0 (seqZ 1 (Z.of_nat k)) = Z.of_nat k)
    as Hmax.
  { intros [|k]; [done|]. rewrite foldr_max_seqZ_from by done. lia. }
  assert (header_values (gold w1) = seqZ 1 (Z.of_nat (m + n))) as Hall.
  { rewrite Hn, Hnum, resolve_start_inferred, checkpoint_header_values, Hnum.
    rewrite Hmax, Nat2Z.inj_add, seqZ_app by lia. do 2 f_equal. lia. }
  split; [done|]. by rewrite checkpoint_header_values, Hall, Hmax.
Qed.

Lemma numbering_invariant_witness :
  closed_text (default "" (gold strict_run))
  /\ exists cs,
       gold_text strict_run = default "" None +:+ blocks cs
       /\ Forall (passed_validation demo_service strict_validator "") cs
       /\ header_values (gold strict_run) = seqZ 1 (Z.of_nat (0 + length cs))
       /\ get_last_processed_index (gold strict_run)
          = Z.of_nat (0 + length cs).
Proof.
  apply (numbering_invariant demo_service strict_validator demo_json
           demo_str_exc "" four_sentences None strict_run 0).
  - left. reflexivity.
  - reflexivity.
  - intros i r log [= Hok _]. apply andb_true_iff in Hok as [Hok _].
    by apply bool_decide_eq_true in Hok.
  - vm_compute. reflexivity.
Defined.

(** ** The Corpus between the writes of a commit *)

Lemma str_length_app (a b : string) :
  String.length (a +:+ b) = (String.length a + String.length b)%nat.
Proof.
  induction a as [|x a IH]; [done|]. rewrite str_app_cons. cbn. by rewrite IH.
Qed.

Lemma blocks_length cs : cs = [] \/ (28 <= String.length (blocks cs))%nat.
Proof.
  destruct cs as [|[[i sent] r] cs]; [by left|right].
  cbn [blocks block]. rewrite !str_length_app.
  change (String.length "# sent_id = auto-") with 17%nat.
  change (String.length "# text = ") with 9%nat.
  change (String.length Py.nl) with 1%nat. lia.
Qed.

(** C1, the claim as worded fails: in the small run, right after the
    first write of the commit of sentence 1, the text written to the
    Corpus is the header [# sent_id = auto-1] alone, and right after
    the third write it ends with the Record of sentence 1 without the
    empty line that closes it; neither is a sequence of whole
    blocks. *)
Lemma partial_block_between_writes :
  (exists ws w w',
      main_steps demo_service demo_validator demo_json demo_str_exc
        None "" (Some four_sentences) (initial_world None) = Ok ws
      /\ ws !! 3%nat = Some w
      /\ gold_text w = "# sent_id = auto-1" +:+ Py.nl
      /\ ws !! 5%nat = Some w'
      /\ gold_text w'
         = "# sent_id = auto-1" +:+ Py.nl +:+ "# text = Kitob" +:+ Py.nl
           +:+ kitob_line +:+ Py.nl)
  /\ ~ validated_at_every_point demo_service demo_validator demo_json
         demo_str_exc None "" four_sentences None.
Proof.
  assert (exists ws w w',
      main_steps demo_service demo_validator demo_json demo_str_exc
        None "" (Some four_sentences) (initial_world None) = Ok ws
      /\ ws !! 3%nat = Some w
      /\ gold_text w = "# sent_id = auto-1" +:+ Py.nl
      /\ ws !! 5%nat = Some w'
      /\ gold_text w'
         = "# sent_id = auto-1" +:+ Py.nl +:+ "# text = Kitob" +:+ Py.nl
           +:+ kitob_line +:+ Py.nl) as Hpoint.
  { eexists _, _, _. split; [vm_compute; reflexivity|].
    split; [vm_compute; reflexivity|]. split; [vm_compute; reflexivity|].
    split; vm_compute; reflexivity. }
  split; [exact Hpoint|]. intros H.
  destruct Hpoint as (ws & w & w' & Hws & Hw & Hg & _).
  specialize (H ws Hws). rewrite Forall_lookup in H.
  destruct (H _ _ Hw) as (cs & Hcs & _). rewrite Hg in Hcs.
  change (default "" None +:+ blocks cs) with (blocks cs) in Hcs.
  destruct (blocks_length cs) as [->|Hlen]; [done|].
  rewrite <- Hcs in Hlen. vm_compute in Hlen. lia.
Qed.

(** ** The columns and the lines of a Record *)






Lemma converts_all_lines (tokens : list token) :
  Forall converts tokens ->
  exists lines, Forall2 (fun t line => token_line t = Ok line) tokens lines.
Proof.
  induction 1 as [|t tokens [line Hline] _ [lines IH]]; [by exists []|].
  exists (line :: lines). by constructor.
Qed.

(** C10, the claim as worded fails: the token [line_feed_form] converts,
    and the Record of this one token has three lines. *)
Lemma more_lines_than_tokens :
  (exists out,
      tokens_to_conllu [line_feed_form] = Ok out
      /\ length (corpus_lines out) = 3%nat)
  /\ ~ one_line_per_token.
Proof.
  split.
  - eexists. split; vm_compute; reflexivity.
  - intros H. specialize (H [line_feed_form] _ ltac:(discriminate) eq_refl).
    vm_compute in H. discriminate.
Qed.

(** C10 (amended): the empty sequence converts, to a single newline.  A
    sequence converts exactly when each of its tokens converts, and the
    Record is then the texts of its tokens, one per token and in order,
    joined by newlines and followed by one newline.  When the sequence
    is not empty and no text of a token holds a carriage return or a
    line feed, these texts are the lines of the Record: it has one line
    per token. *)
Theorem conversion_output_shape :
  tokens_to_conllu [] = Ok Py.nl
  /\ (forall tokens out,
        tokens_to_conllu tokens = Ok out
        <-> exists lines,
              Forall2 (fun t line => token_line t = Ok line) tokens lines
              /\ length lines = length tokens
              /\ out = Py.join Py.nl lines +:+ Py.nl)
  /\ (forall tokens,
        Forall converts tokens <-> exists out, tokens_to_conllu tokens = Ok out)
  /\ (forall tokens out,
        tokens <> [] -> Forall plain_token tokens ->
        tokens_to_conllu tokens = Ok out ->
        exists lines,
          Forall2 (fun t line => token_line t = Ok line) tokens lines
          /\ Forall (fun line => str_all no_break_char line = true) lines
          /\ corpus_lines out = (fun line => line +:+ Py.nl) <$> lines
          /\ length (corpus_lines out) = length tokens).
Proof.
  split; [reflexivity|]. split; [|split].
  - intros tokens out. rewrite tokens_to_conllu_ok. split.
    + intros (ls & Hls & ->). exists ls. split; [done|]. split; [|done].
      symmetry. by eapply Forall2_length.
    + intros (ls & Hls & _ & ->). by exists ls.
  - intros tokens. split.
    + intros (lines & Hlines)%converts_all_lines.
      eexists. apply tokens_to_conllu_ok. by exists lines.
    + intros (out & (ls & Hls & _)%tokens_to_conllu_ok).
      induction Hls as [|t l ts ls' Ht _ IH]; constructor; [by exists l|done].
  - intros tokens out Hne Hplain Hout.
    apply tokens_to_conllu_ok in Hout as (ls & Hls & ->).
    assert (ls <> []) as Hls_ne.
    { intros ->. apply Forall2_length in Hls. by destruct tokens. }
    assert (Forall (fun l => str_all no_break_char l = true
                             /\ header_value (l +:+ Py.nl) = None) ls) as Hlines.
    { clear -Hls Hplain. induction Hls as [|t l' ts ls' Ht _ IH]; [done|].
      apply Forall_cons in Hplain as [Hp Hplain].
      constructor; [by eapply plain_token_line|by apply IH]. }
    destruct (plain_lines_text _ Hlines) as [Hcorpus _].
    rewrite join_lines_text by done. exists ls. split; [done|]. split.
    { eapply Forall_impl; [exact Hlines|]. by intros l [? _]. }
    split; [done|]. rewrite Hcorpus, length_fmap. symmetry.
    by eapply Forall2_length.
Qed.

Lemma conversion_output_shape_witness :
  tokens_to_conllu [kitob; kitob]
    = Ok (Py.join Py.nl [kitob_line; kitob_line] +:+ Py.nl)
  /\ (exists out, tokens_to_conllu [kitob; kitob] = Ok out)
  /\ exists lines,
       Forall2 (fun t line => token_line t = Ok line) [kitob; kitob] lines
       /\ Forall (fun line => str_all no_break_char line = true) lines
       /\ corpus_lines (kitob_line +:+ Py.nl +:+ kitob_line +:+ Py.nl)
          = (fun line => line +:+ Py.nl) <$> lines
       /\ length (corpus_lines (kitob_line +:+ Py.nl +:+ kitob_line +:+ Py.nl))
          = length [kitob; kitob].
Proof.
  destruct conversion_output_shape as (_ & Hiff & Hall & Hlines).
  split; [|split].
  - apply Hiff. exists [kitob_line; kitob_line].
    split; [|split; reflexivity].
    constructor; [by vm_compute|]. constructor; [by vm_compute|constructor].
  - apply Hall. constructor; [|constructor; [|constructor]];
      exists kitob_line; vm_compute; reflexivity.
  - apply (Hlines [kitob; kitob]).
    + discriminate.
    + repeat constructor.
    + vm_compute. reflexivity.
Defined.
